(** * The zsh TCP module (Src/Modules/tcp.c): session registry and
      connection operations, embedded over an explicit store.

    The C code keeps its sessions in a singly linked list threaded through
    heap records, with two globals [ztcp_head] and [ztcp_tail].  The embedding
    keeps the pointers: records live in a finite map from addresses to
    records, [NULL] is [None], and every dereference of a pointer that does
    not designate an allocated record stops the computation with a fault,
    as does reading a record that was already handed to [free].  Such a
    fault marks the place where the run makes an access C leaves
    undefined: the embedding follows the run up to that access, and says
    nothing of what a compiled program does from there on.

    What lies outside the file is part of the state as well: the allocator
    (which hands out addresses it never used before, while it has memory
    left), the descriptor table of the kernel, [errno], the [errflag] of the
    shell, the answers the kernel will give to [connect] and [close], the
    resolver, and the trace of everything the module asks of the kernel,
    of the warning functions and of the output stream.

    The first part holds the definitions: the code, function by function
    and under the names of the source, then the predicates and the
    reference functions the statements are written with.  The second part
    holds the proofs. *)

From Stdlib Require Import ZArith List String Ascii Lia.
From stdpp Require Import base option list gmap.
Import ListNotations.

Local Open Scope Z_scope.

(** ** Platform constants (values of the Linux headers) *)

Definition AF_INET : Z := 2.
Definition PF_INET : Z := 2.
Definition AF_INET6 : Z := 10.
Definition SOCK_STREAM : Z := 1.
Definition EINTR : Z := 4.
Definition EBADF : Z := 9.
Definition EMFILE : Z := 24.
Definition ECONNREFUSED : Z := 111.

(** Compile-time configuration of the module.  [ZTCP_ZFTP] is defined in
    tcp.h, which is not part of the sources at hand, so its value is a
    parameter of the development. *)
Record config := Config {
  SUPPORT_IPV6 : bool;
  HAVE_STRUCT_SOCKADDR_IN6_SIN6_SCOPE_ID : bool;
  SO_OOBINLINE : bool;
  ZTCP_ZFTP : Z
}.

(** ** Data model *)

(** [Tcp_session] is [struct tcp_session *]. *)
Definition Tcp_session := option positive.

Definition NULL : Tcp_session := None.

(** Modelled from the spec: tcp.h, which declares [union tcp_sockaddr] and
    [struct tcp_session], is missing.  The union overlays a generic socket
    address, an IPv4 one and an IPv6 one; family and port sit at the same
    place in all views, and the four bytes of [in.sin_addr] are the storage
    of [in6.sin6_flowinfo]. *)
Record tcp_sockaddr := Sockaddr {
  sa_family : Z;
  sin_port : Z;
  sin_addr : list Z;
  sin6_addr : list Z;
  sin6_scope_id : Z
}.

#[global] Instance tcp_sockaddr_eq_dec : EqDecision tcp_sockaddr.
Proof. solve_decision. Defined.

Definition zero_bytes (n : nat) : list Z := repeat 0 n.

Definition sockaddr_zero : tcp_sockaddr :=
  Sockaddr 0 0 (zero_bytes 4) (zero_bytes 16) 0.

(** Modelled from the spec: the session record of tcp.h (descriptor, peer
    address, flags, forward link). *)
Record tcp_session := Session {
  fd : Z;
  peer : tcp_sockaddr;
  flags : Z;
  next : Tcp_session
}.

(** What [zcalloc] hands out: all fields zero. *)
Definition session_zero : tcp_session := Session 0 sockaddr_zero 0 NULL.

Record hostent := Hostent {
  h_name : string;
  h_addrtype : Z;
  h_length : Z;
  h_addr_list : list (list Z)
}.

(** One scheduled answer of the kernel to a [connect] call: the errno it
    fails with ([0] for success), and whether a signal handler of the shell
    set [errflag] while the call was blocked. *)
Record connect_outcome := Outcome {
  co_errno : Z;
  co_signal : bool
}.

Inductive parg := PS (s : string) | PD (n : Z).

(** Everything the module does to the outside, in the order it happens:
    the calls of [zwarn] and [zwarnnam] (with [nam]) and their arguments,
    the lines handed to [fprintf(shout, ...)], and the system calls with
    their results.  A call of [connect] is recorded with both what its
    second argument is, a pointer to the [peer] member of a session,
    written as that session, and the address it finds there. *)
Inductive event :=
| EvWarn (nam : option string) (fmt : string) (str : option string) (num : Z)
| EvPrintf (fmt : string) (args : list parg)
| EvSocket (ret : Z)
| EvSetsockopt (sock : Z)
| EvConnect (sock : Z) (sess : Tcp_session) (sa : tcp_sockaddr) (ret : Z)
| EvClose (sock : Z) (ret : Z).

(** The store: the session records, the two globals of the module, and
    the part of the process and of the kernel the module talks to. *)
Record state := State {
  heap : gmap positive tcp_session;
  next_block : positive;
  mem_left : nat;
  ztcp_head : Tcp_session;
  ztcp_tail : Tcp_session;
  open_fds : gset Z;
  fd_limit : nat;
  errno : Z;
  errflag : Z;
  connect_script : list connect_outcome;
  close_script : list Z;
  resolver : string -> option hostent;
  reverse_resolver : list Z -> option hostent;
  trace : list event
}.

Definition set_heap (h : gmap positive tcp_session) (st : state) : state :=
  State h (next_block st) (mem_left st) (ztcp_head st) (ztcp_tail st)
        (open_fds st) (fd_limit st) (errno st) (errflag st)
        (connect_script st) (close_script st) (resolver st)
        (reverse_resolver st) (trace st).

Definition set_alloc (b : positive) (m : nat) (st : state) : state :=
  State (heap st) b m (ztcp_head st) (ztcp_tail st)
        (open_fds st) (fd_limit st) (errno st) (errflag st)
        (connect_script st) (close_script st) (resolver st)
        (reverse_resolver st) (trace st).

Definition set_ztcp_head (p : Tcp_session) (st : state) : state :=
  State (heap st) (next_block st) (mem_left st) p (ztcp_tail st)
        (open_fds st) (fd_limit st) (errno st) (errflag st)
        (connect_script st) (close_script st) (resolver st)
        (reverse_resolver st) (trace st).

Definition set_ztcp_tail (p : Tcp_session) (st : state) : state :=
  State (heap st) (next_block st) (mem_left st) (ztcp_head st) p
        (open_fds st) (fd_limit st) (errno st) (errflag st)
        (connect_script st) (close_script st) (resolver st)
        (reverse_resolver st) (trace st).

Definition set_open_fds (o : gset Z) (st : state) : state :=
  State (heap st) (next_block st) (mem_left st) (ztcp_head st) (ztcp_tail st)
        o (fd_limit st) (errno st) (errflag st)
        (connect_script st) (close_script st) (resolver st)
        (reverse_resolver st) (trace st).

Definition set_errno (e : Z) (st : state) : state :=
  State (heap st) (next_block st) (mem_left st) (ztcp_head st) (ztcp_tail st)
        (open_fds st) (fd_limit st) e (errflag st)
        (connect_script st) (close_script st) (resolver st)
        (reverse_resolver st) (trace st).

Definition set_errflag (e : Z) (st : state) : state :=
  State (heap st) (next_block st) (mem_left st) (ztcp_head st) (ztcp_tail st)
        (open_fds st) (fd_limit st) (errno st) e
        (connect_script st) (close_script st) (resolver st)
        (reverse_resolver st) (trace st).

Definition set_connect_script (l : list connect_outcome) (st : state) : state :=
  State (heap st) (next_block st) (mem_left st) (ztcp_head st) (ztcp_tail st)
        (open_fds st) (fd_limit st) (errno st) (errflag st)
        l (close_script st) (resolver st)
        (reverse_resolver st) (trace st).

Definition set_close_script (l : list Z) (st : state) : state :=
  State (heap st) (next_block st) (mem_left st) (ztcp_head st) (ztcp_tail st)
        (open_fds st) (fd_limit st) (errno st) (errflag st)
        (connect_script st) l (resolver st)
        (reverse_resolver st) (trace st).

Definition emit (e : event) (st : state) : state :=
  State (heap st) (next_block st) (mem_left st) (ztcp_head st) (ztcp_tail st)
        (open_fds st) (fd_limit st) (errno st) (errflag st)
        (connect_script st) (close_script st) (resolver st)
        (reverse_resolver st) (trace st ++ [e]).

(** ** The monad of the embedding: state, plus the ways a C run stops *)

(** [NullDeref]: a field of [NULL] was accessed.  [InvalidPointer a]: a
    field was accessed through [a], which designates no allocated record
    (freed, or never allocated).  [InvalidFree a]: [free] of such an [a].
    [OutOfBounds]: [memcpy] was asked to read more bytes than the source
    holds or to write more than the member it was pointed at holds; what
    lies behind the member depends on the layout of the record, which
    tcp.h declares.  [Hang]: a loop over the list went round more often
    than there are records, so it would never end. *)
Inductive fault :=
| NullDeref
| InvalidPointer (a : positive)
| InvalidFree (a : positive)
| OutOfBounds
| Hang.

Inductive result (A : Type) :=
| Ok (a : A) (st : state)
| Fault (f : fault).
Arguments Ok {A} a st.
Arguments Fault {A} f.

Definition M (A : Type) := state -> result A.

Definition ret {A} (a : A) : M A := fun st => Ok a st.

Definition bind {A B} (m : M A) (k : A -> M B) : M B :=
  fun st => match m st with
            | Ok a st' => k a st'
            | Fault f => Fault f
            end.

Definition stop {A} (f : fault) : M A := fun _ => Fault f.
Definition modify (f : state -> state) : M unit := fun st => Ok tt (f st).

Notation "'let*' x ':=' m 'in' k" := (bind m (fun x => k))
  (at level 10, x pattern, m at level 100, k at level 200).
Notation "m ';;;' k" := (bind m (fun _ => k))
  (at level 100, k at level 200, right associativity).

(** *** Memory *)

(** [*p] as an rvalue. *)
Definition load (p : Tcp_session) : M tcp_session :=
  fun st => match p with
            | None => Fault NullDeref
            | Some a => match heap st !! a with
                        | Some s => Ok s st
                        | None => Fault (InvalidPointer a)
                        end
            end.

(** [*p = s]. *)
Definition store (p : Tcp_session) (s : tcp_session) : M unit :=
  let* _ := load p in
  match p with
  | None => stop NullDeref
  | Some a => modify (fun st => set_heap (<[a := s]> (heap st)) st)
  end.

(** [zcalloc(sizeof(struct tcp_session))]: a zeroed record at an address
    never used before, or [NULL] when the allocator has nothing left (the
    callers test for it). *)
Definition zcalloc : M Tcp_session :=
  fun st => match mem_left st with
            | O => Ok NULL st
            | S m =>
              let a := next_block st in
              Ok (Some a)
                 (set_alloc (Pos.succ a) m
                    (set_heap (<[a := session_zero]> (heap st)) st))
            end.

(** [free(p)]; [free(NULL)] does nothing. *)
Definition free (p : Tcp_session) : M unit :=
  fun st => match p with
            | None => Ok tt st
            | Some a => match heap st !! a with
                        | Some _ =>
                          Ok tt (set_alloc (next_block st) (S (mem_left st))
                                   (set_heap (delete a (heap st)) st))
                        | None => Fault (InvalidFree a)
                        end
            end.

Definition get_fd (p : Tcp_session) : M Z := let* s := load p in ret (fd s).
Definition get_flags (p : Tcp_session) : M Z := let* s := load p in ret (flags s).
Definition get_next (p : Tcp_session) : M Tcp_session := let* s := load p in ret (next s).
Definition get_peer (p : Tcp_session) : M tcp_sockaddr := let* s := load p in ret (peer s).

Definition set_fd (p : Tcp_session) (v : Z) : M unit :=
  let* s := load p in store p (Session v (peer s) (flags s) (next s)).
Definition set_flags (p : Tcp_session) (v : Z) : M unit :=
  let* s := load p in store p (Session (fd s) (peer s) v (next s)).
Definition set_next (p : Tcp_session) (v : Tcp_session) : M unit :=
  let* s := load p in store p (Session (fd s) (peer s) (flags s) v).
Definition set_peer (p : Tcp_session) (v : tcp_sockaddr) : M unit :=
  let* s := load p in store p (Session (fd s) v (flags s) (next s)).

(** Bound on the iterations of a loop that walks the list: a walk over
    more nodes than there are records has entered a cycle, where the C loop
    would never leave. *)
Definition walk_fuel (st : state) : nat := S (size (heap st)).

(** ** The session registry *)

Definition zts_head : M Tcp_session := fun st => Ok (ztcp_head st) st.

Definition zts_next (cur : Tcp_session) : M Tcp_session :=
  match cur with
  | Some _ => get_next cur
  | None => ret NULL
  end.

Definition zts_alloc (ztflags : Z) : M Tcp_session :=
  let* sess := zcalloc in
  match sess with
  | None => ret NULL
  | Some _ =>
    set_fd sess (-1) ;;;
    set_next sess NULL ;;;
    set_flags sess ztflags ;;;
    let* h := zts_head in
    match h with
    | None =>
      modify (set_ztcp_tail sess) ;;;
      modify (set_ztcp_head sess)
    | Some _ =>
      let* t := (fun st => Ok (ztcp_tail st) st) in
      set_next t sess
    end ;;;
    ret sess
  end.

Definition ptr_eqb (p q : Tcp_session) : bool := bool_decide (p = q).

(** The [while] loop of [zts_delete]. *)
Fixpoint zts_delete_scan (fuel : nat) (tsess sess : Tcp_session) : M Tcp_session :=
  match fuel with
  | O => stop Hang
  | S fuel' =>
    let* n := get_next tsess in
    if negb (ptr_eqb n sess) && negb (ptr_eqb n NULL)
    then let* t := zts_next tsess in zts_delete_scan fuel' t sess
    else ret tsess
  end.

Definition zts_delete (sess : Tcp_session) : M Z :=
  let* tsess := zts_head in
  if ptr_eqb tsess sess then
    let* n := get_next sess in
    modify (set_ztcp_head n) ;;;
    free sess ;;;
    ret 0
  else
    let* fuel := (fun st => Ok (walk_fuel st) st) in
    let* tsess := zts_delete_scan fuel tsess sess in
    let* n := get_next tsess in
    if ptr_eqb n NULL then ret 1
    else
      let* nn := get_next n in
      set_next tsess nn ;;;
      let* n' := get_next tsess in
      free n' ;;;
      ret 0.

(** The [do ... while] loop of [zts_byfd]. *)
Fixpoint zts_byfd_loop (fuel : nat) (tsess : Tcp_session) (target : Z) : M Tcp_session :=
  match fuel with
  | O => stop Hang
  | S fuel' =>
    let* f := get_fd tsess in
    if Z.eqb f target then ret tsess
    else
      let* t := zts_next tsess in
      if negb (ptr_eqb t NULL) then zts_byfd_loop fuel' t target
      else ret NULL
  end.

Definition zts_byfd (target : Z) : M Tcp_session :=
  let* tsess := zts_head in
  let* fuel := (fun st => Ok (walk_fuel st) st) in
  zts_byfd_loop fuel tsess target.

(** ** The kernel and the shell, as far as the module uses them *)

Definition get_errno : M Z := fun st => Ok (errno st) st.
Definition get_errflag : M Z := fun st => Ok (errflag st) st.

Definition zwarn (fmt : string) (str : option string) (num : Z) : M unit :=
  modify (emit (EvWarn None fmt str num)).

Definition zwarnnam (nam : string) (fmt : string) (str : option string) (num : Z) : M unit :=
  modify (emit (EvWarn (Some nam) fmt str num)).

Definition fprintf_shout (fmt : string) (args : list parg) : M unit :=
  modify (emit (EvPrintf fmt args)).

(** The lowest descriptor not in use, below the limit of the process. *)
Definition lowest_free (o : gset Z) (limit : nat) : option Z :=
  List.find (fun n => negb (bool_decide (n ∈ o))) (map Z.of_nat (seq 0 limit)).

Definition sys_socket (domain type protocol : Z) : M Z :=
  fun st => match lowest_free (open_fds st) (fd_limit st) with
            | Some n => Ok n (emit (EvSocket n) (set_open_fds ({[n]} ∪ open_fds st) st))
            | None => Ok (-1) (emit (EvSocket (-1)) (set_errno EMFILE st))
            end.

Definition sys_setsockopt (sock : Z) : M unit :=
  fun st => if bool_decide (sock ∈ open_fds st)
            then Ok tt (emit (EvSetsockopt sock) st)
            else Ok tt (emit (EvSetsockopt sock) (set_errno EBADF st)).

(** [connect] on a descriptor that is not open fails with [EBADF]; on an
    open one the kernel gives its next scheduled answer, and refuses the
    connection once the schedule is used up. *)
Definition sys_connect (sock : Z) (sess : Tcp_session) (sa : tcp_sockaddr)
    (salen : Z) : M Z :=
  fun st =>
    if bool_decide (sock ∈ open_fds st) then
      match connect_script st with
      | [] => Ok (-1) (emit (EvConnect sock sess sa (-1)) (set_errno ECONNREFUSED st))
      | o :: rest =>
        let st1 := set_connect_script rest st in
        let st2 := if co_signal o then set_errflag 1 st1 else st1 in
        if co_errno o =? 0 then Ok 0 (emit (EvConnect sock sess sa 0) st2)
        else Ok (-1) (emit (EvConnect sock sess sa (-1)) (set_errno (co_errno o) st2))
      end
    else Ok (-1) (emit (EvConnect sock sess sa (-1)) (set_errno EBADF st)).

(** [close] releases an open descriptor whatever it returns, and fails
    with [EBADF] on a descriptor that is not open. *)
Definition sys_close (sock : Z) : M Z :=
  fun st =>
    if bool_decide (sock ∈ open_fds st) then
      let st1 := set_open_fds (open_fds st ∖ {[sock]}) st in
      match close_script st with
      | [] => Ok 0 (emit (EvClose sock 0) st1)
      | e :: rest =>
        let st2 := set_close_script rest st1 in
        if e =? 0 then Ok 0 (emit (EvClose sock 0) st2)
        else Ok (-1) (emit (EvClose sock (-1)) (set_errno e st2))
      end
    else Ok (-1) (emit (EvClose sock (-1)) (set_errno EBADF st)).

(** [zsh_getipnodebyname] and [gethostbyaddr] answer from the resolver of
    the environment. *)
Definition zsh_getipnodebyname (name : string) (af : Z) : M (option hostent) :=
  fun st => Ok (resolver st name) st.

Definition gethostbyaddr (a : list Z) (af : Z) : M (option hostent) :=
  fun st => Ok (reverse_resolver st a) st.

(** Byte order conversion of a 16-bit value on a little-endian host. *)
Definition htons (x : Z) : Z :=
  let x := x mod 65536 in (x mod 256) * 256 + x / 256.
Definition ntohs (x : Z) : Z := htons x.

(** The first [n] bytes of [dst] replaced by the first [n] bytes of
    [src]. *)
Definition copied (dst src : list Z) (n : Z) : list Z :=
  take (Z.to_nat n) src ++ drop (Z.to_nat n) dst.

(** [memcpy(&member, src, n)], for a member of [size] bytes that holds
    [dst], and [src] the bytes readable at the source pointer.  The count
    is a [size_t]: a negative [int] arrives as a huge number.  The result
    is the new content of the member; a copy that would read past the
    source or write past the member is [OutOfBounds]. *)
Definition memcpy (size : nat) (dst src : list Z) (n : Z) : M (list Z) :=
  if (0 <=? n) && (n <=? Z.of_nat size) && (n <=? Z.of_nat (length src))
  then ret (copied dst src n)
  else stop OutOfBounds.

(** [atoi], as the C library of Linux has it: [(int) strtol(s, NULL, 10)].
    Optional blanks, optional sign, decimal digits; [strtol] stops at the
    ends of the range of [long], and the conversion to [int] keeps the low
    32 bits.  Only the value is modelled. *)
Definition is_blank (c : ascii) : bool :=
  let n := N_of_ascii c in
  (N.eqb n 32 || (N.leb 9 n && N.leb n 13))%bool.

Definition digit_of (c : ascii) : option Z :=
  let n := Z.of_N (N_of_ascii c) in
  if (48 <=? n) && (n <=? 57) then Some (n - 48) else None.

Fixpoint atoi_digits (s : string) (acc : Z) : Z :=
  match s with
  | EmptyString => acc
  | String c s' =>
    match digit_of c with
    | Some d => atoi_digits s' (10 * acc + d)
    | None => acc
    end
  end.

Fixpoint decimal (s : string) : Z :=
  match s with
  | EmptyString => 0
  | String c s' =>
    if is_blank c then decimal s'
    else if Ascii.eqb c "-"%char then - atoi_digits s' 0
    else if Ascii.eqb c "+"%char then atoi_digits s' 0
    else atoi_digits s 0
  end.

Definition LONG_MAX : Z := 9223372036854775807.
Definition LONG_MIN : Z := -9223372036854775808.

Definition strtol (s : string) : Z := Z.max LONG_MIN (Z.min LONG_MAX (decimal s)).

(** A [long] converted to [int]. *)
Definition to_int (v : Z) : Z := (v + 2147483648) mod 4294967296 - 2147483648.

Definition atoi (s : string) : Z := to_int (strtol s).

(** ** Connection operations *)

Definition tcp_socket (domain type protocol ztflags : Z) : M Tcp_session :=
  let* sess := zts_alloc ztflags in
  match sess with
  | None => ret NULL
  | Some _ =>
    let* s := sys_socket domain type protocol in
    set_fd sess s ;;;
    ret sess
  end.

Definition tcp_close (sess : Tcp_session) : M Z :=
  let* f := get_fd sess in
  if negb (f =? -1) then
    let* err := sys_close f in
    if negb (err =? 0) then
      let* e := get_errno in
      zwarn "connection close failed: %e" None e ;;;
      ret (-1)
    else ret 0
  else ret (-1).

Definition upd_peer (sess : Tcp_session) (f : tcp_sockaddr -> tcp_sockaddr) : M unit :=
  let* p := get_peer sess in set_peer sess (f p).

Definition tcp_connect (cfg : config) (sess : Tcp_session) (addrp : list Z)
    (zhost : hostent) (d_port : Z) : M Z :=
  let* salen :=
    if SUPPORT_IPV6 cfg && (h_addrtype zhost =? AF_INET6) then
      let* p := get_peer sess in
      let* bytes := memcpy 16 (sin6_addr p) addrp (h_length zhost) in
      set_peer sess (Sockaddr (sa_family p) (sin_port p) (sin_addr p) bytes
                              (sin6_scope_id p)) ;;;
      upd_peer sess (fun p =>
        Sockaddr (sa_family p) (d_port mod 65536) (sin_addr p)
                 (sin6_addr p) (sin6_scope_id p)) ;;;
      upd_peer sess (fun p =>
        Sockaddr (sa_family p) (sin_port p) (zero_bytes 4)
                 (sin6_addr p) (sin6_scope_id p)) ;;;
      (if HAVE_STRUCT_SOCKADDR_IN6_SIN6_SCOPE_ID cfg then
         upd_peer sess (fun p =>
           Sockaddr (sa_family p) (sin_port p) (sin_addr p) (sin6_addr p) 0)
       else ret tt) ;;;
      ret 28
    else
      let* p := get_peer sess in
      let* bytes := memcpy 4 (sin_addr p) addrp (h_length zhost) in
      set_peer sess (Sockaddr (sa_family p) (sin_port p) bytes
                              (sin6_addr p) (sin6_scope_id p)) ;;;
      upd_peer sess (fun p =>
        Sockaddr (sa_family p) (d_port mod 65536) (sin_addr p)
                 (sin6_addr p) (sin6_scope_id p)) ;;;
      upd_peer sess (fun p =>
        Sockaddr (h_addrtype zhost) (sin_port p) (sin_addr p)
                 (sin6_addr p) (sin6_scope_id p)) ;;;
      ret 16 in
  let* f := get_fd sess in
  let* p := get_peer sess in
  sys_connect f sess p salen.

(** The [for] loop of [tcp_cleanup]; [prev] is [sess] of the iteration. *)
Fixpoint tcp_cleanup_loop (fuel : nat) (sess : Tcp_session) : M unit :=
  match sess with
  | None => ret tt
  | Some _ =>
    match fuel with
    | O => stop Hang
    | S fuel' =>
      let prev := sess in
      tcp_close sess ;;;
      zts_delete sess ;;;
      let* n := zts_next prev in
      tcp_cleanup_loop fuel' n
    end
  end.

Definition tcp_cleanup : M unit :=
  let* sess := zts_head in
  let* fuel := (fun st => Ok (walk_fuel st) st) in
  tcp_cleanup_loop fuel sess.

(** ** The builtin *)

(** The [do ... while] around [tcp_connect].  Every answer that makes the
    loop go round uses up one scheduled answer of the kernel. *)
Fixpoint ztcp_connect_retry (fuel : nat) (cfg : config) (sess : Tcp_session)
    (addr : list Z) (zthost : hostent) (port : Z) : M Z :=
  match fuel with
  | O => stop Hang
  | S fuel' =>
    let* err := tcp_connect cfg sess addr zthost port in
    let* e := get_errno in
    let* ef := get_errflag in
    if negb (err =? 0) && (e =? EINTR) && (ef =? 0)
    then ztcp_connect_retry fuel' cfg sess addr zthost port
    else ret err
  end.

(** The [for] loop over [h_addr_list]. *)
Fixpoint ztcp_connect_for (cfg : config) (nam : string) (sess : Tcp_session)
    (zthost : hostent) (destport : Z) (addrs : list (list Z)) (err : Z) : M Z :=
  match addrs with
  | [] => ret err
  | addr :: rest =>
    if err =? 0 then ret err
    else
      (if negb (h_length zthost =? 4)
       then zwarnnam nam "address length mismatch" None 0
       else ret tt) ;;;
      let* fuel := (fun st => Ok (S (length (connect_script st))) st) in
      let* err' := ztcp_connect_retry fuel cfg sess addr zthost (htons destport) in
      ztcp_connect_for cfg nam sess zthost destport rest err'
  end.

(** The listing loop. *)
Fixpoint ztcp_list_loop (fuel : nat) (cfg : config) (sess : Tcp_session) : M unit :=
  match sess with
  | None => ret tt
  | Some _ =>
    match fuel with
    | O => stop Hang
    | S fuel' =>
      let* f := get_fd sess in
      (if negb (f =? -1) then
         let* p := get_peer sess in
         let* zthost := gethostbyaddr (sin_addr p) AF_INET in
         let* fl := get_flags sess in
         let suffix := if negb (Z.land fl (ZTCP_ZFTP cfg) =? 0) then " ZFTP"%string else EmptyString in
         match zthost with
         | Some h =>
           fprintf_shout "%s:%d is on fd %d%s\n"
             [PS (h_name h); PD (ntohs (sin_port p)); PD f; PS suffix]
         | None =>
           fprintf_shout "%s:%d is on fd %d%s\n"
             [PS "UNKNOWN"%string; PD (sin_port p); PD f; PS suffix]
         end
       else ret tt) ;;;
      let* n := zts_next sess in
      ztcp_list_loop fuel' cfg n
    end
  end.

(** [ops] tells which option letters were given; [args] are the remaining
    arguments, the end of the list standing for the terminating [NULL]. *)
Definition bin_ztcp (cfg : config) (nam : string) (args : list string)
    (ops : ascii -> bool) : M Z :=
  let force := ops "f"%char in
  if ops "c"%char then
    match args with
    | [] => tcp_cleanup ;;; ret 0
    | a0 :: _ =>
      let targetfd := atoi a0 in
      let* sess := zts_byfd targetfd in
      match sess with
      | Some _ =>
        let* fl := get_flags sess in
        if negb (Z.land fl (ZTCP_ZFTP cfg) =? 0) && negb force then
          zwarnnam nam "use -f to force closure of a zftp control connection" None 0 ;;;
          ret 1
        else
          tcp_close sess ;;;
          zts_delete sess ;;;
          ret 0
      | None =>
        zwarnnam nam "fd not found in tcp table" None 0 ;;;
        ret 1
      end
    end
  else
    match args with
    | [] =>
      let* sess := zts_head in
      let* fuel := (fun st => Ok (walk_fuel st) st) in
      ztcp_list_loop fuel cfg sess ;;;
      ret 0
    | a0 :: rest =>
      let destport := match rest with [] => 23 | a1 :: _ => atoi a1 end in
      let desthost := a0 in
      let* zthost := zsh_getipnodebyname desthost AF_INET in
      let* ef := get_errflag in
      match zthost with
      | Some zthost =>
        if negb (ef =? 0) then
          zwarnnam nam "host resolution failure: %s" (Some desthost) 0 ;;;
          ret 1
        else
          let* sess := tcp_socket PF_INET SOCK_STREAM 0 0 in
          (if SO_OOBINLINE cfg then
             let* f := get_fd sess in sys_setsockopt f
           else ret tt) ;;;
          match sess with
          | None =>
            zwarnnam nam "unable to allocate a TCP session slot" None 0 ;;;
            ret 1
          | Some _ =>
            let* f := get_fd sess in
            if f <? 0 then
              let* e := get_errno in
              zwarnnam nam "socket creation failed: %e" None e ;;;
              zts_delete sess ;;;
              ret 1
            else
              let* err := ztcp_connect_for cfg nam sess zthost destport
                            (h_addr_list zthost) 1 in
              (if negb (err =? 0) then
                 let* e := get_errno in
                 zwarnnam nam "connection failed: %e" None e
               else
                 let* f := get_fd sess in
                 fprintf_shout "%s:%d is now on fd %d\n"
                   [PS desthost; PD destport; PD f]) ;;;
              ret 0
          end
      | None =>
        zwarnnam nam "host resolution failure: %s" (Some desthost) 0 ;;;
        ret 1
      end
    end.

(** The unload hook of the module. *)
Definition cleanup_ : M Z := tcp_cleanup ;;; ret 0.

(** The option letters given on a command line. *)
Definition opts (s : string) : ascii -> bool :=
  fun c => existsb (Ascii.eqb c) (list_ascii_of_string s).

(** The state at module load: no record, both globals [NULL], the three
    standard descriptors open. *)
Definition initial_state : state :=
  State ∅ 1%positive 8 NULL NULL ({[0; 1; 2]} : gset Z) 16 0 0 [] []
        (fun _ => None) (fun _ => None) [].

(** ** Shape of the registry *)

(** [lseg h p l q]: following [next] from [p] through allocated records
    one meets exactly the addresses of [l], and then the pointer [q]. *)
Fixpoint lseg (h : gmap positive tcp_session) (p : Tcp_session)
    (l : list positive) (q : Tcp_session) : Prop :=
  match l with
  | [] => p = q
  | a :: l' => p = Some a /\ exists s, h !! a = Some s /\ lseg h (next s) l' q
  end.

(** The registry holds the sessions [l], in this order. *)
Definition registry (st : state) (l : list positive) : Prop :=
  lseg (heap st) (ztcp_head st) l NULL.

(** A walk from [p] along [next] comes to the pointer [b]. *)
Inductive visits (h : gmap positive tcp_session) : Tcp_session -> positive -> Prop :=
| visits_here b : visits h (Some b) b
| visits_next a s b : h !! a = Some s -> visits h (next s) b -> visits h (Some a) b.

(** The first session of [l] whose descriptor is [target]. *)
Fixpoint first_with_fd (h : gmap positive tcp_session) (target : Z)
    (l : list positive) : Tcp_session :=
  match l with
  | [] => NULL
  | a :: l' =>
    match h !! a with
    | Some s => if fd s =? target then Some a else first_with_fd h target l'
    | None => NULL
    end
  end.

(** Forward traversal with [zts_head] and [zts_next], as the listing loop
    of the builtin does it, collecting the sessions it meets. *)
Fixpoint traverse_loop (fuel : nat) (sess : Tcp_session) : M (list positive) :=
  match sess with
  | None => ret []
  | Some a =>
    match fuel with
    | O => stop Hang
    | S fuel' =>
      let* n := zts_next sess in
      let* l := traverse_loop fuel' n in
      ret (a :: l)
    end
  end.

Definition traverse : M (list positive) :=
  let* sess := zts_head in
  let* fuel := (fun st => Ok (walk_fuel st) st) in
  traverse_loop fuel sess.

(** What the record after the deleted one undergoes: the [free] of
    [zts_delete] in the case where the target is not the head. *)
Definition free_successor (n : Tcp_session) (st : state) : state :=
  match n with
  | None => st
  | Some b => set_alloc (next_block st) (S (mem_left st))
                (set_heap (delete b (heap st)) st)
  end.

(** A sequence of registry operations, and the sessions that are live
    after it: those [zts_alloc] handed out and [zts_delete] has not
    reported as deleted, in the order of their allocation. *)
Inductive reg_op :=
| Allocate (ztflags : Z)
| Delete (sess : Tcp_session).

Fixpoint run_ops (ops : list reg_op) (live : list positive) : M (list positive) :=
  match ops with
  | [] => ret live
  | Allocate ztflags :: rest =>
    let* sess := zts_alloc ztflags in
    run_ops rest (match sess with Some a => live ++ [a] | None => live end)
  | Delete sess :: rest =>
    let* r := zts_delete sess in
    run_ops rest (if r =? 0
                  then List.filter (fun a => negb (ptr_eqb (Some a) sess)) live
                  else live)
  end.

(** ** Calls from outside, and what they preserve *)

(** The entry points of the module: the exported connection operations,
    the builtin, and the unload hook. *)
Inductive call :=
| Call_tcp_socket (domain type protocol ztflags : Z)
| Call_tcp_connect (sess : Tcp_session) (addrp : list Z) (zhost : hostent) (d_port : Z)
| Call_tcp_close (sess : Tcp_session)
| Call_bin_ztcp (nam : string) (args : list string) (ops : ascii -> bool)
| Call_cleanup_.

Definition do_call (cfg : config) (c : call) : M unit :=
  match c with
  | Call_tcp_socket domain type protocol ztflags =>
    tcp_socket domain type protocol ztflags ;;; ret tt
  | Call_tcp_connect sess addrp zhost d_port =>
    tcp_connect cfg sess addrp zhost d_port ;;; ret tt
  | Call_tcp_close sess => tcp_close sess ;;; ret tt
  | Call_bin_ztcp nam args ops => bin_ztcp cfg nam args ops ;;; ret tt
  | Call_cleanup_ => cleanup_ ;;; ret tt
  end.

Fixpoint do_calls (cfg : config) (cs : list call) : M unit :=
  match cs with
  | [] => ret tt
  | c :: cs' => do_call cfg c ;;; do_calls cfg cs'
  end.

(** Every peer address that is not all zero is the address some [connect]
    was issued with, through the pointer to that very session and on its
    descriptor. *)
Definition peers_explained (st : state) : Prop :=
  forall a s, heap st !! a = Some s -> peer s <> sockaddr_zero ->
    exists r, In (EvConnect (fd s) (Some a) (peer s) r) (trace st).

(** The record [p] points to, if any, has an all-zero peer address. *)
Definition zero_peer_at (p : Tcp_session) (st : state) : Prop :=
  forall a s, p = Some a -> heap st !! a = Some s -> peer s = sockaddr_zero.

(** A step that creates no record, leaves descriptor and peer address of
    every record alone, and forgets no event. *)
Definition quiet_step (st st' : state) : Prop :=
  (forall b s', heap st' !! b = Some s' ->
     exists s0, heap st !! b = Some s0 /\ fd s0 = fd s' /\ peer s0 = peer s') /\
  (forall e, In e (trace st) -> In e (trace st')).

Definition quiet {A} (m : M A) : Prop :=
  forall st a st', m st = Ok a st' -> quiet_step st st'.

Definition hoare {A} (P : state -> Prop) (m : M A) (Q : A -> state -> Prop) : Prop :=
  forall st a st', P st -> m st = Ok a st' -> Q a st'.

(** The size of the member [tcp_connect] copies the candidate into, and
    the condition for that copy to stay within bounds. *)
Definition member_size (cfg : config) (zhost : hostent) : Z :=
  if SUPPORT_IPV6 cfg && (h_addrtype zhost =? AF_INET6) then 16 else 4.

Definition copy_fits (cfg : config) (zhost : hostent) (addrp : list Z) : Prop :=
  0 <= h_length zhost <= member_size cfg zhost /\
  h_length zhost <= Z.of_nat (length addrp).

(** The peer address [tcp_connect] has stored when it calls [connect],
    after a copy that stayed within bounds. *)
Definition peer_after_connect (cfg : config) (addrp : list Z) (zhost : hostent)
    (d_port : Z) (p : tcp_sockaddr) : tcp_sockaddr :=
  if SUPPORT_IPV6 cfg && (h_addrtype zhost =? AF_INET6) then
    Sockaddr (sa_family p) (d_port mod 65536) (zero_bytes 4)
             (copied (sin6_addr p) addrp (h_length zhost))
             (if HAVE_STRUCT_SOCKADDR_IN6_SIN6_SCOPE_ID cfg then 0 else sin6_scope_id p)
  else
    Sockaddr (h_addrtype zhost) (d_port mod 65536)
             (copied (sin_addr p) addrp (h_length zhost))
             (sin6_addr p) (sin6_scope_id p).

Definition salen_of (cfg : config) (zhost : hostent) : Z :=
  if SUPPORT_IPV6 cfg && (h_addrtype zhost =? AF_INET6) then 28 else 16.

(** ** The connection protocol, in the words of the specification *)

(** One call of [connect]: the candidate address it was made for and the
    errno it failed with, [0] for success. *)
Record attempt := Attempt {
  at_addr : list Z;
  at_errno : Z
}.

(** One candidate: [connect] is attempted, and attempted again on the
    same candidate while the failure is an interrupted call and no signal
    handler has raised the error flag of the shell.  The result is the
    attempts made, what is left of the kernel's schedule, and whether the
    error flag is raised. *)
Fixpoint try_candidate (addr : list Z) (script : list connect_outcome)
    (signalled : bool) : list attempt * list connect_outcome * bool :=
  match script with
  | [] => ([Attempt addr ECONNREFUSED], [], signalled)
  | o :: rest =>
    let signalled' := signalled || co_signal o in
    if negb (co_errno o =? 0) && (co_errno o =? EINTR) && negb signalled'
    then
      let '(l, rest', sg) := try_candidate addr rest signalled' in
      (Attempt addr (co_errno o) :: l, rest', sg)
    else ([Attempt addr (co_errno o)], rest, signalled')
  end.

Definition succeeded (l : list attempt) : bool :=
  match last l with
  | Some att => at_errno att =? 0
  | None => false
  end.

(** The candidates in list order: any failure that ends the attempts on
    one candidate moves on to the next, the first success stops. *)
Fixpoint connect_protocol (candidates : list (list Z))
    (script : list connect_outcome) (signalled : bool) : list attempt :=
  match candidates with
  | [] => []
  | addr :: rest =>
    let '(l, script', sg) := try_candidate addr script signalled in
    if succeeded l then l else l ++ connect_protocol rest script' sg
  end.

(** The same with the retry rule as the specification words it: the
    candidate is retried while the failure is an interrupted call,
    whatever the error flag. *)
Fixpoint try_candidate_claimed (addr : list Z) (script : list connect_outcome)
    : list attempt * list connect_outcome :=
  match script with
  | [] => ([Attempt addr ECONNREFUSED], [])
  | o :: rest =>
    if negb (co_errno o =? 0) && (co_errno o =? EINTR)
    then
      let '(l, rest') := try_candidate_claimed addr rest in
      (Attempt addr (co_errno o) :: l, rest')
    else ([Attempt addr (co_errno o)], rest)
  end.

Fixpoint connect_protocol_claimed (candidates : list (list Z))
    (script : list connect_outcome) : list attempt :=
  match candidates with
  | [] => []
  | addr :: rest =>
    let '(l, script') := try_candidate_claimed addr script in
    if succeeded l then l else l ++ connect_protocol_claimed rest script'
  end.

(** The [connect] calls in a trace. *)
Definition is_connect (e : event) : bool :=
  match e with EvConnect _ _ _ _ => true | _ => false end.

Definition connects (t : list event) : list event := List.filter is_connect t.

(** The [connect] calls a list of attempts amounts to, on descriptor
    [sock], for the session [sess] whose peer address was [p]: every
    attempt stores its address over what the previous one left. *)
Fixpoint attempt_events (cfg : config) (zthost : hostent) (port : Z) (sock : Z)
    (sess : Tcp_session) (p : tcp_sockaddr) (l : list attempt) : list event :=
  match l with
  | [] => []
  | att :: l' =>
    let p' := peer_after_connect cfg (at_addr att) zthost port p in
    EvConnect sock sess p' (if at_errno att =? 0 then 0 else -1)
      :: attempt_events cfg zthost port sock sess p' l'
  end.

Definition peer_after_attempts (cfg : config) (zthost : hostent) (port : Z)
    (p : tcp_sockaddr) (l : list attempt) : tcp_sockaddr :=
  fold_left (fun q att => peer_after_connect cfg (at_addr att) zthost port q) l p.

(** The candidate addresses of the [connect] calls of a trace, read back
    from the IPv4 address each call was issued with. *)
Definition connect_targets (t : list event) : list (list Z) :=
  omap (fun e => match e with EvConnect _ _ sa _ => Some (sin_addr sa) | _ => None end) t.

Definition final_state {A} (r : result A) (d : state) : state :=
  match r with Ok _ st => st | Fault _ => d end.

(** A configuration and a resolver for the examples. *)
Definition example_config : config := Config false true true 1.

Definition example_host : hostent :=
  Hostent "localhost" AF_INET 4 [[127; 0; 0; 1]; [10; 0; 0; 1]].

Definition example_state (script : list connect_outcome) : state :=
  State ∅ 1%positive 8 NULL NULL ({[0; 1; 2]} : gset Z) 16 0 0 script []
        (fun _ => Some example_host) (fun _ => None) [].

(** One session with an open socket. *)
Definition one_session : state :=
  final_state (tcp_socket PF_INET SOCK_STREAM 0 0 initial_state) initial_state.

(** One session that carries the flag of the zftp module. *)
Definition zftp_session : state :=
  final_state (tcp_socket PF_INET SOCK_STREAM 0 (ZTCP_ZFTP example_config) initial_state)
              initial_state.

(** Two sessions, the second of which carries the flag of the zftp
    module. *)
Definition zftp_second : state :=
  final_state
    ((tcp_socket PF_INET SOCK_STREAM 0 0 ;;;
      tcp_socket PF_INET SOCK_STREAM 0 (ZTCP_ZFTP example_config)) initial_state)
    initial_state.

(** A session as [zts_alloc] leaves it, without a socket. *)
Definition no_socket : state :=
  final_state (zts_alloc 0 initial_state) initial_state.

(** Two sessions that were given the same descriptor. *)
Definition duplicate_fd : state :=
  final_state
    ((let* a := tcp_socket PF_INET SOCK_STREAM 0 0 in
      let* b := tcp_socket PF_INET SOCK_STREAM 0 0 in
      set_fd b 3) initial_state)
    initial_state.

(** A resolver that knows the example host, and an allocator with nothing
    left. *)
Definition out_of_memory : state := set_alloc 1%positive 0 (example_state []).

(** The state of [example_state] once the builtin has its socket. *)
Definition example_socket (script : list connect_outcome) : state :=
  final_state (tcp_socket PF_INET SOCK_STREAM 0 0 (example_state script))
              (example_state script).

(** A schedule of the kernel: the first call is interrupted, the second
    refused, the third succeeds. *)
Definition retry_script : list connect_outcome :=
  [Outcome EINTR false; Outcome ECONNREFUSED false; Outcome 0 false].

(** ** States for the further examples *)

(** Two sessions, as two calls of [tcp_socket] leave them. *)
Definition two_sessions : state :=
  final_state
    ((tcp_socket PF_INET SOCK_STREAM 0 0 ;;; tcp_socket PF_INET SOCK_STREAM 0 0)
       initial_state)
    initial_state.

(** Three sessions in a row; the code cannot build this list itself, it is
    written down record by record. *)
Definition three_sessions : state :=
  State (<[1%positive := Session 3 sockaddr_zero 0 (Some 2%positive)]>
          (<[2%positive := Session 4 sockaddr_zero 0 (Some 3%positive)]>
            (<[3%positive := Session 5 sockaddr_zero 0 NULL]> ∅)))
        4%positive 5 (Some 1%positive) (Some 1%positive)
        ({[0; 1; 2; 3; 4; 5]} : gset Z) 16 0 0 [] []
        (fun _ => None) (fun _ => None) [].

(** Two sessions of which the first was deleted: [ztcp_tail] still holds
    its address. *)
Definition stale_tail : state :=
  final_state
    ((tcp_socket PF_INET SOCK_STREAM 0 0 ;;; tcp_socket PF_INET SOCK_STREAM 0 0 ;;;
      zts_delete (Some 1%positive)) initial_state)
    initial_state.

(** ** The shape the registry keeps *)

(** The registry holds no session, or one, or two.  With two sessions
    [ztcp_tail] designates the first; with one it designates that session
    or a record that was freed.  No address in use, and no address in
    [ztcp_tail], is one the allocator has yet to hand out. *)
Definition small_registry (st : state) : Prop :=
  (forall a, is_Some (heap st !! a) -> (a < next_block st)%positive) /\
  (forall t, ztcp_tail st = Some t -> (t < next_block st)%positive) /\
  (registry st [] \/
   (exists a, registry st [a] /\
      (ztcp_tail st = Some a \/ exists t, ztcp_tail st = Some t /\ heap st !! t = None)) \/
   (exists a b, registry st [a; b] /\ ztcp_tail st = Some a)).

(** A step that allocates and frees nothing and leaves every link, both
    list globals and the allocator alone. *)
Definition same_links (st st' : state) : Prop :=
  next_block st' = next_block st /\
  ztcp_head st' = ztcp_head st /\ ztcp_tail st' = ztcp_tail st /\
  forall a, next <$> (heap st' !! a) = next <$> (heap st !! a).

Definition still {A} (m : M A) : Prop :=
  forall st a st', m st = Ok a st' -> same_links st st'.


(** ** The listing *)

(** What [ztcp] without arguments prints for one session: nothing for a
    session without descriptor, else one line. *)
Definition list_line (cfg : config) (st : state) (s : tcp_session) : list event :=
  if fd s =? -1 then []
  else
    let suffix := if negb (Z.land (flags s) (ZTCP_ZFTP cfg) =? 0)
                  then " ZFTP"%string else EmptyString in
    match reverse_resolver st (sin_addr (peer s)) with
    | Some h =>
      [EvPrintf "%s:%d is on fd %d%s\n"
         [PS (h_name h); PD (ntohs (sin_port (peer s))); PD (fd s); PS suffix]]
    | None =>
      [EvPrintf "%s:%d is on fd %d%s\n"
         [PS "UNKNOWN"%string; PD (sin_port (peer s)); PD (fd s); PS suffix]]
    end.

Definition listing (cfg : config) (st : state) (l : list positive) : list event :=
  flat_map (fun a => match heap st !! a with
                     | Some s => list_line cfg st s
                     | None => []
                     end) l.

Definition emit_all (es : list event) (st : state) : state :=
  State (heap st) (next_block st) (mem_left st) (ztcp_head st) (ztcp_tail st)
        (open_fds st) (fd_limit st) (errno st) (errflag st)
        (connect_script st) (close_script st) (resolver st)
        (reverse_resolver st) (trace st ++ es).

(** ** The replacements for the RFC 2553 interfaces *)

(** Where the C library lacks [inet_ntop], [inet_pton], [gethostbyname2]
    or [getipnodebyname], the file supplies its own on top of the older
    interfaces.  They are modelled over a state of their own: [errno],
    [h_errno], the three objects [zsh_getipnodebyname] keeps in static
    storage, and the names that were handed to [gethostbyname]. *)
Module Shims.

Definition INET_ADDRSTRLEN : Z := 16.
Definition INET6_ADDRSTRLEN : Z := 46.
Definition INADDR_NONE : Z := 4294967295.
Definition EAFNOSUPPORT : Z := 97.
Definition ENOSPC : Z := 28.
Definition NO_RECOVERY : Z := 3.

(** The functions of the C library the replacements are built on.
    [inet_addr] returns an [in_addr_t], a 32-bit value; [gethostbyname]
    returns an entry, or fails with a value for [h_errno]. *)
Record libc := Libc {
  inet_addr : string -> Z;
  inet_ntoa : Z -> string;
  gethostbyname : string -> hostent + Z
}.

(** A 32-bit object and its four bytes in memory, on a little-endian
    host. *)
Definition word_bytes (v : Z) : list Z :=
  [v mod 256; (v / 256) mod 256; (v / 65536) mod 256; (v / 16777216) mod 256].

Definition bytes_word (bs : list Z) : Z :=
  nth 0 bs 0 + 256 * nth 1 bs 0 + 65536 * nth 2 bs 0 + 16777216 * nth 3 bs 0.

(** What the pointer members of the static [ahe] can designate. *)
Inductive static_ptr :=
| SNull
| SPbuf
| SAddrlist (off : nat).

Record static_hostent := Ahe {
  ahe_name : static_ptr;
  ahe_aliases : static_ptr;
  ahe_addrtype : Z;
  ahe_length : Z;
  ahe_addr_list : static_ptr
}.

Record shim_state := ShimState {
  sh_errno : Z;
  sh_h_errno : Z;
  nbuf : list Z;
  pbuf : string;
  ahe : static_hostent;
  lookups : list string
}.

(** Static storage starts zeroed. *)
Definition shim_initial : shim_state :=
  ShimState 0 0 (zero_bytes 16) EmptyString (Ahe SNull SNull 0 0 SNull) [].

Definition set_sh_errno (e : Z) (st : shim_state) : shim_state :=
  ShimState e (sh_h_errno st) (nbuf st) (pbuf st) (ahe st) (lookups st).
Definition set_sh_h_errno (e : Z) (st : shim_state) : shim_state :=
  ShimState (sh_errno st) e (nbuf st) (pbuf st) (ahe st) (lookups st).
Definition set_nbuf (b : list Z) (st : shim_state) : shim_state :=
  ShimState (sh_errno st) (sh_h_errno st) b (pbuf st) (ahe st) (lookups st).
Definition set_pbuf (s : string) (st : shim_state) : shim_state :=
  ShimState (sh_errno st) (sh_h_errno st) (nbuf st) s (ahe st) (lookups st).
Definition set_ahe (a : static_hostent) (st : shim_state) : shim_state :=
  ShimState (sh_errno st) (sh_h_errno st) (nbuf st) (pbuf st) a (lookups st).
Definition log_lookup (name : string) (st : shim_state) : shim_state :=
  ShimState (sh_errno st) (sh_h_errno st) (nbuf st) (pbuf st) (ahe st)
            (lookups st ++ [name]).

(** A [struct hostent *] as the replacements return it: [NULL], the
    address of the static [ahe], or an entry of the C library. *)
Inductive hostent_ptr :=
| HeNull
| HeStatic
| HeLibc (h : hostent).

(** [zsh_inet_ntop]: the result is the new content of [buf], or [NULL]. *)
Definition zsh_inet_ntop (L : libc) (af : Z) (cp : list Z) (len : Z)
    (st : shim_state) : option string * shim_state :=
  if negb (af =? AF_INET) then (None, set_sh_errno EAFNOSUPPORT st)
  else if len <? INET_ADDRSTRLEN then (None, set_sh_errno ENOSPC st)
  else (Some (inet_ntoa L (bytes_word cp)), st).

(** [zsh_inet_aton]: the result and the new content of [dst], the object
    whose first four bytes are the [s_addr] assigned to. *)
Definition zsh_inet_aton (L : libc) (src : string) (dst : list Z) : Z * list Z :=
  let v := inet_addr L src mod 4294967296 in
  (if v =? INADDR_NONE then 0 else 1, word_bytes v ++ drop 4 dst).

Definition zsh_inet_pton (L : libc) (af : Z) (src : string) (dst : list Z)
    (st : shim_state) : Z * list Z * shim_state :=
  if negb (af =? AF_INET) then (-1, dst, set_sh_errno EAFNOSUPPORT st)
  else
    let '(r, dst') := zsh_inet_aton L src dst in
    (if r =? 0 then 0 else 1, dst', st).

Definition zsh_gethostbyname2 (L : libc) (name : string) (af : Z)
    (st : shim_state) : hostent_ptr * shim_state :=
  if negb (af =? AF_INET) then (HeNull, set_sh_h_errno NO_RECOVERY st)
  else
    match gethostbyname L name with
    | inl h => (HeLibc h, log_lookup name st)
    | inr e => (HeNull, set_sh_h_errno e (log_lookup name st))
    end.

(** [zsh_getipnodebyname]: [errorp] is the object the last argument
    designates; its new content is returned beside the pointer. *)
Definition zsh_getipnodebyname (cfg : config) (L : libc) (name : string)
    (af flags : Z) (errorp : Z) (st : shim_state)
    : hostent_ptr * Z * shim_state :=
  let '(r, nb, st1) := zsh_inet_pton L af name (nbuf st) st in
  let st1 := set_nbuf nb st1 in
  if r =? 1 then
    let '(res, st2) :=
      zsh_inet_ntop L af (nbuf st1)
        (if SUPPORT_IPV6 cfg then INET6_ADDRSTRLEN else INET_ADDRSTRLEN) st1 in
    let st3 := match res with Some s => set_pbuf s st2 | None => st2 end in
    (HeStatic, errorp,
     set_ahe (Ahe SPbuf (SAddrlist 1) af (if af =? AF_INET then 4 else 16)
                  (SAddrlist 0)) st3)
  else
    let '(he, st2) := zsh_gethostbyname2 L name af st1 in
    match he with
    | HeNull => (he, sh_h_errno st2, st2)
    | _ => (he, errorp, st2)
    end.

(** [freehostent] has an empty body. *)
Definition freehostent (ptr : hostent_ptr) (st : shim_state) : shim_state := st.

(** The entry a pointer designates in a state.  The static entry is read
    through its members: the name is what [pbuf] holds and the address
    list what [addrlist] holds from the offset on, that is [nbuf] and
    nothing else. *)
Definition read_hostent (st : shim_state) (p : hostent_ptr) : option hostent :=
  match p with
  | HeNull => None
  | HeLibc h => Some h
  | HeStatic =>
    match ahe_name (ahe st), ahe_addr_list (ahe st) with
    | SPbuf, SAddrlist off =>
      Some (Hostent (pbuf st) (ahe_addrtype (ahe st)) (ahe_length (ahe st))
                    (drop off [nbuf st]))
    | _, _ => None
    end
  end.

(** A C library for the examples: it parses two numeric names and knows
    one host. *)
Definition example_libc : libc :=
  Libc (fun s => if String.eqb s "10.0.0.1" then 16777226
                 else if String.eqb s "127.0.0.1" then 16777343
                 else INADDR_NONE)
       (fun v => if v =? 16777226 then "10.0.0.1"%string
                 else if v =? 16777343 then "127.0.0.1"%string
                 else "255.255.255.255"%string)
       (fun s => if String.eqb s "localhost" then inl example_host else inr 1).

End Shims.

(** A process that may hold [limit] descriptors, with the resolver of the
    examples. *)
Definition few_descriptors (limit : nat) : state :=
  State ∅ 1%positive 8 NULL NULL ({[0; 1; 2]} : gset Z) limit 0 0 [] []
        (fun _ => Some example_host) (fun _ => None) [].

(** One session that holds the last descriptor the process could get. *)
Definition last_descriptor_taken : state :=
  final_state (tcp_socket PF_INET SOCK_STREAM 0 0 (few_descriptors 4))
              (few_descriptors 4).

(** One session connected by the builtin to port 80 of the example host. *)
Definition connected : state :=
  final_state
    (bin_ztcp example_config "ztcp" ["localhost"%string; "80"%string]
       (opts EmptyString) (example_state [Outcome 0 false]))
    initial_state.

(** Two allocations and the deletion of the first, on the registry
    functions alone. *)
Definition first_deleted : state :=
  final_state
    (run_ops [Allocate 0; Allocate 0; Delete (Some 1%positive)] [] initial_state)
    initial_state.

(** ** Reasoning about runs *)

Lemma bind_ok {A B} (m : M A) (k : A -> M B) st a st1 :
  m st = Ok a st1 -> bind m k st = k a st1.
Proof. intros H. unfold bind. now rewrite H. Qed.

Lemma bind_inv {A B} (m : M A) (k : A -> M B) st b st' :
  bind m k st = Ok b st' -> exists a st1, m st = Ok a st1 /\ k a st1 = Ok b st'.
Proof.
  unfold bind. destruct (m st) as [a st1|f]; [|discriminate].
  intros H. now exists a, st1.
Qed.

Lemma bind_bind {A B C} (m : M A) (f : A -> M B) (g : B -> M C) st :
  bind (bind m f) g st = bind m (fun x => bind (f x) g) st.
Proof. unfold bind. destruct (m st); reflexivity. Qed.

Lemma load_ok st a s : heap st !! a = Some s -> load (Some a) st = Ok s st.
Proof. intros H. unfold load. now rewrite H. Qed.

Lemma get_fd_ok st a s : heap st !! a = Some s -> get_fd (Some a) st = Ok (fd s) st.
Proof. intros H. unfold get_fd. now rewrite (bind_ok _ _ _ _ _ (load_ok _ _ _ H)). Qed.

Lemma get_next_ok st a s : heap st !! a = Some s -> get_next (Some a) st = Ok (next s) st.
Proof. intros H. unfold get_next. now rewrite (bind_ok _ _ _ _ _ (load_ok _ _ _ H)). Qed.

Lemma get_flags_ok st a s : heap st !! a = Some s -> get_flags (Some a) st = Ok (flags s) st.
Proof. intros H. unfold get_flags. now rewrite (bind_ok _ _ _ _ _ (load_ok _ _ _ H)). Qed.

Lemma get_peer_ok st a s : heap st !! a = Some s -> get_peer (Some a) st = Ok (peer s) st.
Proof. intros H. unfold get_peer. now rewrite (bind_ok _ _ _ _ _ (load_ok _ _ _ H)). Qed.

Lemma store_ok st a s s' :
  heap st !! a = Some s ->
  store (Some a) s' st = Ok tt (set_heap (<[a := s']> (heap st)) st).
Proof. intros H. unfold store. now rewrite (bind_ok _ _ _ _ _ (load_ok _ _ _ H)). Qed.

Lemma set_fd_ok st a s v :
  heap st !! a = Some s ->
  set_fd (Some a) v st =
  Ok tt (set_heap (<[a := Session v (peer s) (flags s) (next s)]> (heap st)) st).
Proof.
  intros H. unfold set_fd. rewrite (bind_ok _ _ _ _ _ (load_ok _ _ _ H)).
  now apply (store_ok _ _ s).
Qed.

Lemma set_flags_ok st a s v :
  heap st !! a = Some s ->
  set_flags (Some a) v st =
  Ok tt (set_heap (<[a := Session (fd s) (peer s) v (next s)]> (heap st)) st).
Proof.
  intros H. unfold set_flags. rewrite (bind_ok _ _ _ _ _ (load_ok _ _ _ H)).
  now apply (store_ok _ _ s).
Qed.

Lemma set_next_ok st a s v :
  heap st !! a = Some s ->
  set_next (Some a) v st =
  Ok tt (set_heap (<[a := Session (fd s) (peer s) (flags s) v]> (heap st)) st).
Proof.
  intros H. unfold set_next. rewrite (bind_ok _ _ _ _ _ (load_ok _ _ _ H)).
  now apply (store_ok _ _ s).
Qed.

Lemma upd_peer_ok st a s f :
  heap st !! a = Some s ->
  upd_peer (Some a) f st =
  Ok tt (set_heap (<[a := Session (fd s) (f (peer s)) (flags s) (next s)]> (heap st)) st).
Proof.
  intros H. unfold upd_peer. rewrite (bind_ok _ _ _ _ _ (get_peer_ok _ _ _ H)).
  unfold set_peer. rewrite (bind_ok _ _ _ _ _ (load_ok _ _ _ H)).
  now apply (store_ok _ _ s).
Qed.

(** *** Lists in the store *)

Lemma lseg_app h l1 l2 p q :
  lseg h p (l1 ++ l2) q <-> exists r, lseg h p l1 r /\ lseg h r l2 q.
Proof.
  revert p. induction l1 as [|a l1 IH]; intros p; simpl.
  - split.
    + intros H. now exists p.
    + intros (r & -> & H). exact H.
  - split.
    + intros (-> & s & Hs & H). apply IH in H as (r & H1 & H2).
      exists r. split; [|exact H2]. split; [reflexivity|]. now exists s.
    + intros (r & (-> & s & Hs & H1) & H2). split; [reflexivity|].
      exists s. split; [exact Hs|]. apply IH. now exists r.
Qed.

Lemma lseg_functional h l l' p :
  lseg h p l NULL -> lseg h p l' NULL -> l = l'.
Proof.
  revert l' p. induction l as [|a l IH]; intros [|b l'] p; simpl.
  - reflexivity.
  - intros -> (E & _). discriminate.
  - intros (-> & _) E. discriminate.
  - intros (-> & s & Hs & H) (E & s' & Hs' & H').
    injection E as <-. rewrite Hs in Hs'. injection Hs' as <-.
    f_equal. eapply IH; eassumption.
Qed.

Lemma lseg_allocated h l p q a :
  lseg h p l q -> In a l -> exists s, h !! a = Some s.
Proof.
  revert p. induction l as [|b l IH]; intros p; simpl; [tauto|].
  intros (-> & s & Hs & H) [<-|Hin]; [now exists s|]. eapply IH; eassumption.
Qed.

(** A list that ends, in a store where every record has one successor,
    cannot come back to a record it went through. *)
Lemma lseg_NoDup h l p : lseg h p l NULL -> List.NoDup l.
Proof.
  revert p. induction l as [|a l IH]; intros p; simpl.
  - intros _. constructor.
  - intros (-> & s & Hs & H). constructor; [|eapply IH; eassumption].
    intros Hin. apply in_split in Hin as (l1 & l2 & ->).
    pose proof H as H0.
    apply lseg_app in H as (r & _ & H2). simpl in H2.
    destruct H2 as (-> & s' & Hs' & H2).
    rewrite Hs in Hs'. injection Hs' as <-.
    pose proof (lseg_functional _ _ _ _ H0 H2) as E.
    apply (f_equal (@List.length positive)) in E.
    rewrite length_app in E. simpl in E. lia.
Qed.

Lemma lseg_length h l p : lseg h p l NULL -> (length l <= size h)%nat.
Proof.
  intros H.
  assert (Hnd : base.NoDup l).
  { apply NoDup_ListNoDup. eapply lseg_NoDup; eassumption. }
  rewrite <- (size_list_to_set (C := gset positive) l Hnd).
  rewrite <- size_dom. apply subseteq_size.
  intros a Ha. apply elem_of_list_to_set in Ha.
  apply elem_of_dom. apply list_elem_of_In in Ha.
  destruct (lseg_allocated _ _ _ _ _ H Ha) as (s & Hs). now exists s.
Qed.

Ltac st_simpl :=
  cbn [heap next_block mem_left ztcp_head ztcp_tail open_fds fd_limit errno
       errflag connect_script close_script resolver reverse_resolver trace
       set_heap set_alloc set_ztcp_head set_ztcp_tail set_open_fds set_errno
       set_errflag set_connect_script set_close_script emit
       fd peer flags next co_errno co_signal at_addr at_errno].

Ltac st_simpl_in H :=
  cbn [heap next_block mem_left ztcp_head ztcp_tail open_fds fd_limit errno
       errflag connect_script close_script resolver reverse_resolver trace
       set_heap set_alloc set_ztcp_head set_ztcp_tail set_open_fds set_errno
       set_errflag set_connect_script set_close_script emit
       fd peer flags next co_errno co_signal at_addr at_errno] in H.

(** *** Lookup by descriptor *)

Lemma zts_byfd_loop_ok l : forall fuel a st target,
  lseg (heap st) (Some a) l NULL ->
  (length l <= fuel)%nat ->
  zts_byfd_loop fuel (Some a) target st = Ok (first_with_fd (heap st) target l) st.
Proof.
  induction l as [|b l IH]; intros fuel a st target Hl Hfuel.
  - simpl in Hl. discriminate.
  - simpl in Hl. destruct Hl as (E & s & Hs & Hl). injection E as <-.
    destruct fuel as [|fuel]; [simpl in Hfuel; lia|].
    simpl in Hfuel. simpl. rewrite Hs.
    rewrite (bind_ok _ _ _ _ _ (get_fd_ok _ _ _ Hs)).
    destruct (fd s =? target); [reflexivity|].
    rewrite (bind_ok _ _ _ _ _ (get_next_ok _ _ _ Hs)).
    destruct (next s) as [c|] eqn:En.
    + unfold ptr_eqb. rewrite bool_decide_eq_false_2 by discriminate. simpl.
      apply IH; [exact Hl|lia].
    + unfold ptr_eqb. rewrite bool_decide_eq_true_2 by reflexivity. simpl.
      destruct l as [|c l]; [reflexivity|].
      simpl in Hl. destruct Hl as (E & _). discriminate.
Qed.

Lemma zts_byfd_ok st l target :
  registry st l -> l <> [] ->
  zts_byfd target st = Ok (first_with_fd (heap st) target l) st.
Proof.
  intros Hl Hne. unfold zts_byfd, zts_head, bind.
  pose proof (lseg_length _ _ _ Hl) as Hlen.
  unfold registry in Hl.
  destruct (ztcp_head st) as [a|] eqn:Eh.
  - apply zts_byfd_loop_ok; [exact Hl|]. unfold walk_fuel. lia.
  - destruct l; [congruence|]. simpl in Hl. destruct Hl as (E & _). discriminate.
Qed.

Lemma first_with_fd_Some h target l p a :
  lseg h p l NULL -> first_with_fd h target l = Some a ->
  exists l1 l2 s, l = l1 ++ a :: l2 /\ h !! a = Some s /\ fd s = target /\
    forall b s', In b l1 -> h !! b = Some s' -> fd s' <> target.
Proof.
  revert p. induction l as [|b l IH]; intros p Hl Hf; simpl in *; [discriminate|].
  destruct Hl as (-> & s & Hs & Hl). rewrite Hs in Hf.
  destruct (fd s =? target) eqn:Efd.
  - injection Hf as <-. exists [], l, s.
    split; [reflexivity|]. split; [exact Hs|]. split; [now apply Z.eqb_eq|].
    intros ? ? [].
  - destruct (IH _ Hl Hf) as (l1 & l2 & s1 & -> & Hs1 & Hfd & Hbefore).
    exists (b :: l1), l2, s1.
    split; [reflexivity|]. split; [exact Hs1|]. split; [exact Hfd|].
    intros c s' [<-|Hin] Hc.
    + rewrite Hs in Hc. injection Hc as <-. now apply Z.eqb_neq.
    + eapply Hbefore; eassumption.
Qed.

Lemma first_with_fd_None h target l p :
  lseg h p l NULL -> first_with_fd h target l = NULL ->
  forall b s', In b l -> h !! b = Some s' -> fd s' <> target.
Proof.
  revert p. induction l as [|b l IH]; intros p Hl Hf; simpl in *; [tauto|].
  destruct Hl as (-> & s & Hs & Hl). rewrite Hs in Hf.
  destruct (fd s =? target) eqn:Efd; [discriminate|].
  intros c s' [<-|Hin] Hc.
  - rewrite Hs in Hc. injection Hc as <-. now apply Z.eqb_neq.
  - eapply IH; eassumption.
Qed.

Lemma zts_byfd_empty st target :
  ztcp_head st = NULL -> zts_byfd target st = Fault NullDeref.
Proof. intros H. unfold zts_byfd, zts_head, bind. rewrite H. reflexivity. Qed.

(** C10.  On a registry that is not empty, [zts_byfd] changes nothing and
    returns the first session, in registry order, whose descriptor is the
    one asked for: every session before it has another descriptor; it
    returns [NULL] exactly when no session of the registry has it. *)
Theorem zts_byfd_first_match st l target :
  registry st l -> l <> [] ->
  exists r, zts_byfd target st = Ok r st /\
    match r with
    | Some a =>
      exists l1 l2 s, l = l1 ++ a :: l2 /\ heap st !! a = Some s /\ fd s = target /\
        forall b s', In b l1 -> heap st !! b = Some s' -> fd s' <> target
    | None => forall b s', In b l -> heap st !! b = Some s' -> fd s' <> target
    end.
Proof.
  intros Hl Hne. exists (first_with_fd (heap st) target l).
  split; [now apply zts_byfd_ok|].
  destruct (first_with_fd (heap st) target l) as [a|] eqn:E.
  - eapply first_with_fd_Some; eassumption.
  - eapply first_with_fd_None; eassumption.
Qed.

(** *** Closing *)

Lemma sys_close_not_open sock st :
  sock ∉ open_fds st ->
  sys_close sock st = Ok (-1) (emit (EvClose sock (-1)) (set_errno EBADF st)).
Proof. intros H. unfold sys_close. now rewrite bool_decide_eq_false_2. Qed.

Lemma sys_close_cases sock st :
  exists r st', sys_close sock st = Ok r st' /\
    (r = 0 \/ r = -1) /\
    heap st' = heap st /\ ztcp_head st' = ztcp_head st /\ ztcp_tail st' = ztcp_tail st /\
    (sock ∉ open_fds st') /\
    open_fds st' = open_fds st ∖ {[sock]} /\
    (r = 0 -> sock ∈ open_fds st) /\
    (sock ∈ open_fds st -> hd 0 (close_script st) = 0 -> r = 0) /\
    trace st' = trace st ++ [EvClose sock r].
Proof.
  unfold sys_close. destruct (bool_decide (sock ∈ open_fds st)) eqn:Eo.
  - apply bool_decide_eq_true in Eo.
    assert (Hgone : sock ∉ open_fds st ∖ {[sock]}).
    { intros H. apply elem_of_difference in H as [_ H]. apply H.
      now apply elem_of_singleton. }
    destruct (close_script st) as [|e rest] eqn:Ec.
    + eexists _, _. split; [reflexivity|]. cbn.
      split; [now left|]. do 3 (split; [reflexivity|]). split; [exact Hgone|].
      split; [reflexivity|]. split; [auto|]. split; [auto|]. reflexivity.
    + destruct (e =? 0) eqn:Ee.
      * eexists _, _. split; [reflexivity|]. cbn.
        split; [now left|]. do 3 (split; [reflexivity|]). split; [exact Hgone|].
        split; [reflexivity|]. split; [auto|]. split; [auto|]. reflexivity.
      * apply Z.eqb_neq in Ee.
        eexists _, _. split; [reflexivity|]. cbn.
        split; [now right|]. do 3 (split; [reflexivity|]). split; [exact Hgone|].
        split; [reflexivity|]. split; [discriminate|].
        split; [intros _ E; contradiction|]. reflexivity.
  - apply bool_decide_eq_false in Eo.
    assert (Hsame : open_fds st = open_fds st ∖ {[sock]}).
    { apply set_eq. intros x. rewrite elem_of_difference, elem_of_singleton.
      split; [|tauto]. intros Hx. split; [exact Hx|]. intros ->. contradiction. }
    eexists _, _. split; [reflexivity|]. cbn.
    split; [now right|]. do 3 (split; [reflexivity|]). split; [exact Eo|].
    split; [exact Hsame|]. split; [discriminate|].
    split; [intros E; contradiction|]. reflexivity.
Qed.

(** C7, as the code has it.  [tcp_close] on a session whose descriptor is
    already [-1] returns the failure value [-1] and does nothing else: the
    state is the same, so no warning is issued for it.  In every case it leaves the
    records (hence every descriptor field) and the two list globals as they
    were.  Called twice in a row on one session, the first call returns [0]
    or [-1] ([0] when the descriptor is open and the kernel closes it
    without error), and the second returns [-1]; when the descriptor is not
    the sentinel, that second failure is the kernel refusing the stale
    descriptor, warned about as a failed close. *)
Theorem tcp_close_twice st a s :
  heap st !! a = Some s ->
  (fd s = -1 -> tcp_close (Some a) st = Ok (-1) st) /\
  exists r1 st1 st2,
    tcp_close (Some a) st = Ok r1 st1 /\
    (r1 = 0 \/ r1 = -1) /\
    (fd s <> -1 -> fd s ∈ open_fds st -> hd 0 (close_script st) = 0 -> r1 = 0) /\
    heap st1 = heap st /\ ztcp_head st1 = ztcp_head st /\ ztcp_tail st1 = ztcp_tail st /\
    tcp_close (Some a) st1 = Ok (-1) st2 /\
    heap st2 = heap st /\ ztcp_head st2 = ztcp_head st /\ ztcp_tail st2 = ztcp_tail st /\
    (fd s <> -1 ->
     trace st2 = trace st1 ++ [EvClose (fd s) (-1);
                               EvWarn None "connection close failed: %e" None EBADF]).
Proof.
  intros Hs. split.
  - intros Hfd. unfold tcp_close.
    rewrite (bind_ok _ _ _ _ _ (get_fd_ok _ _ _ Hs)).
    rewrite Hfd. reflexivity.
  - unfold tcp_close at 1.
    rewrite (bind_ok _ _ _ _ _ (get_fd_ok _ _ _ Hs)).
    destruct (fd s =? -1) eqn:Efd; simpl.
    + apply Z.eqb_eq in Efd. exists (-1), st, st.
      split; [reflexivity|]. split; [now right|]. split; [congruence|].
      do 3 (split; [reflexivity|]).
      split.
      { unfold tcp_close. rewrite (bind_ok _ _ _ _ _ (get_fd_ok _ _ _ Hs)).
        rewrite Efd. reflexivity. }
      do 3 (split; [reflexivity|]). congruence.
    + apply Z.eqb_neq in Efd.
      destruct (sys_close_cases (fd s) st)
        as (r & st' & Hc & Hr & Hh & Hhd & Htl & Hclosed & _ & _ & Hsucc & _).
      assert (Hsecond : forall st1, heap st1 = heap st -> fd s ∉ open_fds st1 ->
        tcp_close (Some a) st1 =
        Ok (-1) (emit (EvWarn None "connection close failed: %e" None EBADF)
                   (emit (EvClose (fd s) (-1)) (set_errno EBADF st1)))).
      { intros st1 Hh1 Ho1. unfold tcp_close.
        assert (Hs1 : heap st1 !! a = Some s) by now rewrite Hh1.
        rewrite (bind_ok _ _ _ _ _ (get_fd_ok _ _ _ Hs1)).
        apply Z.eqb_neq in Efd. rewrite Efd. simpl.
        rewrite (bind_ok _ _ _ _ _ (sys_close_not_open _ _ Ho1)).
        reflexivity. }
      rewrite (bind_ok _ _ _ _ _ Hc).
      destruct Hr as [-> | ->]; simpl.
      * eexists 0, st', _. split; [reflexivity|]. split; [now left|].
        split; [auto|]. do 3 (split; [assumption|]).
        split; [apply Hsecond; assumption|]. simpl.
        do 3 (split; [assumption|]). intros _. now rewrite <- app_assoc.
      * eexists (-1), _, _. split; [reflexivity|]. split; [now right|].
        split; [intros _ Ho Hk; specialize (Hsucc Ho Hk); discriminate|].
        simpl. do 3 (split; [assumption|]).
        split; [apply Hsecond; simpl; assumption|]. simpl.
        do 3 (split; [assumption|]). intros _. now rewrite <- !app_assoc.
Qed.

(** *** Deleting a member of the registry *)

Lemma lseg_frame h h' l p q :
  (forall a, In a l -> h' !! a = h !! a) -> lseg h p l q -> lseg h' p l q.
Proof.
  revert p. induction l as [|b l IH]; intros p Hagree; simpl; [auto|].
  intros (-> & s & Hs & Hl). split; [reflexivity|]. exists s. split.
  - rewrite Hagree; [exact Hs|now left].
  - apply IH; [|exact Hl]. intros a Ha. apply Hagree. now right.
Qed.

(** A walk along a list that ends in [NULL] or in a pointer to no record
    only comes to the members of the list and to that last pointer. *)
Lemma visits_lseg h l p q b :
  lseg h p l q ->
  (q = NULL \/ exists n, q = Some n /\ h !! n = None) ->
  visits h p b -> In b l \/ q = Some b.
Proof.
  revert p. induction l as [|a l IH]; intros p Hl Hq Hv; simpl in Hl.
  - subst p. destruct Hq as [-> | (n & -> & Hn)].
    + inversion Hv.
    + inversion Hv as [b' | a' s0 b' Hs0 Hv']; subst; [now right|congruence].
  - destruct Hl as (-> & s & Hs & Hl).
    inversion Hv as [b' | a' s0 b' Hs0 Hv']; subst.
    + left. now left.
    + assert (s0 = s) by congruence. subst s0.
      destruct (IH _ Hl Hq Hv') as [Hin | Heq]; [left; now right | now right].
Qed.

Lemma zts_delete_head st a l s :
  registry st (a :: l) -> heap st !! a = Some s ->
  zts_delete (Some a) st =
  Ok 0 (set_alloc (next_block st) (S (mem_left st))
          (set_heap (delete a (heap st)) (set_ztcp_head (next s) st))).
Proof.
  intros Hreg Hs. unfold registry in Hreg. simpl in Hreg.
  destruct Hreg as (Hhead & _).
  unfold zts_delete, zts_head, bind at 1. rewrite Hhead.
  unfold ptr_eqb. rewrite bool_decide_eq_true_2 by reflexivity.
  rewrite (bind_ok _ _ _ _ _ (get_next_ok _ _ _ Hs)).
  unfold bind, modify, free, ret. simpl. now rewrite Hs.
Qed.

Lemma zts_delete_scan_ok l1 : forall fuel x p a st,
  lseg (heap st) (Some x) (l1 ++ [p]) (Some a) ->
  ~ In a (l1 ++ [p]) ->
  (length (l1 ++ [p]) <= fuel)%nat ->
  zts_delete_scan fuel (Some x) (Some a) st = Ok (Some p) st.
Proof.
  induction l1 as [|y l1 IH]; intros fuel x p a st Hl Hnin Hfuel;
    (destruct fuel as [|fuel]; [simpl in Hfuel; lia|]);
    simpl in Hl; destruct Hl as (E & s & Hs & Hl); injection E as <-; simpl.
  - rewrite (bind_ok _ _ _ _ _ (get_next_ok _ _ _ Hs)). rewrite Hl.
    unfold ptr_eqb. rewrite bool_decide_eq_true_2 by reflexivity. reflexivity.
  - rewrite (bind_ok _ _ _ _ _ (get_next_ok _ _ _ Hs)).
    destruct (l1 ++ [p]) as [|z l'] eqn:El; [now destruct l1|].
    simpl in Hl. destruct Hl as (En & Hl').
    rewrite En. unfold ptr_eqb.
    rewrite bool_decide_eq_false_2.
    2:{ intros E. injection E as ->. apply Hnin. simpl. right.
        rewrite El. now left. }
    rewrite bool_decide_eq_false_2 by discriminate. simpl.
    rewrite (bind_ok _ _ _ _ _ (get_next_ok _ _ _ Hs)). rewrite En.
    apply IH.
    + rewrite El. simpl. split; [reflexivity|]. exact Hl'.
    + intros Hin. apply Hnin. simpl. now right.
    + simpl in Hfuel. lia.
Qed.

Lemma zts_delete_inner st l1 p a l2 sp sa :
  registry st (l1 ++ p :: a :: l2) ->
  heap st !! p = Some sp -> heap st !! a = Some sa ->
  zts_delete (Some a) st =
  Ok 0 (free_successor (next sa)
          (set_heap (<[p := Session (fd sp) (peer sp) (flags sp) (next sa)]> (heap st)) st)).
Proof.
  intros Hreg Hp Ha.
  pose proof (lseg_NoDup _ _ _ Hreg) as Hnd.
  pose proof (lseg_length _ _ _ Hreg) as Hlen.
  unfold registry in Hreg.
  assert (Hseg : lseg (heap st) (ztcp_head st) (l1 ++ [p]) (Some a) /\
                 lseg (heap st) (next sa) l2 NULL).
  { replace (l1 ++ p :: a :: l2) with ((l1 ++ [p]) ++ a :: l2) in Hreg
      by now rewrite <- app_assoc.
    apply lseg_app in Hreg as (r & H1 & H2). simpl in H2.
    destruct H2 as (-> & s' & Hs' & H2). rewrite Ha in Hs'. injection Hs' as <-.
    now split. }
  destruct Hseg as (Hseg1 & Hseg2).
  assert (Hnin : ~ In a (l1 ++ [p])).
  { replace (l1 ++ p :: a :: l2) with ((l1 ++ [p]) ++ a :: l2) in Hnd
      by now rewrite <- app_assoc.
    apply NoDup_remove_2 in Hnd. intros Hin. apply Hnd. apply in_or_app. now left. }
  assert (Hpa : p <> a).
  { intros ->. apply Hnin. apply in_or_app. right. now left. }
  destruct (ztcp_head st) as [x|] eqn:Ehead.
  2:{ destruct l1; simpl in Hseg1; destruct Hseg1 as (E & _); discriminate. }
  assert (Hxa : x <> a).
  { intros ->. apply Hnin. destruct l1; simpl in Hseg1;
      destruct Hseg1 as (E & _); injection E as <-; now left. }
  unfold zts_delete, zts_head, bind at 1. rewrite Ehead.
  unfold ptr_eqb at 1. rewrite bool_decide_eq_false_2 by congruence.
  unfold bind at 1.
  assert (Hfuel : (length (l1 ++ [p]) <= walk_fuel st)%nat).
  { unfold walk_fuel. rewrite !length_app in *. simpl in *. lia. }
  rewrite (bind_ok _ _ _ _ _ (zts_delete_scan_ok l1 _ _ _ _ _ Hseg1 Hnin Hfuel)).
  assert (Enext : next sp = Some a).
  { apply lseg_app in Hseg1 as (r & _ & H2). simpl in H2.
    destruct H2 as (-> & s' & Hs' & H2). congruence. }
  rewrite (bind_ok _ _ _ _ _ (get_next_ok _ _ _ Hp)). rewrite Enext.
  unfold ptr_eqb. rewrite bool_decide_eq_false_2 by discriminate.
  rewrite (bind_ok _ _ _ _ _ (get_next_ok _ _ _ Ha)).
  rewrite (bind_ok _ _ _ _ _ (set_next_ok _ _ _ _ Hp)).
  erewrite bind_ok.
  2:{ apply get_next_ok. simpl. apply lookup_insert_eq. }
  simpl. unfold bind, free, ret, free_successor.
  destruct (next sa) as [b|] eqn:Eb; [|reflexivity].
  simpl.
  destruct l2 as [|b' l2]; simpl in Hseg2; [discriminate|].
  destruct Hseg2 as (E & sb & Hsb & _). injection E as <-.
  assert (Hpb : p <> b).
  { intros ->. apply NoDup_remove_2 in Hnd. apply Hnd.
    apply in_or_app. right. right. now left. }
  rewrite lookup_insert_ne by exact Hpb. now rewrite Hsb.
Qed.


Lemma tcp_close_effect st a s :
  heap st !! a = Some s ->
  exists r st1, tcp_close (Some a) st = Ok r st1 /\
    heap st1 = heap st /\ ztcp_head st1 = ztcp_head st /\ ztcp_tail st1 = ztcp_tail st /\
    open_fds st1 = (if fd s =? -1 then open_fds st else open_fds st ∖ {[fd s]}) /\
    exists evs, trace st1 = trace st ++ evs /\
      (fd s <> -1 -> exists r', hd_error evs = Some (EvClose (fd s) r')).
Proof.
  intros Hs. unfold tcp_close.
  rewrite (bind_ok _ _ _ _ _ (get_fd_ok _ _ _ Hs)).
  destruct (fd s =? -1) eqn:Efd; simpl.
  - exists (-1), st. repeat (split; [reflexivity|]). exists [].
    split; [now rewrite app_nil_r|]. apply Z.eqb_eq in Efd. congruence.
  - destruct (sys_close_cases (fd s) st)
      as (r & st' & Hc & Hr & Hh & Hhd & Htl & _ & Ho & _ & _ & Htr).
    rewrite (bind_ok _ _ _ _ _ Hc).
    destruct Hr as [-> | ->]; simpl.
    + exists 0, st'. split; [reflexivity|]. do 4 (split; [assumption|]).
      exists [EvClose (fd s) 0]. split; [assumption|]. intros _. now exists 0.
    + eexists (-1), _. split; [reflexivity|]. simpl. do 4 (split; [assumption|]).
      eexists [EvClose (fd s) (-1); _]. rewrite Htr, <- app_assoc.
      split; [reflexivity|]. intros _. now exists (-1).
Qed.

Lemma first_with_fd_at h target l1 a l2 p s :
  lseg h p (l1 ++ a :: l2) NULL ->
  h !! a = Some s -> fd s = target ->
  (forall b s', In b l1 -> h !! b = Some s' -> fd s' <> target) ->
  first_with_fd h target (l1 ++ a :: l2) = Some a.
Proof.
  revert p. induction l1 as [|b l1 IH]; intros p Hl Hs Hfd Hno; simpl in *.
  - rewrite Hs. apply Z.eqb_eq in Hfd. now rewrite Hfd.
  - destruct Hl as (-> & sb & Hb & Hl). rewrite Hb.
    destruct (fd sb =? target) eqn:E.
    + apply Z.eqb_eq in E. exfalso. apply (Hno b sb); auto.
    + eapply IH; [exact Hl|exact Hs|exact Hfd|].
      intros c s' Hc. apply Hno. now right.
Qed.

(** C8.  The command [ztcp -c fd] aimed at the first session that has the
    descriptor, when that session carries the [ZTCP_ZFTP] flag.  Without
    [-f] it returns 1 and the only thing that happens is the warning that
    asks for [-f]: records, list globals and open descriptors are as
    before.  With [-f] it returns 0 after [tcp_close], which has passed the
    descriptor to [close], and [zts_delete].  What [zts_delete] leaves is
    spelled out: a session that was the first of the registry is unlinked
    and its record freed; a session that had a predecessor is unlinked,
    but its record stays allocated as it was, and the record freed, if
    any, is that of its successor. *)
Theorem ztcp_close_zftp cfg nam a0 rest ops st l1 a l2 s :
  registry st (l1 ++ a :: l2) ->
  heap st !! a = Some s ->
  fd s = atoi a0 ->
  (forall b s', In b l1 -> heap st !! b = Some s' -> fd s' <> atoi a0) ->
  Z.land (flags s) (ZTCP_ZFTP cfg) <> 0 ->
  ops "c"%char = true ->
  if ops "f"%char then
    exists r st1 st',
      tcp_close (Some a) st = Ok r st1 /\
      heap st1 = heap st /\ ztcp_head st1 = ztcp_head st /\
      open_fds st1 = (if fd s =? -1 then open_fds st else open_fds st ∖ {[fd s]}) /\
      (exists evs, trace st1 = trace st ++ evs /\
         (fd s <> -1 -> exists r', hd_error evs = Some (EvClose (fd s) r'))) /\
      zts_delete (Some a) st1 = Ok 0 st' /\
      bin_ztcp cfg nam (a0 :: rest) ops st = Ok 0 st' /\
      match last l1 with
      | None =>
        st' = set_alloc (next_block st1) (S (mem_left st1))
                (set_heap (delete a (heap st1)) (set_ztcp_head (next s) st1)) /\
        heap st' !! a = None
      | Some p =>
        exists sp, heap st !! p = Some sp /\
          st' = free_successor (next s)
                  (set_heap (<[p := Session (fd sp) (peer sp) (flags sp) (next s)]>
                               (heap st1)) st1) /\
          heap st' !! a = Some s
      end
  else
    bin_ztcp cfg nam (a0 :: rest) ops st =
    Ok 1 (emit (EvWarn (Some nam)
                  "use -f to force closure of a zftp control connection" None 0) st).
Proof.
  intros Hreg Hs Hfd Hbefore Hflag Hc.
  assert (Hflagb : negb (Z.land (flags s) (ZTCP_ZFTP cfg) =? 0) = true).
  { apply negb_true_iff. now apply Z.eqb_neq. }
  assert (Hne : l1 ++ a :: l2 <> []) by (destruct l1; discriminate).
  assert (Hfind : zts_byfd (atoi a0) st = Ok (Some a) st).
  { rewrite (zts_byfd_ok _ _ _ Hreg Hne).
    now rewrite (first_with_fd_at _ _ _ _ _ _ _ Hreg Hs Hfd Hbefore). }
  destruct (ops "f"%char) eqn:Hf; unfold bin_ztcp; rewrite Hc, Hf;
    rewrite (bind_ok _ _ _ _ _ Hfind);
    rewrite (bind_ok _ _ _ _ _ (get_flags_ok _ _ _ Hs)); rewrite Hflagb; simpl;
    [|reflexivity].
  destruct (tcp_close_effect _ _ _ Hs)
    as (r & st1 & Hclose & Hh1 & Hhd1 & Htl1 & Ho1 & evs & Htr1 & Hev).
  rewrite (bind_ok _ _ _ _ _ Hclose).
  assert (Hreg1 : registry st1 (l1 ++ a :: l2)).
  { unfold registry. now rewrite Hh1, Hhd1. }
  assert (Hs1 : heap st1 !! a = Some s) by now rewrite Hh1.
  exists r, st1.
  destruct (last l1) as [p|] eqn:El.
  - apply last_Some in El as (l0 & ->).
    replace ((l0 ++ [p]) ++ a :: l2) with (l0 ++ p :: a :: l2) in *
      by now rewrite <- app_assoc.
    assert (Hinp : In p (l0 ++ p :: a :: l2)) by (apply in_or_app; right; now left).
    destruct (lseg_allocated _ _ _ _ _ Hreg1 Hinp) as (sp & Hp1).
    pose proof (zts_delete_inner st1 l0 p a l2 sp s Hreg1 Hp1 Hs1) as Hdel.
    pose proof (lseg_NoDup _ _ _ Hreg1) as Hnd.
    assert (Hpa : p <> a).
    { apply NoDup_remove_2 in Hnd. intros ->. apply Hnd.
      apply in_or_app. right. now left. }
    assert (Hba : forall b, next s = Some b -> b <> a).
    { intros b Eb ->. unfold registry in Hreg1.
      apply lseg_app in Hreg1 as (q & _ & Hrest). simpl in Hrest.
      destruct Hrest as (_ & sp' & _ & (_ & s' & Hs' & Hl2)).
      rewrite Hs1 in Hs'. injection Hs' as <-.
      destruct l2 as [|b l2]; simpl in Hl2; [rewrite Eb in Hl2; discriminate|].
      destruct Hl2 as (E & _). rewrite Eb in E. injection E as <-.
      apply List.NoDup_app_remove_l in Hnd.
      inversion Hnd as [|? ? _ Hnd']; subst.
      inversion Hnd' as [|? ? Hnin _]; subst. apply Hnin. now left. }
    eexists. split; [exact Hclose|]. split; [exact Hh1|]. split; [exact Hhd1|].
    split; [exact Ho1|]. split; [exists evs; now split|].
    split; [exact Hdel|]. rewrite (bind_ok _ _ _ _ _ Hdel).
    split; [reflexivity|].
    exists sp. split; [now rewrite <- Hh1|]. split; [reflexivity|].
    unfold free_successor. destruct (next s) as [b|] eqn:Eb; st_simpl.
    + rewrite lookup_delete_ne by (apply Hba; reflexivity).
      rewrite lookup_insert_ne by exact Hpa. exact Hs1.
    + rewrite lookup_insert_ne by exact Hpa. exact Hs1.
  - apply last_None in El. subst l1. simpl in *.
    pose proof (zts_delete_head st1 a l2 s Hreg1 Hs1) as Hdel.
    eexists. split; [exact Hclose|]. split; [exact Hh1|]. split; [exact Hhd1|].
    split; [exact Ho1|]. split; [exists evs; now split|].
    split; [exact Hdel|]. rewrite (bind_ok _ _ _ _ _ Hdel).
    split; [reflexivity|]. split; [reflexivity|].
    st_simpl. apply lookup_delete_eq.
Qed.

(** *** The defects of the list code *)

(** On a registry that is not empty [zts_alloc] hangs the new record
    behind the record [ztcp_tail] designates and leaves [ztcp_tail] where it
    was. *)
Lemma zts_alloc_keeps_tail ztflags st h t s m :
  ztcp_head st = Some h -> ztcp_tail st = Some t ->
  heap st !! t = Some s -> mem_left st = S m -> next_block st <> t ->
  zts_alloc ztflags st =
  Ok (Some (next_block st))
     (set_heap (<[t := Session (fd s) (peer s) (flags s) (Some (next_block st))]>
                  (<[next_block st := Session (-1) sockaddr_zero ztflags NULL]> (heap st)))
        (set_alloc (Pos.succ (next_block st)) m st)).
Proof.
  intros Hh Ht Hs Hm Hne. unfold zts_alloc.
  unfold bind at 1. unfold zcalloc. rewrite Hm.
  erewrite bind_ok; [|apply set_fd_ok; st_simpl; apply lookup_insert_eq].
  erewrite bind_ok; [|apply set_next_ok; st_simpl; apply lookup_insert_eq].
  erewrite bind_ok; [|apply set_flags_ok; st_simpl; apply lookup_insert_eq].
  unfold bind at 1. unfold zts_head at 1. st_simpl. rewrite Hh.
  rewrite bind_bind. unfold bind at 1. st_simpl. rewrite Ht.
  erewrite bind_ok.
  2:{ apply set_next_ok. st_simpl. rewrite !lookup_insert_ne by exact Hne. exact Hs. }
  unfold ret. st_simpl. rewrite !insert_insert_eq. reflexivity.
Qed.

(** So, the tail pointer being the head, every allocation replaces
    whatever followed the first session. *)
Lemma zts_alloc_drops_sessions ztflags st a l m :
  registry st (a :: l) -> ztcp_tail st = Some a ->
  mem_left st = S m -> heap st !! next_block st = None ->
  exists st', zts_alloc ztflags st = Ok (Some (next_block st)) st' /\
    registry st' [a; next_block st] /\ ztcp_tail st' = Some a.
Proof.
  intros Hreg Ht Hm Hfresh. unfold registry in Hreg. simpl in Hreg.
  destruct Hreg as (Hh & s & Hs & _).
  assert (Hne : next_block st <> a) by (intros E; rewrite E in Hfresh; congruence).
  eexists. split; [eapply zts_alloc_keeps_tail; eassumption|].
  unfold registry. st_simpl. split; [|exact Ht].
  simpl. split; [exact Hh|]. eexists. split; [apply lookup_insert_eq|]. st_simpl.
  split; [reflexivity|]. eexists.
  split; [rewrite lookup_insert_ne by congruence; apply lookup_insert_eq|].
  reflexivity.
Qed.

(** Deleting a session that is not the head unlinks it, leaves its record
    allocated, and frees the record that followed it. *)
Lemma zts_delete_frees_successor st l1 p a l2 :
  registry st (l1 ++ p :: a :: l2) ->
  exists st' sa, zts_delete (Some a) st = Ok 0 st' /\
    heap st' !! a = Some sa /\
    forall b, hd_error l2 = Some b -> heap st' !! b = None.
Proof.
  intros Hreg.
  pose proof (lseg_NoDup _ _ _ Hreg) as Hnd.
  assert (Hinp : In p (l1 ++ p :: a :: l2)) by (apply in_or_app; right; now left).
  assert (Hina : In a (l1 ++ p :: a :: l2))
    by (apply in_or_app; right; right; now left).
  destruct (lseg_allocated _ _ _ _ _ Hreg Hinp) as (sp & Hp).
  destruct (lseg_allocated _ _ _ _ _ Hreg Hina) as (sa & Ha).
  assert (Hpa : p <> a).
  { apply NoDup_remove_2 in Hnd. intros ->. apply Hnd.
    apply in_or_app. right. now left. }
  assert (Hnext : forall b, hd_error l2 = Some b -> next sa = Some b /\ b <> a /\ b <> p).
  { intros b Hb. destruct l2 as [|b' l2']; [discriminate|]. injection Hb as ->.
    unfold registry in Hreg. apply lseg_app in Hreg as (r & _ & Hrest).
    simpl in Hrest. destruct Hrest as (_ & sp' & _ & (_ & sa' & Hsa' & (En & _))).
    rewrite Ha in Hsa'. injection Hsa' as <-. split; [exact En|].
    apply List.NoDup_app_remove_l in Hnd.
    inversion Hnd as [|? ? Hp' Hnd']; subst. inversion Hnd' as [|? ? Ha' _]; subst.
    split; intros ->; [apply Ha'|apply Hp']; simpl; auto. }
  exists (free_successor (next sa)
            (set_heap (<[p := Session (fd sp) (peer sp) (flags sp) (next sa)]> (heap st)) st)),
         sa.
  split; [eapply zts_delete_inner; eassumption|]. split.
  - destruct (next sa) as [b|] eqn:Eb; simpl.
    + destruct l2 as [|b' l2'].
      * unfold registry in Hreg. apply lseg_app in Hreg as (r & _ & Hrest).
        simpl in Hrest. destruct Hrest as (_ & sp' & _ & (_ & sa' & Hsa' & En)).
        rewrite Ha in Hsa'. injection Hsa' as <-. rewrite Eb in En. discriminate.
      * destruct (Hnext b' eq_refl) as (En & Hba & _).
        injection En as ->.
        rewrite lookup_delete_ne by exact Hba.
        rewrite lookup_insert_ne by exact Hpa. exact Ha.
    + rewrite lookup_insert_ne by exact Hpa. exact Ha.
  - intros b Hb. destruct (Hnext b Hb) as (En & _ & _). rewrite En. simpl.
    apply lookup_delete_eq.
Qed.

(** At concrete inputs. *)

(** C1.  Three allocations from the empty registry: all three sessions
    are live, but the walk from the head meets only the first and the
    third.  [zts_alloc] links the new record behind [ztcp_tail] and never
    moves [ztcp_tail], so the third allocation overwrites the link to the
    second. *)
Theorem three_allocations_lose_the_second :
  exists st,
    (let* live := run_ops [Allocate 0; Allocate 0; Allocate 0] [] in
     let* seen := traverse in
     ret (live, seen)) initial_state
    = Ok ([1; 2; 3]%positive, [1; 3]%positive) st.
Proof. eexists. vm_compute. reflexivity. Qed.

(** C2.  After two allocations the registry is the first session followed
    by the second, yet [ztcp_tail] still designates the first, whose link
    is not [NULL]. *)
Theorem tail_stays_on_first_session :
  exists st s,
    run_ops [Allocate 0; Allocate 0] [] initial_state = Ok [1; 2]%positive st /\
    registry st [1; 2]%positive /\
    ztcp_tail st = Some 1%positive /\
    heap st !! 1%positive = Some s /\
    next s = Some 2%positive.
Proof.
  eexists _, _. split; [vm_compute; reflexivity|].
  split; [|split; [reflexivity|split; reflexivity]].
  unfold registry. simpl. split; [reflexivity|].
  eexists. split; [reflexivity|]. simpl. split; [reflexivity|].
  eexists. split; reflexivity.
Qed.

(** [zts_delete] does not move [ztcp_tail] either: once the session it
    designates is deleted, the next allocation writes through a pointer
    to a freed record. *)
Example allocation_after_deleting_the_first :
  run_ops [Allocate 0; Allocate 0; Delete (Some 1%positive); Allocate 0] []
    initial_state = Fault (InvalidPointer 1%positive).
Proof. vm_compute. reflexivity. Qed.

(** C3.  Two sessions, the second one deleted: [zts_delete] reports
    success and the registry is the first session alone, but the record of
    the deleted session is still allocated and the allocator got nothing
    back: the [free] is applied to the link that was just rewired, here
    [NULL]. *)
Theorem delete_of_second_session_frees_nothing :
  exists st st' a b s,
    (let* a := zts_alloc 0 in let* b := zts_alloc 0 in ret (a, b)) initial_state
      = Ok (Some a, Some b) st /\
    registry st [a; b] /\
    zts_delete (Some b) st = Ok 0 st' /\
    registry st' [a] /\
    heap st' !! b = Some s /\
    mem_left st' = mem_left st.
Proof.
  eexists _, _, _, _, _. split; [vm_compute; reflexivity|].
  split.
  { unfold registry. simpl. split; [reflexivity|].
    eexists. split; [reflexivity|]. simpl. split; [reflexivity|].
    eexists. split; reflexivity. }
  split; [vm_compute; reflexivity|].
  split.
  { unfold registry. simpl. split; [reflexivity|].
    eexists. split; reflexivity. }
  split; reflexivity.
Qed.

Lemma tcp_cleanup_empty st : ztcp_head st = NULL -> tcp_cleanup st = Ok tt st.
Proof.
  intros H. unfold tcp_cleanup, zts_head, bind. rewrite H. reflexivity.
Qed.

(** C4.  On a registry that holds at least one session [tcp_cleanup]
    closes the first session, deletes it, and then asks the record it has
    just freed for its successor: the run stops there, on a read of freed
    memory. *)
Theorem tcp_cleanup_reads_freed_record st a l :
  registry st (a :: l) ->
  tcp_cleanup st = Fault (InvalidPointer a).
Proof.
  intros Hreg.
  pose proof Hreg as Hreg0.
  unfold registry in Hreg. simpl in Hreg.
  destruct Hreg as (Hhead & s & Hs & _).
  unfold tcp_cleanup, zts_head, bind at 1. rewrite Hhead.
  unfold bind at 1. unfold walk_fuel. simpl.
  destruct (tcp_close_effect _ _ _ Hs) as (r & st1 & Hclose & Hh1 & Hhd1 & _).
  rewrite (bind_ok _ _ _ _ _ Hclose).
  assert (Hreg1 : registry st1 (a :: l)).
  { unfold registry. now rewrite Hh1, Hhd1. }
  assert (Hs1 : heap st1 !! a = Some s) by now rewrite Hh1.
  rewrite (bind_ok _ _ _ _ _ (zts_delete_head _ _ _ _ Hreg1 Hs1)).
  unfold bind, get_next, bind, load. simpl.
  now rewrite lookup_delete_eq.
Qed.

(** C6.  The command that opens a connection, when the allocation of the
    session fails.  Where the platform has [SO_OOBINLINE] the builtin reads
    the descriptor of the session for [setsockopt] before it tests the
    pointer, and the run stops on a null dereference; only without
    [SO_OOBINLINE] is the failure reported, with status 1 and the store
    untouched. *)
Theorem ztcp_alloc_failure cfg nam host rest ops st zthost :
  ops "c"%char = false ->
  resolver st host = Some zthost ->
  errflag st = 0 ->
  mem_left st = O ->
  bin_ztcp cfg nam (host :: rest) ops st =
  if SO_OOBINLINE cfg then Fault NullDeref
  else Ok 1 (emit (EvWarn (Some nam) "unable to allocate a TCP session slot" None 0) st).
Proof.
  intros Hc Hres Hef Hmem. unfold bin_ztcp. rewrite Hc.
  unfold bind at 1. unfold zsh_getipnodebyname. rewrite Hres.
  unfold bind at 1. unfold get_errflag. rewrite Hef. simpl.
  unfold tcp_socket, zts_alloc, bind at 1. unfold bind at 1. unfold bind at 1.
  unfold zcalloc. rewrite Hmem. simpl.
  destruct (SO_OOBINLINE cfg); reflexivity.
Qed.

(** *** Steps that leave descriptors and peer addresses alone *)

Lemma quiet_step_refl st : quiet_step st st.
Proof. split; [intros b s' H; now exists s'|auto]. Qed.

Lemma quiet_step_trans st1 st2 st3 :
  quiet_step st1 st2 -> quiet_step st2 st3 -> quiet_step st1 st3.
Proof.
  intros (H1 & T1) (H2 & T2). split; [|auto].
  intros b s3 Hb. destruct (H2 _ _ Hb) as (s2 & Hb2 & Hf2 & Hp2).
  destruct (H1 _ _ Hb2) as (s1 & Hb1 & Hf1 & Hp1).
  exists s1. repeat split; congruence.
Qed.

Lemma quiet_ret {A} (a : A) : quiet (ret a).
Proof. intros st b st' H. injection H as _ <-. apply quiet_step_refl. Qed.

Lemma quiet_stop {A} f : quiet (@stop A f).
Proof. intros st b st' H. discriminate. Qed.

Lemma quiet_bind {A B} (m : M A) (k : A -> M B) :
  quiet m -> (forall a, quiet (k a)) -> quiet (bind m k).
Proof.
  intros Hm Hk st b st' H. apply bind_inv in H as (a & st1 & H1 & H2).
  eapply quiet_step_trans; [eapply Hm|eapply Hk]; eassumption.
Qed.

Lemma quiet_same_heap {A} (m : M A) :
  (forall st a st', m st = Ok a st' ->
     heap st' = heap st /\ exists evs, trace st' = trace st ++ evs) ->
  quiet m.
Proof.
  intros Hm st a st' H. destruct (Hm _ _ _ H) as (Hh & evs & Ht). split.
  - intros b s' Hb. exists s'. rewrite <- Hh. auto.
  - intros e He. rewrite Ht. apply in_or_app. now left.
Qed.

Ltac same_heap :=
  apply quiet_same_heap; intros st a st' H;
  repeat match type of H with
         | context [match ?x with _ => _ end] => destruct x
         | context [if ?x then _ else _] => destruct x
         end;
  try discriminate; injection H as <- <-; simpl;
  (split; [reflexivity|]);
  first [ now (exists []; rewrite app_nil_r) | eexists; reflexivity ].

Lemma quiet_load p : quiet (load p).
Proof. unfold load. same_heap. Qed.

Lemma quiet_modify_head p : quiet (modify (set_ztcp_head p)).
Proof. unfold modify. same_heap. Qed.

Lemma quiet_modify_tail p : quiet (modify (set_ztcp_tail p)).
Proof. unfold modify. same_heap. Qed.

Lemma quiet_emit e : quiet (modify (emit e)).
Proof. unfold modify. same_heap. Qed.

Lemma quiet_read {A} (f : state -> A) : quiet (fun st => Ok (f st) st).
Proof. same_heap. Qed.

Lemma quiet_sys_socket d t p : quiet (sys_socket d t p).
Proof. unfold sys_socket. same_heap. Qed.

Lemma quiet_sys_setsockopt f : quiet (sys_setsockopt f).
Proof. unfold sys_setsockopt. same_heap. Qed.

Lemma quiet_sys_close f : quiet (sys_close f).
Proof. unfold sys_close. same_heap. Qed.

Lemma quiet_sys_connect f p sa n : quiet (sys_connect f p sa n).
Proof. unfold sys_connect. same_heap. Qed.

Lemma load_inv p st s st' :
  load p st = Ok s st' -> exists a, p = Some a /\ heap st !! a = Some s /\ st' = st.
Proof.
  unfold load. destruct p as [a|]; [|discriminate].
  destruct (heap st !! a) as [s0|] eqn:E; [|discriminate].
  intros H. injection H as <- <-. now exists a.
Qed.

Lemma quiet_step_insert st a s s' :
  heap st !! a = Some s -> fd s = fd s' -> peer s = peer s' ->
  quiet_step st (set_heap (<[a := s']> (heap st)) st).
Proof.
  intros Hs Hfd Hpeer. split; [|auto]. cbn [heap set_heap]. intros b sb Hb.
  destruct (decide (a = b)) as [<-|Hne].
  - rewrite lookup_insert_eq in Hb. injection Hb as <-. now exists s.
  - rewrite lookup_insert_ne in Hb by exact Hne. now exists sb.
Qed.

Lemma quiet_set_next p v : quiet (set_next p v).
Proof.
  intros st u st' H. unfold set_next in H.
  apply bind_inv in H as (s & st1 & Hl & Hst).
  apply load_inv in Hl as (a & -> & Hs & ->).
  rewrite (store_ok _ _ _ _ Hs) in Hst. injection Hst as Hst. subst st'.
  now apply (quiet_step_insert _ _ s).
Qed.

Lemma quiet_set_flags p v : quiet (set_flags p v).
Proof.
  intros st u st' H. unfold set_flags in H.
  apply bind_inv in H as (s & st1 & Hl & Hst).
  apply load_inv in Hl as (a & -> & Hs & ->).
  rewrite (store_ok _ _ _ _ Hs) in Hst. injection Hst as Hst. subst st'.
  now apply (quiet_step_insert _ _ s).
Qed.

Lemma quiet_free p : quiet (free p).
Proof.
  intros st u st' H. unfold free in H. destruct p as [a|].
  - destruct (heap st !! a) eqn:Hs; [|discriminate]. injection H as H.
    subst st'.
    split; [|auto]. cbn [heap set_heap set_alloc]. intros b sb Hb.
    apply lookup_delete_Some in Hb as (_ & Hb). now exists sb.
  - injection H as H. subst st'. apply quiet_step_refl.
Qed.

Create HintDb quiet_db.

#[export] Hint Resolve quiet_ret quiet_stop quiet_load quiet_modify_head
  quiet_modify_tail quiet_emit quiet_sys_socket quiet_sys_setsockopt
  quiet_sys_close quiet_sys_connect quiet_free quiet_set_next
  quiet_set_flags : quiet_db.

Ltac quiet_steps :=
  repeat first
    [ solve [auto with quiet_db]
    | apply quiet_read
    | apply quiet_bind; [|intros ?]
    | match goal with
      | |- quiet (match ?x with _ => _ end) => destruct x
      | |- quiet (if ?x then _ else _) => destruct x
      end ].

Lemma quiet_get_fd p : quiet (get_fd p).
Proof. unfold get_fd. quiet_steps. Qed.
Lemma quiet_get_flags p : quiet (get_flags p).
Proof. unfold get_flags. quiet_steps. Qed.
Lemma quiet_get_next p : quiet (get_next p).
Proof. unfold get_next. quiet_steps. Qed.
Lemma quiet_get_peer p : quiet (get_peer p).
Proof. unfold get_peer. quiet_steps. Qed.


#[export] Hint Resolve quiet_get_fd quiet_get_flags quiet_get_next
  quiet_get_peer : quiet_db.

Lemma quiet_zts_head : quiet zts_head.
Proof. unfold zts_head. quiet_steps. Qed.

Lemma quiet_zts_next p : quiet (zts_next p).
Proof. unfold zts_next. quiet_steps. Qed.

#[export] Hint Resolve quiet_zts_head quiet_zts_next : quiet_db.

Lemma quiet_zts_delete_scan fuel : forall t sess, quiet (zts_delete_scan fuel t sess).
Proof. induction fuel as [|fuel IH]; intros t sess; simpl; quiet_steps. Qed.

#[export] Hint Resolve quiet_zts_delete_scan : quiet_db.

Lemma quiet_zts_delete sess : quiet (zts_delete sess).
Proof. unfold zts_delete. quiet_steps. Qed.

Lemma quiet_zts_byfd_loop fuel : forall t target, quiet (zts_byfd_loop fuel t target).
Proof. induction fuel as [|fuel IH]; intros t target; simpl; quiet_steps. Qed.

#[export] Hint Resolve quiet_zts_delete quiet_zts_byfd_loop : quiet_db.

Lemma quiet_zts_byfd target : quiet (zts_byfd target).
Proof. unfold zts_byfd. quiet_steps. Qed.

Lemma quiet_zwarn fmt str num : quiet (zwarn fmt str num).
Proof. unfold zwarn. quiet_steps. Qed.

Lemma quiet_zwarnnam nam fmt str num : quiet (zwarnnam nam fmt str num).
Proof. unfold zwarnnam. quiet_steps. Qed.

Lemma quiet_fprintf_shout fmt args : quiet (fprintf_shout fmt args).
Proof. unfold fprintf_shout. quiet_steps. Qed.

#[export] Hint Resolve quiet_zts_byfd quiet_zwarn quiet_zwarnnam
  quiet_fprintf_shout : quiet_db.

Lemma quiet_tcp_close sess : quiet (tcp_close sess).
Proof. unfold tcp_close, get_errno. quiet_steps. Qed.

#[export] Hint Resolve quiet_tcp_close : quiet_db.

Lemma quiet_tcp_cleanup_loop fuel : forall sess, quiet (tcp_cleanup_loop fuel sess).
Proof.
  induction fuel as [|fuel IH]; intros sess; destruct sess; simpl; quiet_steps.
Qed.

#[export] Hint Resolve quiet_tcp_cleanup_loop : quiet_db.

Lemma quiet_tcp_cleanup : quiet tcp_cleanup.
Proof. unfold tcp_cleanup. quiet_steps. Qed.

Lemma quiet_ztcp_list_loop fuel cfg : forall sess, quiet (ztcp_list_loop fuel cfg sess).
Proof.
  induction fuel as [|fuel IH]; intros sess; destruct sess; simpl;
    unfold gethostbyaddr; quiet_steps.
Qed.

#[export] Hint Resolve quiet_tcp_cleanup quiet_ztcp_list_loop : quiet_db.

(** *** What [tcp_connect] does to the session *)

Ltac mnorm := cbv beta; repeat rewrite bind_bind; cbv beta.

Ltac upd_peer_step :=
  mnorm;
  erewrite bind_ok;
    [|apply upd_peer_ok; cbn [heap set_heap]; first [eassumption|apply lookup_insert_eq]];
  cbn [heap set_heap fd peer flags next sa_family sin_port sin_addr sin6_addr
       sin6_scope_id].

Ltac connect_tail :=
  mnorm; unfold bind at 1; unfold ret at 1;
  erewrite bind_ok; [|apply get_fd_ok; cbn [heap set_heap]; apply lookup_insert_eq];
  erewrite bind_ok; [|apply get_peer_ok; cbn [heap set_heap]; apply lookup_insert_eq];
  cbn [fd peer]; unfold set_heap; cbn; now rewrite !insert_insert_eq.

Lemma set_peer_ok st a s v :
  heap st !! a = Some s ->
  set_peer (Some a) v st =
  Ok tt (set_heap (<[a := Session (fd s) v (flags s) (next s)]> (heap st)) st).
Proof.
  intros H. unfold set_peer. rewrite (bind_ok _ _ _ _ _ (load_ok _ _ _ H)).
  now apply (store_ok _ _ s).
Qed.

Lemma memcpy_ok size dst src n st :
  0 <= n <= Z.of_nat size -> n <= Z.of_nat (length src) ->
  memcpy size dst src n st = Ok (copied dst src n) st.
Proof.
  intros H1 H2. unfold memcpy.
  rewrite (proj2 (Z.leb_le 0 n)), (proj2 (Z.leb_le n (Z.of_nat size))),
    (proj2 (Z.leb_le n (Z.of_nat (length src)))) by lia.
  reflexivity.
Qed.

Lemma memcpy_inv size dst src n st r st' :
  memcpy size dst src n st = Ok r st' ->
  0 <= n <= Z.of_nat size /\ n <= Z.of_nat (length src) /\
  r = copied dst src n /\ st' = st.
Proof.
  unfold memcpy.
  destruct (0 <=? n) eqn:E1; [|discriminate].
  destruct (n <=? Z.of_nat size) eqn:E2; [|discriminate].
  destruct (n <=? Z.of_nat (length src)) eqn:E3; [|discriminate].
  cbn. intros H. injection H as <- <-.
  apply Z.leb_le in E1, E2, E3. auto.
Qed.

Lemma tcp_connect_ok cfg st a s addrp zhost d_port :
  heap st !! a = Some s ->
  copy_fits cfg zhost addrp ->
  tcp_connect cfg (Some a) addrp zhost d_port st =
  sys_connect (fd s) (Some a) (peer_after_connect cfg addrp zhost d_port (peer s))
    (salen_of cfg zhost)
    (set_heap (<[a := Session (fd s)
                        (peer_after_connect cfg addrp zhost d_port (peer s))
                        (flags s) (next s)]> (heap st)) st).
Proof.
  intros Hs (Hn & Hsrc).
  unfold tcp_connect, peer_after_connect, salen_of. unfold member_size in Hn.
  destruct (SUPPORT_IPV6 cfg && (h_addrtype zhost =? AF_INET6)).
  - mnorm. rewrite (bind_ok _ _ _ _ _ (get_peer_ok _ _ _ Hs)).
    mnorm. rewrite (bind_ok _ _ _ _ _ (memcpy_ok 16 _ _ _ st Hn Hsrc)).
    mnorm. rewrite (bind_ok _ _ _ _ _ (set_peer_ok _ _ _ _ Hs)).
    cbn [heap set_heap fd peer flags next].
    do 2 upd_peer_step.
    destruct (HAVE_STRUCT_SOCKADDR_IN6_SIN6_SCOPE_ID cfg).
    + upd_peer_step. connect_tail.
    + mnorm. unfold bind at 1. unfold ret at 1. connect_tail.
  - mnorm. rewrite (bind_ok _ _ _ _ _ (get_peer_ok _ _ _ Hs)).
    mnorm. rewrite (bind_ok _ _ _ _ _ (memcpy_ok 4 _ _ _ st Hn Hsrc)).
    mnorm. rewrite (bind_ok _ _ _ _ _ (set_peer_ok _ _ _ _ Hs)).
    cbn [heap set_heap fd peer flags next].
    do 2 upd_peer_step. connect_tail.
Qed.

Lemma sys_connect_inv sock p sa n st r st' :
  sys_connect sock p sa n st = Ok r st' ->
  heap st' = heap st /\ ztcp_head st' = ztcp_head st /\ ztcp_tail st' = ztcp_tail st /\
  trace st' = trace st ++ [EvConnect sock p sa r] /\ (r = 0 \/ r = -1).
Proof.
  unfold sys_connect. intros H.
  repeat match type of H with
         | context [match ?x with _ => _ end] => destruct x
         | context [if ?x then _ else _] => destruct x
         end;
  injection H as <- <-; cbn; auto 10.
Qed.

(** A run of [tcp_connect] that returns made its copy within bounds. *)
Lemma tcp_connect_fits cfg st a s addrp zhost d_port r st' :
  heap st !! a = Some s ->
  tcp_connect cfg (Some a) addrp zhost d_port st = Ok r st' ->
  copy_fits cfg zhost addrp.
Proof.
  intros Hs H. unfold copy_fits, member_size.
  unfold tcp_connect in H.
  destruct (SUPPORT_IPV6 cfg && (h_addrtype zhost =? AF_INET6));
    revert H; mnorm; rewrite (bind_ok _ _ _ _ _ (get_peer_ok _ _ _ Hs)); mnorm;
    intros H; apply bind_inv in H as (bytes & st1 & Hm & _);
    apply memcpy_inv in Hm as (H1 & H2 & _); split; assumption.
Qed.

Lemma tcp_connect_inv cfg sess addrp zhost d_port st r st' :
  tcp_connect cfg sess addrp zhost d_port st = Ok r st' ->
  exists a s, sess = Some a /\ heap st !! a = Some s /\
    heap st' = <[a := Session (fd s)
                        (peer_after_connect cfg addrp zhost d_port (peer s))
                        (flags s) (next s)]> (heap st) /\
    trace st' = trace st ++
      [EvConnect (fd s) (Some a)
         (peer_after_connect cfg addrp zhost d_port (peer s)) r] /\
    ztcp_head st' = ztcp_head st /\ ztcp_tail st' = ztcp_tail st /\
    (r = 0 \/ r = -1).
Proof.
  intros H. destruct sess as [a|].
  - destruct (heap st !! a) as [s|] eqn:Hs.
    + pose proof (tcp_connect_fits _ _ _ _ _ _ _ _ _ Hs H) as Hfit.
      rewrite (tcp_connect_ok _ _ _ _ _ _ _ Hs Hfit) in H.
      apply sys_connect_inv in H as (Hh & Hhd & Htl & Htr & Hr).
      exists a, s. cbn in *. auto 10.
    + unfold tcp_connect, upd_peer, get_peer, bind, load in H.
      destruct (SUPPORT_IPV6 cfg && (h_addrtype zhost =? AF_INET6));
        rewrite Hs in H; discriminate.
  - unfold tcp_connect, upd_peer, get_peer, bind, load in H.
    destruct (SUPPORT_IPV6 cfg && (h_addrtype zhost =? AF_INET6)); discriminate.
Qed.

Lemma sys_connect_total sock p sa n st :
  exists r st', sys_connect sock p sa n st = Ok r st' /\
    (r = 0 \/ r = -1) /\
    heap st' = heap st /\ ztcp_head st' = ztcp_head st /\
    ztcp_tail st' = ztcp_tail st /\ open_fds st' = open_fds st /\
    next_block st' = next_block st /\ mem_left st' = mem_left st /\
    (sock ∉ open_fds st -> r = -1 /\ errno st' = EBADF) /\
    trace st' = trace st ++ [EvConnect sock p sa r].
Proof.
  unfold sys_connect. destruct (bool_decide (sock ∈ open_fds st)) eqn:Eo.
  - apply bool_decide_eq_true in Eo.
    destruct (connect_script st) as [|o rest].
    + eexists _, _. split; [reflexivity|]. st_simpl.
      split; [now right|]. do 6 (split; [reflexivity|]).
      split; [intros H; contradiction|reflexivity].
    + destruct (co_errno o =? 0), (co_signal o);
        (eexists _, _; split; [reflexivity|]; st_simpl;
         split; [auto|]; do 6 (split; [reflexivity|]);
         split; [intros H; contradiction|reflexivity]).
  - eexists _, _. split; [reflexivity|]. st_simpl.
    split; [now right|]. do 6 (split; [reflexivity|]).
    split; [intros _; split; reflexivity|reflexivity].
Qed.

(** With the copy within bounds, [tcp_connect] on an allocated session
    returns. *)
Lemma tcp_connect_run cfg st a s addrp zhost d_port :
  heap st !! a = Some s ->
  copy_fits cfg zhost addrp ->
  exists r st', tcp_connect cfg (Some a) addrp zhost d_port st = Ok r st' /\
    (r = 0 \/ r = -1) /\
    heap st' = <[a := Session (fd s)
                        (peer_after_connect cfg addrp zhost d_port (peer s))
                        (flags s) (next s)]> (heap st) /\
    ztcp_head st' = ztcp_head st /\ ztcp_tail st' = ztcp_tail st /\
    open_fds st' = open_fds st /\
    next_block st' = next_block st /\ mem_left st' = mem_left st /\
    (fd s ∉ open_fds st -> r = -1 /\ errno st' = EBADF) /\
    trace st' = trace st ++
      [EvConnect (fd s) (Some a)
         (peer_after_connect cfg addrp zhost d_port (peer s)) r].
Proof.
  intros Hs Hfit. rewrite (tcp_connect_ok _ _ _ _ _ _ _ Hs Hfit).
  match goal with
  | |- context [sys_connect ?f ?p ?sa ?n ?st1] =>
    destruct (sys_connect_total f p sa n st1)
      as (r & st' & Hrun & Hr & Hh & Hhd & Htl & Ho & Hnb & Hm & Hbad & Htr)
  end.
  exists r, st'. split; [exact Hrun|]. revert Hh Hhd Htl Ho Hnb Hm Hbad Htr.
  st_simpl. intros. auto 12.
Qed.

(** *** Where a peer address that is not zero comes from *)

Lemma peers_explained_quiet st st' :
  quiet_step st st' -> peers_explained st -> peers_explained st'.
Proof.
  intros (Hh & Ht) HI a s' Ha Hne.
  destruct (Hh _ _ Ha) as (s0 & Hs0 & Hfd & Hp).
  rewrite <- Hp in Hne. destruct (HI _ _ Hs0 Hne) as (r & Hin).
  exists r. rewrite <- Hfd, <- Hp. auto.
Qed.

Lemma zero_peer_quiet p st st' :
  quiet_step st st' -> zero_peer_at p st -> zero_peer_at p st'.
Proof.
  intros (Hh & _) HZ a s' -> Ha.
  destruct (Hh _ _ Ha) as (s0 & Hs0 & _ & Hp).
  rewrite <- Hp. now apply (HZ a).
Qed.

Lemma hoare_bind {A B} P (m : M A) Q (k : A -> M B) R :
  hoare P m Q -> (forall a, hoare (Q a) (k a) R) -> hoare P (bind m k) R.
Proof.
  intros Hm Hk st b st' HP H. apply bind_inv in H as (a & st1 & H1 & H2).
  eapply Hk; [eapply Hm|]; eassumption.
Qed.

Lemma hoare_ret {A} (P : state -> Prop) (a : A) (Q : A -> state -> Prop) :
  (forall st, P st -> Q a st) -> hoare P (ret a) Q.
Proof. intros HPQ st b st' HP H. injection H as <- <-. auto. Qed.

Lemma hoare_weaken {A} (P P' : state -> Prop) (m : M A) (Q Q' : A -> state -> Prop) :
  hoare P' m Q' -> (forall st, P st -> P' st) ->
  (forall a st, Q' a st -> Q a st) -> hoare P m Q.
Proof. intros Hm HP HQ st a st' H1 H2. eapply HQ, Hm; [apply HP|]; eassumption. Qed.

Lemma hoare_quiet {A} (m : M A) :
  quiet m -> hoare peers_explained m (fun _ => peers_explained).
Proof. intros Hq st a st' HI H. eapply peers_explained_quiet; [eapply Hq|]; eassumption. Qed.

Lemma hoare_quiet_zero {A} (m : M A) p :
  quiet m ->
  hoare (fun st => peers_explained st /\ zero_peer_at p st) m
        (fun _ st => peers_explained st /\ zero_peer_at p st).
Proof.
  intros Hq st a st' (HI & HZ) H. pose proof (Hq _ _ _ H) as Hstep. split.
  - eapply peers_explained_quiet; eassumption.
  - eapply zero_peer_quiet; eassumption.
Qed.

Lemma set_fd_zero_peer p v :
  hoare (fun st => peers_explained st /\ zero_peer_at p st) (set_fd p v)
        (fun _ st => peers_explained st /\ zero_peer_at p st).
Proof.
  intros st u st' (HI & HZ) H. unfold set_fd in H.
  apply bind_inv in H as (s & st1 & Hl & Hst).
  apply load_inv in Hl as (a & -> & Hs & ->).
  rewrite (store_ok _ _ _ _ Hs) in Hst. injection Hst as Hst. subst st'.
  pose proof (HZ a s eq_refl Hs) as Hzero. split.
  - intros b sb Hb Hne. cbn [heap set_heap trace] in *.
    destruct (decide (a = b)) as [<-|Hab].
    + rewrite lookup_insert_eq in Hb. injection Hb as <-. cbn in Hne. contradiction.
    + rewrite lookup_insert_ne in Hb by exact Hab. exact (HI _ _ Hb Hne).
  - intros b sb E Hb. injection E as <-. cbn [heap set_heap] in Hb.
    rewrite lookup_insert_eq in Hb. injection Hb as <-. exact Hzero.
Qed.

Lemma zcalloc_zero_peer :
  hoare peers_explained zcalloc (fun r st => peers_explained st /\ zero_peer_at r st).
Proof.
  intros st r st' HI H. unfold zcalloc in H. destruct (mem_left st).
  - injection H as <- <-. split; [exact HI|]. intros a s E. discriminate.
  - injection H as <- <-. split.
    + intros b sb Hb Hne. cbn [heap set_heap set_alloc trace] in *.
      destruct (decide (next_block st = b)) as [Eb|Hab].
      * subst b. rewrite lookup_insert_eq in Hb. injection Hb as Hb. subst sb.
        now destruct Hne.
      * rewrite lookup_insert_ne in Hb by exact Hab. exact (HI _ _ Hb Hne).
    + intros b sb E Hb. injection E as <-. cbn [heap set_heap set_alloc] in Hb.
      rewrite lookup_insert_eq in Hb. injection Hb as Hb. now subst sb.
Qed.

Lemma zts_alloc_zero_peer ztflags :
  hoare peers_explained (zts_alloc ztflags)
        (fun r st => peers_explained st /\ zero_peer_at r st).
Proof.
  unfold zts_alloc. eapply hoare_bind; [apply zcalloc_zero_peer|].
  intros [a|]; [|now apply hoare_ret].
  eapply hoare_bind; [apply set_fd_zero_peer|]. intros ?.
  eapply hoare_bind; [apply hoare_quiet_zero; auto with quiet_db|]. intros ?.
  eapply hoare_bind; [apply hoare_quiet_zero; auto with quiet_db|]. intros ?.
  eapply hoare_bind; [apply hoare_quiet_zero; quiet_steps|]. intros h.
  eapply hoare_bind; [apply hoare_quiet_zero; quiet_steps|]. intros ?.
  now apply hoare_ret.
Qed.

Lemma tcp_socket_zero_peer domain type protocol ztflags :
  hoare peers_explained (tcp_socket domain type protocol ztflags)
        (fun r st => peers_explained st /\ zero_peer_at r st).
Proof.
  unfold tcp_socket. eapply hoare_bind; [apply zts_alloc_zero_peer|].
  intros [a|]; [|now apply hoare_ret].
  eapply hoare_bind; [apply hoare_quiet_zero; auto with quiet_db|]. intros f.
  eapply hoare_bind; [apply set_fd_zero_peer|]. intros ?.
  now apply hoare_ret.
Qed.

Lemma tcp_connect_explained cfg sess addrp zhost d_port :
  hoare peers_explained (tcp_connect cfg sess addrp zhost d_port)
        (fun _ => peers_explained).
Proof.
  intros st r st' HI H.
  apply tcp_connect_inv in H as (a & s & -> & Hs & Hh & Htr & _).
  intros b sb Hb Hne. rewrite Hh in Hb. rewrite Htr.
  destruct (decide (a = b)) as [<-|Hab].
  - rewrite lookup_insert_eq in Hb. injection Hb as <-. cbn.
    exists r. apply in_or_app. right. now left.
  - rewrite lookup_insert_ne in Hb by exact Hab.
    destruct (HI _ _ Hb Hne) as (r' & Hin). exists r'. apply in_or_app. now left.
Qed.

Lemma ztcp_connect_retry_explained fuel cfg sess addr zthost port :
  hoare peers_explained (ztcp_connect_retry fuel cfg sess addr zthost port)
        (fun _ => peers_explained).
Proof.
  induction fuel as [|fuel IH]; simpl.
  - intros st a st' _ H. discriminate.
  - eapply hoare_bind; [apply tcp_connect_explained|]. intros err.
    eapply hoare_bind; [apply hoare_quiet; apply quiet_read|]. intros e.
    eapply hoare_bind; [apply hoare_quiet; apply quiet_read|]. intros ef.
    destruct (negb (err =? 0) && (e =? EINTR) && (ef =? 0)); [exact IH|].
    now apply hoare_ret.
Qed.

Lemma ztcp_connect_for_explained cfg nam sess zthost destport addrs :
  forall err,
  hoare peers_explained (ztcp_connect_for cfg nam sess zthost destport addrs err)
        (fun _ => peers_explained).
Proof.
  induction addrs as [|addr rest IH]; intros err; simpl.
  - now apply hoare_ret.
  - destruct (err =? 0); [now apply hoare_ret|].
    eapply hoare_bind; [apply hoare_quiet; quiet_steps|]. intros ?.
    eapply hoare_bind; [apply hoare_quiet; apply quiet_read|]. intros fuel.
    eapply hoare_bind; [apply ztcp_connect_retry_explained|]. intros err'.
    apply IH.
Qed.

Lemma bin_ztcp_explained cfg nam args ops :
  hoare peers_explained (bin_ztcp cfg nam args ops) (fun _ => peers_explained).
Proof.
  unfold bin_ztcp. destruct (ops "c"%char).
  - apply hoare_quiet. quiet_steps.
  - destruct args as [|a0 rest]; [apply hoare_quiet; quiet_steps|].
    eapply hoare_bind; [apply hoare_quiet; apply quiet_read|]. intros zthost.
    eapply hoare_bind; [apply hoare_quiet; apply quiet_read|]. intros ef.
    destruct zthost as [zthost|]; [|apply hoare_quiet; quiet_steps].
    destruct (negb (ef =? 0)); [apply hoare_quiet; quiet_steps|].
    eapply hoare_bind; [apply tcp_socket_zero_peer|]. intros sess.
    eapply hoare_weaken with (P' := peers_explained) (Q' := fun _ => peers_explained);
      [|now intros st (HI & _)|auto].
    eapply hoare_bind; [apply hoare_quiet; unfold get_fd; quiet_steps|]. intros ?.
    destruct sess as [sa|]; [|apply hoare_quiet; quiet_steps].
    eapply hoare_bind; [apply hoare_quiet; quiet_steps|]. intros f.
    destruct (f <? 0); [apply hoare_quiet; unfold get_errno; quiet_steps|].
    eapply hoare_bind; [apply ztcp_connect_for_explained|]. intros err.
    apply hoare_quiet. unfold get_errno. quiet_steps.
Qed.

Lemma do_calls_explained cfg cs :
  hoare peers_explained (do_calls cfg cs) (fun _ => peers_explained).
Proof.
  induction cs as [|c cs IH]; simpl; [now apply hoare_ret|].
  eapply hoare_bind; [|intros ?; exact IH].
  destruct c; simpl.
  - eapply hoare_bind; [apply tcp_socket_zero_peer|]. intros ?.
    apply hoare_ret. now intros st (HI & _).
  - eapply hoare_bind; [apply tcp_connect_explained|]. intros ?. now apply hoare_ret.
  - apply hoare_quiet. quiet_steps.
  - eapply hoare_bind; [apply bin_ztcp_explained|]. intros ?. now apply hoare_ret.
  - apply hoare_quiet. unfold cleanup_. quiet_steps.
Qed.

(** C5, as the code has it.  Start from a store without records and make
    any calls to the module.  Afterwards a session whose peer address is
    not all zero has had [connect] issued through the pointer to its own
    [peer] member, with exactly that address, whatever [connect] answered;
    so a session for which no [connect] was ever issued, whatever number
    its descriptor has and whoever held that number before, still has the
    all-zero peer address [zcalloc] gave it.  And a call of [tcp_connect]
    whose copy stays within bounds returns, and leaves the address it
    tried in the session whether [connect] succeeds or fails. *)
Theorem peer_zero_until_connect_is_tried cfg cs st st' :
  heap st = ∅ ->
  do_calls cfg cs st = Ok tt st' ->
  (forall a s, heap st' !! a = Some s ->
     (forall sock sa r, ~ In (EvConnect sock (Some a) sa r) (trace st')) ->
     peer s = sockaddr_zero) /\
  (forall a s, heap st' !! a = Some s -> peer s <> sockaddr_zero ->
     exists r, In (EvConnect (fd s) (Some a) (peer s) r) (trace st')) /\
  (forall a s addrp zhost d_port,
     heap st' !! a = Some s ->
     copy_fits cfg zhost addrp ->
     exists r st'',
       tcp_connect cfg (Some a) addrp zhost d_port st' = Ok r st'' /\
       (r = 0 \/ r = -1) /\
       heap st'' !! a =
         Some (Session (fd s) (peer_after_connect cfg addrp zhost d_port (peer s))
                 (flags s) (next s)) /\
       trace st'' = trace st' ++
         [EvConnect (fd s) (Some a)
            (peer_after_connect cfg addrp zhost d_port (peer s)) r]).
Proof.
  intros Hempty Hrun.
  assert (HI : peers_explained st').
  { eapply do_calls_explained; [|exact Hrun].
    intros a s Ha. rewrite Hempty, lookup_empty in Ha. discriminate. }
  split; [|split].
  - intros a s Ha Hnone.
    destruct (decide (peer s = sockaddr_zero)) as [E|Hne]; [exact E|].
    destruct (HI _ _ Ha Hne) as (r & Hin). now apply Hnone in Hin.
  - exact HI.
  - intros a s addrp zhost d_port Ha Hfit.
    destruct (tcp_connect_run cfg st' a s addrp zhost d_port Ha Hfit)
      as (r & st'' & Hc & Hr & Hh & _ & _ & _ & _ & _ & _ & Htr).
    exists r, st''. split; [exact Hc|]. split; [exact Hr|].
    split; [rewrite Hh; apply lookup_insert_eq|exact Htr].
Qed.

(** *** The connection loop of the builtin *)

Lemma succeeded_cons att l : l <> [] -> succeeded (att :: l) = succeeded l.
Proof. intros H. unfold succeeded. destruct l; [congruence|reflexivity]. Qed.

Lemma last_cons_ne {A} (x : A) l : l <> [] -> last (x :: l) = last l.
Proof. intros H. destruct l; [congruence|reflexivity]. Qed.

Lemma try_candidate_nonempty addr script sg :
  fst (fst (try_candidate addr script sg)) <> [].
Proof.
  destruct script as [|o rest]; simpl; [discriminate|].
  destruct (negb (co_errno o =? 0) && (co_errno o =? EINTR) && negb (sg || co_signal o)).
  - destruct (try_candidate addr rest (sg || co_signal o)) as ((l & r) & g). discriminate.
  - discriminate.
Qed.

Ltac finish_conj :=
  repeat match goal with
         | |- _ /\ _ => split; [first [reflexivity|assumption]|]
         end.

Lemma attempt_events_app cfg zthost port sock sess p l1 l2 :
  attempt_events cfg zthost port sock sess p (l1 ++ l2) =
  attempt_events cfg zthost port sock sess p l1 ++
  attempt_events cfg zthost port sock sess (peer_after_attempts cfg zthost port p l1) l2.
Proof.
  revert p. induction l1 as [|att l1 IH]; intros p; simpl; [reflexivity|].
  now rewrite IH.
Qed.

Lemma connects_app t1 t2 : connects (t1 ++ t2) = connects t1 ++ connects t2.
Proof. unfold connects. apply List.filter_app. Qed.

Lemma connects_attempt_events cfg zthost port sock sess p l :
  connects (attempt_events cfg zthost port sock sess p l) =
  attempt_events cfg zthost port sock sess p l.
Proof.
  revert p. induction l as [|att l IH]; intros p; simpl; [reflexivity|].
  unfold connects in *. simpl. now rewrite IH.
Qed.

Lemma session_eta s : Session (fd s) (peer s) (flags s) (next s) = s.
Proof. now destruct s. Qed.

Section ConnectLoop.

Variable cfg : config.
Variable a : positive.
Variable zthost : hostent.

Lemma ztcp_connect_retry_ok addr port script :
  copy_fits cfg zthost addr ->
  forall fuel st s,
  heap st !! a = Some s -> fd s ∈ open_fds st ->
  connect_script st = script -> (length script < fuel)%nat ->
  exists st',
    let '(l, rest, sg) := try_candidate addr script (negb (errflag st =? 0)) in
    ztcp_connect_retry fuel cfg (Some a) addr zthost port st
      = Ok (if succeeded l then 0 else -1) st' /\
    heap st' = <[a := Session (fd s) (peer_after_attempts cfg zthost port (peer s) l)
                          (flags s) (next s)]> (heap st) /\
    open_fds st' = open_fds st /\
    ztcp_head st' = ztcp_head st /\ ztcp_tail st' = ztcp_tail st /\
    connect_script st' = rest /\
    negb (errflag st' =? 0) = sg /\
    trace st' = trace st ++ attempt_events cfg zthost port (fd s) (Some a) (peer s) l /\
    (succeeded l = false -> forall att, last l = Some att -> errno st' = at_errno att).
Proof.
  intros Hfit.
  induction script as [|o rest IH]; intros fuel st s Hs Hopen Hscript Hfuel;
    (destruct fuel as [|fuel]; [simpl in Hfuel; lia|]);
    cbn [ztcp_connect_retry try_candidate].
  - unfold bind at 1. rewrite (tcp_connect_ok _ _ _ _ _ _ _ Hs Hfit).
    unfold sys_connect. st_simpl. rewrite bool_decide_eq_true_2 by exact Hopen.
    rewrite Hscript. unfold bind, get_errno, get_errflag. st_simpl.
    eexists. split; [reflexivity|]. st_simpl.
    finish_conj.
    intros _ att E. injection E as <-. reflexivity.
  - unfold bind at 1. rewrite (tcp_connect_ok _ _ _ _ _ _ _ Hs Hfit).
    unfold sys_connect. st_simpl. rewrite bool_decide_eq_true_2 by exact Hopen.
    rewrite Hscript. destruct o as [e sig]. st_simpl.
    destruct (e =? 0) eqn:Ee.
    + (* success *)
      unfold bind, get_errno, get_errflag. simpl negb. simpl andb.
      eexists. split; [unfold succeeded; simpl; rewrite Ee; reflexivity|].
      unfold ret. simpl peer_after_attempts. simpl attempt_events. rewrite Ee.
      destruct sig; st_simpl; destruct (errflag st =? 0); simpl;
        finish_conj;
        unfold succeeded; simpl; rewrite Ee; discriminate.
    + (* failure *)
      unfold bind at 1. unfold get_errno at 1. st_simpl.
      unfold bind at 1. unfold get_errflag at 1.
      simpl negb at 1.
      destruct (e =? EINTR) eqn:Eintr;
        destruct sig; st_simpl; destruct (errflag st =? 0) eqn:Eef; simpl;
        try (eexists; split; [unfold succeeded; simpl; rewrite Ee; reflexivity|];
             simpl; rewrite ?Ee; st_simpl; rewrite ?Eef;
             finish_conj;
             intros _ att E; injection E as <-; reflexivity).
      (* interrupted, no signal: the same candidate again *)
      set (st1 := emit _ _).
      assert (Hs1 : heap st1 !! a =
                    Some (Session (fd s)
                            (peer_after_connect cfg addr zthost port (peer s))
                            (flags s) (next s))).
      { unfold st1. st_simpl. apply lookup_insert_eq. }
      destruct (IH fuel st1 _ Hs1) as (st' & IH').
      { unfold st1. st_simpl. exact Hopen. }
      { unfold st1. st_simpl. reflexivity. }
      { simpl in Hfuel. lia. }
      replace (negb (errflag st1 =? 0)) with false in IH'
        by (unfold st1; st_simpl; now rewrite Eef).
      pose proof (try_candidate_nonempty addr rest false) as Hne.
      destruct (try_candidate addr rest false) as ((l & rest') & sg).
      simpl in Hne.
      destruct IH' as (Hrun & Hh & Ho & Hhd & Htl & Hcs & Hsg & Htr & Herr).
      exists st'. rewrite succeeded_cons by exact Hne.
      split; [exact Hrun|]. st_simpl_in Hh.
      split.
      { rewrite Hh. unfold st1. st_simpl. now rewrite insert_insert_eq. }
      split; [exact Ho|]. split; [exact Hhd|]. split; [exact Htl|].
      split; [exact Hcs|]. split; [exact Hsg|].
      split.
      { rewrite Htr. unfold st1. st_simpl. simpl attempt_events. rewrite Ee.
        now rewrite <- app_assoc. }
      intros Hfail att Hlast. rewrite last_cons_ne in Hlast by exact Hne. auto.
Qed.

Lemma ztcp_connect_for_ok nam destport candidates :
  forall st s err,
  heap st !! a = Some s -> fd s ∈ open_fds st -> err <> 0 ->
  Forall (copy_fits cfg zthost) candidates ->
  exists err' st',
    let l := connect_protocol candidates (connect_script st) (negb (errflag st =? 0)) in
    ztcp_connect_for cfg nam (Some a) zthost destport candidates err st = Ok err' st' /\
    (err' =? 0) = succeeded l /\
    heap st' = <[a := Session (fd s)
                          (peer_after_attempts cfg zthost (htons destport) (peer s) l)
                          (flags s) (next s)]> (heap st) /\
    open_fds st' = open_fds st /\
    ztcp_head st' = ztcp_head st /\ ztcp_tail st' = ztcp_tail st /\
    connects (trace st') =
      connects (trace st) ++
      attempt_events cfg zthost (htons destport) (fd s) (Some a) (peer s) l /\
    (forall att, last l = Some att -> at_errno att <> 0 -> errno st' = at_errno att) /\
    (l = [] -> errno st' = errno st).
Proof.
  induction candidates as [|addr rest IH]; intros st s err Hs Hopen Herr Hfits.
  - exists err, st. simpl. split; [reflexivity|].
    split; [now apply Z.eqb_neq|].
    split; [rewrite session_eta; symmetry; now apply insert_id|].
    do 3 (split; [reflexivity|]).
    split; [now rewrite app_nil_r|]. split; [discriminate|reflexivity].
  - cbn [ztcp_connect_for connect_protocol].
    pose proof (Forall_inv Hfits) as Hfit. pose proof (Forall_inv_tail Hfits) as Hrest.
    apply Z.eqb_neq in Herr. rewrite Herr.
    set (warn := if negb (h_length zthost =? 4)
                 then zwarnnam nam "address length mismatch" None 0 else ret tt).
    assert (Hwarn : exists st0, warn st = Ok tt st0 /\ heap st0 = heap st /\
              open_fds st0 = open_fds st /\ ztcp_head st0 = ztcp_head st /\
              ztcp_tail st0 = ztcp_tail st /\ connect_script st0 = connect_script st /\
              errflag st0 = errflag st /\ errno st0 = errno st /\
              connects (trace st0) = connects (trace st)).
    { unfold warn. destruct (negb (h_length zthost =? 4)).
      - eexists. split; [reflexivity|]. st_simpl. finish_conj.
        rewrite connects_app. simpl. now rewrite app_nil_r.
      - exists st. now finish_conj. }
    destruct Hwarn as (st0 & Hw & Hh0 & Ho0 & Hhd0 & Htl0 & Hcs0 & Hef0 & Hen0 & Htr0).
    rewrite (bind_ok _ _ _ _ _ Hw). unfold bind at 1.
    assert (Hs0 : heap st0 !! a = Some s) by now rewrite Hh0.
    assert (Hopen0 : fd s ∈ open_fds st0) by now rewrite Ho0.
    destruct (ztcp_connect_retry_ok addr (htons destport)
                (connect_script st0) Hfit (S (length (connect_script st0))) st0 s
                Hs0 Hopen0 eq_refl (Nat.lt_succ_diag_r _)) as (st1 & Hretry).
    rewrite Hcs0, Hef0 in Hretry.
    pose proof (try_candidate_nonempty addr (connect_script st)
                  (negb (errflag st =? 0))) as Hne.
    destruct (try_candidate addr (connect_script st) (negb (errflag st =? 0)))
      as ((l1 & script') & sg).
    simpl in Hne.
    destruct Hretry as (Hrun & Hh1 & Ho1 & Hhd1 & Htl1 & Hcs1 & Hsg1 & Htr1 & Herr1).
    rewrite Hcs0, (bind_ok _ _ _ _ _ Hrun).
    destruct (succeeded l1) eqn:Hsucc.
    + exists 0, st1. split; [now destruct rest|]. split; [now rewrite Hsucc|].
      split; [now rewrite Hh1, Hh0|]. split; [now rewrite Ho1, Ho0|].
      split; [now rewrite Hhd1, Hhd0|]. split; [now rewrite Htl1, Htl0|].
      split.
      { rewrite Htr1, connects_app, connects_attempt_events. now rewrite Htr0. }
      split.
      { intros att Hlast Hatt. unfold succeeded in Hsucc. rewrite Hlast in Hsucc.
        apply Z.eqb_eq in Hsucc. contradiction. }
      intros ->. now destruct Hne.
    + assert (Hs1 : heap st1 !! a =
                Some (Session (fd s)
                        (peer_after_attempts cfg zthost (htons destport) (peer s) l1)
                        (flags s) (next s))).
      { rewrite Hh1. apply lookup_insert_eq. }
      destruct (IH st1 _ (-1) Hs1) as (err' & st' & IH');
        [st_simpl; now rewrite Ho1|lia|exact Hrest|].
      rewrite Hcs1, Hsg1 in IH'. st_simpl_in IH'.
      set (l2 := connect_protocol rest script' sg) in *. cbv zeta in IH'.
      destruct IH' as (Hrun2 & Herr' & Hh' & Ho' & Hhd' & Htl' & Htr' & Hlast' & Hnil').
      exists err', st'. split; [exact Hrun2|].
      split.
      { rewrite Herr'. unfold succeeded. rewrite last_app.
        destruct (last l2) eqn:El2; [reflexivity|].
        destruct l2 as [|x l2'] using rev_ind; [|rewrite last_snoc in El2; discriminate].
        fold (succeeded l1). now rewrite Hsucc. }
      split.
      { rewrite Hh', Hh1, Hh0, insert_insert_eq. unfold peer_after_attempts.
        now rewrite fold_left_app. }
      split; [now rewrite Ho', Ho1, Ho0|].
      split; [now rewrite Hhd', Hhd1, Hhd0|].
      split; [now rewrite Htl', Htl1, Htl0|].
      split.
      { rewrite Htr', Htr1, connects_app, connects_attempt_events, Htr0.
        rewrite attempt_events_app. now rewrite <- app_assoc. }
      split.
      { intros att Hlast Hatt. rewrite last_app in Hlast.
        destruct (last l2) eqn:El2.
        - injection Hlast as ->. now apply Hlast'.
        - destruct l2 as [|x l2'] using rev_ind; [|rewrite last_snoc in El2; discriminate].
          rewrite (Hnil' eq_refl). now apply Herr1. }
      intros E. apply app_eq_nil in E as (-> & _). now destruct Hne.
Qed.

End ConnectLoop.

Lemma lseg_update h a s s' l p q :
  h !! a = Some s -> next s' = next s ->
  lseg h p l q -> lseg (<[a := s']> h) p l q.
Proof.
  intros Hs Hn. revert p. induction l as [|b l IH]; intros p; simpl; [auto|].
  intros (-> & sb & Hb & Hl). split; [reflexivity|].
  destruct (decide (a = b)) as [<-|Hab].
  - exists s'. split; [apply lookup_insert_eq|].
    rewrite Hn. rewrite Hs in Hb. injection Hb as <-. now apply IH.
  - exists sb. split; [now rewrite lookup_insert_ne|]. now apply IH.
Qed.

Lemma sys_socket_inv d t p st f st1 :
  sys_socket d t p st = Ok f st1 ->
  heap st1 = heap st /\ (f = -1 \/ f ∈ open_fds st1) /\
  errflag st1 = errflag st /\ connect_script st1 = connect_script st.
Proof.
  unfold sys_socket. destruct (lowest_free (open_fds st) (fd_limit st)) as [n|];
    intros H; injection H as <- <-; st_simpl.
  - split; [reflexivity|].
    split; [right; apply elem_of_union; left; now apply elem_of_singleton|].
    now split.
  - split; [reflexivity|]. split; [now left|]. now split.
Qed.

Lemma store_inv p s' st u st' :
  store p s' st = Ok u st' ->
  exists a s, p = Some a /\ heap st !! a = Some s /\
    st' = set_heap (<[a := s']> (heap st)) st.
Proof.
  intros H. destruct p as [a|]; [|discriminate].
  destruct (heap st !! a) as [s|] eqn:Hs.
  - rewrite (store_ok _ _ _ _ Hs) in H. injection H as _ <-. now exists a, s.
  - unfold store, bind, load in H. rewrite Hs in H. discriminate.
Qed.

Lemma set_fd_inv p v st u st' :
  set_fd p v st = Ok u st' ->
  exists a s, p = Some a /\ heap st !! a = Some s /\
    st' = set_heap (<[a := Session v (peer s) (flags s) (next s)]> (heap st)) st.
Proof.
  unfold set_fd. intros H. apply bind_inv in H as (s & st1 & Hl & Hst).
  apply load_inv in Hl as (a & -> & Hs & ->).
  rewrite (store_ok _ _ _ _ Hs) in Hst. injection Hst as _ <-. now exists a, s.
Qed.

Lemma set_next_inv p v st u st' :
  set_next p v st = Ok u st' ->
  exists a s, p = Some a /\ heap st !! a = Some s /\
    st' = set_heap (<[a := Session (fd s) (peer s) (flags s) v]> (heap st)) st.
Proof.
  unfold set_next. intros H. apply bind_inv in H as (s & st1 & Hl & Hst).
  apply load_inv in Hl as (a & -> & Hs & ->).
  rewrite (store_ok _ _ _ _ Hs) in Hst. injection Hst as _ <-. now exists a, s.
Qed.

Lemma set_flags_inv p v st u st' :
  set_flags p v st = Ok u st' ->
  exists a s, p = Some a /\ heap st !! a = Some s /\
    st' = set_heap (<[a := Session (fd s) (peer s) v (next s)]> (heap st)) st.
Proof.
  unfold set_flags. intros H. apply bind_inv in H as (s & st1 & Hl & Hst).
  apply load_inv in Hl as (a & -> & Hs & ->).
  rewrite (store_ok _ _ _ _ Hs) in Hst. injection Hst as _ <-. now exists a, s.
Qed.

(** [zts_alloc] leaves the shell's error flag and the kernel's schedule of
    answers alone. *)
Lemma zts_alloc_env ztflags st r st1 :
  zts_alloc ztflags st = Ok r st1 ->
  errflag st1 = errflag st /\ connect_script st1 = connect_script st /\
  open_fds st1 = open_fds st.
Proof.
  unfold zts_alloc. intros H. apply bind_inv in H as (sess & stA & Hz & H).
  assert (HA : errflag stA = errflag st /\ connect_script stA = connect_script st /\
               open_fds stA = open_fds st).
  { unfold zcalloc in Hz. destruct (mem_left st); injection Hz as <- <-; now st_simpl. }
  destruct sess as [a|]; [|injection H as <- <-; exact HA].
  apply bind_inv in H as (u1 & st2 & H1 & H).
  apply set_fd_inv in H1 as (? & ? & _ & _ & ->).
  apply bind_inv in H as (u2 & st3 & H2 & H).
  apply set_next_inv in H2 as (? & ? & _ & _ & ->).
  apply bind_inv in H as (u3 & st4 & H3 & H).
  apply set_flags_inv in H3 as (? & ? & _ & _ & ->).
  apply bind_inv in H as (h & st5 & H4 & H).
  injection H4 as <- <-.
  apply bind_inv in H as (u5 & st6 & H5 & H).
  injection H as <- <-.
  destruct (ztcp_head _).
  - apply bind_inv in H5 as (t & st7 & H6 & H5). injection H6 as <- <-.
    apply set_next_inv in H5 as (? & ? & _ & _ & ->). now st_simpl.
  - apply bind_inv in H5 as (u7 & st7 & H6 & H5).
    injection H6 as <- <-. injection H5 as <- <-. now st_simpl.
Qed.

Lemma tcp_socket_inv d t p ztflags st a st1 :
  tcp_socket d t p ztflags st = Ok (Some a) st1 ->
  exists s, heap st1 !! a = Some s /\ (fd s = -1 \/ fd s ∈ open_fds st1) /\
    errflag st1 = errflag st /\ connect_script st1 = connect_script st.
Proof.
  unfold tcp_socket. intros H. apply bind_inv in H as (sess & stA & Ha & H).
  destruct (zts_alloc_env _ _ _ _ Ha) as (HeA & HcA & _).
  destruct sess as [a'|]; [|discriminate].
  apply bind_inv in H as (f & stB & Hsock & H).
  apply sys_socket_inv in Hsock as (HhB & Hf & HeB & HcB).
  apply bind_inv in H as (u & stC & Hset & H).
  injection H as <- <-.
  apply set_fd_inv in Hset as (a0 & s0 & E & Hs0 & ->). injection E as <-.
  eexists. st_simpl. split; [apply lookup_insert_eq|]. st_simpl.
  split; [exact Hf|]. split; congruence.
Qed.

(** C9, as the code has it.  The command that opens a connection, once the
    host is resolved and the session has its socket, for a host entry
    whose address length fits the member the candidates are copied into
    and whose candidates hold that many bytes.  The [connect] calls it
    issues are those of [connect_protocol]: the candidates in list order,
    the same candidate again while the call fails as interrupted and the
    error flag of the shell is clear, the next candidate after any other
    failure, nothing after the first success.  If the last call succeeded
    the line announcing the descriptor is printed; otherwise the warning
    that the connection failed is issued with the errno of the last call.
    In both cases the status is 0 and the session is still allocated, with
    its descriptor and its link, in a registry of the same shape. *)
Theorem ztcp_connect_protocol cfg nam host rest ops st zthost a st1 s :
  ops "c"%char = false ->
  resolver st host = Some zthost ->
  errflag st = 0 ->
  tcp_socket PF_INET SOCK_STREAM 0 0 st = Ok (Some a) st1 ->
  heap st1 !! a = Some s ->
  0 <= fd s ->
  Forall (copy_fits cfg zthost) (h_addr_list zthost) ->
  let destport := match rest with [] => 23 | a1 :: _ => atoi a1 end in
  let l := connect_protocol (h_addr_list zthost) (connect_script st1) false in
  exists st',
    bin_ztcp cfg nam (host :: rest) ops st = Ok 0 st' /\
    connects (trace st') =
      connects (trace st1) ++
      attempt_events cfg zthost (htons destport) (fd s) (Some a) (peer s) l /\
    (if succeeded l
     then last (trace st') =
          Some (EvPrintf "%s:%d is now on fd %d\n" [PS host; PD destport; PD (fd s)])
     else exists e,
          last (trace st') = Some (EvWarn (Some nam) "connection failed: %e" None e) /\
          forall att, last l = Some att -> e = at_errno att) /\
    heap st' = <[a := Session (fd s)
                          (peer_after_attempts cfg zthost (htons destport) (peer s) l)
                          (flags s) (next s)]> (heap st1) /\
    ztcp_head st' = ztcp_head st1 /\ ztcp_tail st' = ztcp_tail st1 /\
    open_fds st' = open_fds st1 /\
    forall reg, registry st1 reg -> registry st' reg.
Proof.
  intros Hc Hres Hef Hsock Hs Hfd Hfits destport l.
  destruct (tcp_socket_inv _ _ _ _ _ _ _ Hsock) as (s' & Hs' & Hopen & Hef1 & _).
  rewrite Hs in Hs'. injection Hs' as <-.
  destruct Hopen as [E|Hopen]; [lia|].
  unfold bin_ztcp. rewrite Hc. fold destport.
  unfold bind at 1. unfold zsh_getipnodebyname. rewrite Hres.
  unfold bind at 1. unfold get_errflag at 1. rewrite Hef.
  change (negb (0 =? 0)) with false. cbv iota.
  rewrite (bind_ok _ _ _ _ _ Hsock).
  set (oob := if SO_OOBINLINE cfg
              then let* f := get_fd (Some a) in sys_setsockopt f else ret tt).
  assert (Hoob : exists st2, oob st1 = Ok tt st2 /\ heap st2 = heap st1 /\
            open_fds st2 = open_fds st1 /\ ztcp_head st2 = ztcp_head st1 /\
            ztcp_tail st2 = ztcp_tail st1 /\ connect_script st2 = connect_script st1 /\
            errflag st2 = errflag st1 /\ connects (trace st2) = connects (trace st1)).
  { unfold oob. destruct (SO_OOBINLINE cfg).
    - rewrite (bind_ok _ _ _ _ _ (get_fd_ok _ _ _ Hs)).
      unfold sys_setsockopt. rewrite bool_decide_eq_true_2 by exact Hopen.
      eexists. split; [reflexivity|]. st_simpl. finish_conj.
      rewrite connects_app. simpl. now rewrite app_nil_r.
    - exists st1. now finish_conj. }
  destruct Hoob as (st2 & Hoob & Hh2 & Ho2 & Hhd2 & Htl2 & Hcs2 & Hef2 & Htr2).
  rewrite (bind_ok _ _ _ _ _ Hoob).
  assert (Hs2 : heap st2 !! a = Some s) by now rewrite Hh2.
  rewrite (bind_ok _ _ _ _ _ (get_fd_ok _ _ _ Hs2)).
  replace (fd s <? 0) with false by (symmetry; apply Z.ltb_ge; lia).
  destruct (ztcp_connect_for_ok cfg a zthost nam destport (h_addr_list zthost)
              st2 s 1 Hs2 ltac:(now rewrite Ho2) ltac:(lia) Hfits)
    as (err & st3 & Hfor).
  rewrite Hcs2, Hef2, Hef1, Hef in Hfor. simpl negb in Hfor.
  fold l in Hfor. cbv zeta in Hfor.
  destruct Hfor as (Hrun & Herr & Hh3 & Ho3 & Hhd3 & Htl3 & Htr3 & Hlast3 & Hnil3).
  rewrite (bind_ok _ _ _ _ _ Hrun).
  assert (Hs3 : heap st3 !! a =
            Some (Session (fd s)
                    (peer_after_attempts cfg zthost (htons destport) (peer s) l)
                    (flags s) (next s))).
  { rewrite Hh3. apply lookup_insert_eq. }
  assert (Hreg : forall reg, registry st1 reg ->
            lseg (heap st3) (ztcp_head st1) reg NULL).
  { intros reg Hr. rewrite Hh3, Hh2. eapply lseg_update; [exact Hs|reflexivity|exact Hr]. }
  rewrite Herr.
  destruct (succeeded l) eqn:Hsucc; simpl negb; cbv iota.
  - rewrite !bind_bind. rewrite (bind_ok _ _ _ _ _ (get_fd_ok _ _ _ Hs3)).
    eexists. split; [reflexivity|]. st_simpl.
    split.
    { rewrite connects_app, Htr3, Htr2. simpl. now rewrite app_nil_r. }
    split; [now rewrite last_snoc|].
    split; [now rewrite Hh3, Hh2|].
    split; [now rewrite Hhd3, Hhd2|]. split; [now rewrite Htl3, Htl2|].
    split; [now rewrite Ho3, Ho2|].
    intros reg Hr. unfold registry. st_simpl. rewrite Hhd3, Hhd2. now apply Hreg.
  - rewrite !bind_bind. unfold bind at 1. unfold get_errno at 1.
    eexists. split; [reflexivity|]. st_simpl.
    split.
    { rewrite connects_app, Htr3, Htr2. simpl. now rewrite app_nil_r. }
    split.
    { exists (errno st3). split; [now rewrite last_snoc|].
      intros att Hatt. apply Hlast3; [exact Hatt|].
      unfold succeeded in Hsucc. rewrite Hatt in Hsucc. now apply Z.eqb_neq. }
    split; [now rewrite Hh3, Hh2|].
    split; [now rewrite Hhd3, Hhd2|]. split; [now rewrite Htl3, Htl2|].
    split; [now rewrite Ho3, Ho2|].
    intros reg Hr. unfold registry. st_simpl. rewrite Hhd3, Hhd2. now apply Hreg.
Qed.

(** C9 as the specification words it fails on the code.  Two candidates;
    the first call is interrupted by a signal whose handler raises the
    error flag, the second call would succeed.  The builtin does not try
    the first candidate again: it moves on and connects to the second. *)
Lemma interrupted_with_errflag_moves_on :
  exists st',
    bin_ztcp example_config "ztcp" ["localhost"%string] (opts EmptyString)
      (example_state [Outcome EINTR true; Outcome 0 false]) = Ok 0 st' /\
    connect_targets (trace st') = [[127; 0; 0; 1]; [10; 0; 0; 1]] /\
    map at_addr (connect_protocol_claimed (h_addr_list example_host)
                   [Outcome EINTR true; Outcome 0 false])
      = [[127; 0; 0; 1]; [127; 0; 0; 1]] /\
    connect_targets (trace st') <>
    map at_addr (connect_protocol_claimed (h_addr_list example_host)
                   [Outcome EINTR true; Outcome 0 false]).
Proof.
  eexists. split; [vm_compute; reflexivity|].
  split; [reflexivity|]. split; [reflexivity|]. discriminate.
Qed.

(** ** The theorems at concrete inputs *)

Ltac by_computation :=
  vm_compute; repeat first [reflexivity | split | eexists].

Lemma zts_byfd_first_match_witness :
  registry duplicate_fd [1; 2]%positive /\
  exists r, zts_byfd 3 duplicate_fd = Ok r duplicate_fd /\
    match r with
    | Some a =>
      exists l1 l2 s, [1; 2]%positive = l1 ++ a :: l2 /\
        heap duplicate_fd !! a = Some s /\ fd s = 3 /\
        forall b s', In b l1 -> heap duplicate_fd !! b = Some s' -> fd s' <> 3
    | None =>
      forall b s', In b [1; 2]%positive -> heap duplicate_fd !! b = Some s' -> fd s' <> 3
    end.
Proof.
  assert (H : registry duplicate_fd [1; 2]%positive) by by_computation.
  split; [exact H|].
  apply (zts_byfd_first_match duplicate_fd [1; 2]%positive 3 H). discriminate.
Defined.

Lemma tcp_close_twice_witness :
  (fd (Session 3 sockaddr_zero 0 NULL) = -1 ->
   tcp_close (Some 1%positive) one_session = Ok (-1) one_session) /\
  exists r1 st1 st2,
    tcp_close (Some 1%positive) one_session = Ok r1 st1 /\
    (r1 = 0 \/ r1 = -1) /\
    (fd (Session 3 sockaddr_zero 0 NULL) <> -1 ->
     fd (Session 3 sockaddr_zero 0 NULL) ∈ open_fds one_session ->
     hd 0 (close_script one_session) = 0 -> r1 = 0) /\
    heap st1 = heap one_session /\ ztcp_head st1 = ztcp_head one_session /\
    ztcp_tail st1 = ztcp_tail one_session /\
    tcp_close (Some 1%positive) st1 = Ok (-1) st2 /\
    heap st2 = heap one_session /\ ztcp_head st2 = ztcp_head one_session /\
    ztcp_tail st2 = ztcp_tail one_session /\
    (fd (Session 3 sockaddr_zero 0 NULL) <> -1 ->
     trace st2 = trace st1 ++ [EvClose (fd (Session 3 sockaddr_zero 0 NULL)) (-1);
                               EvWarn None "connection close failed: %e" None EBADF]).
Proof.
  apply (tcp_close_twice one_session 1%positive (Session 3 sockaddr_zero 0 NULL)).
  vm_compute. reflexivity.
Defined.

(** C7 as the specification words it fails on the code.  A session that
    has no descriptor: [tcp_close] returns the failure value, and the trace
    stays empty, so the failure is reported nowhere but in that value. *)
Lemma close_without_descriptor_is_silent :
  exists s st',
    heap no_socket !! 1%positive = Some s /\ fd s = -1 /\
    tcp_close (Some 1%positive) no_socket = Ok (-1) st' /\
    trace st' = [] /\
    forall nam fmt str num, ~ In (EvWarn nam fmt str num) (trace st').
Proof.
  eexists _, _. split; [vm_compute; reflexivity|]. split; [reflexivity|].
  split; [vm_compute; reflexivity|]. split; [reflexivity|].
  intros nam fmt str num [].
Qed.

Lemma ztcp_close_zftp_witness :
  (exists r st1 st',
     tcp_close (Some 2%positive) zftp_second = Ok r st1 /\
     heap st1 = heap zftp_second /\ ztcp_head st1 = ztcp_head zftp_second /\
     open_fds st1 = open_fds zftp_second ∖ {[4]} /\
     (exists evs, trace st1 = trace zftp_second ++ evs /\
        (4 <> -1 -> exists r', hd_error evs = Some (EvClose 4 r'))) /\
     zts_delete (Some 2%positive) st1 = Ok 0 st' /\
     bin_ztcp example_config "ztcp" ["4"%string] (opts "cf") zftp_second = Ok 0 st' /\
     exists sp, heap zftp_second !! 1%positive = Some sp /\
       st' = free_successor NULL
               (set_heap (<[1%positive := Session (fd sp) (peer sp) (flags sp) NULL]>
                            (heap st1)) st1) /\
       heap st' !! 2%positive = Some (Session 4 sockaddr_zero 1 NULL)) /\
  bin_ztcp example_config "ztcp" ["4"%string] (opts "c") zftp_second =
  Ok 1 (emit (EvWarn (Some "ztcp"%string)
                "use -f to force closure of a zftp control connection" None 0)
          zftp_second) /\
  (exists r st1 st',
     tcp_close (Some 1%positive) zftp_session = Ok r st1 /\
     heap st1 = heap zftp_session /\ ztcp_head st1 = ztcp_head zftp_session /\
     open_fds st1 = open_fds zftp_session ∖ {[3]} /\
     (exists evs, trace st1 = trace zftp_session ++ evs /\
        (3 <> -1 -> exists r', hd_error evs = Some (EvClose 3 r'))) /\
     zts_delete (Some 1%positive) st1 = Ok 0 st' /\
     bin_ztcp example_config "ztcp" ["3"%string] (opts "cf") zftp_session = Ok 0 st' /\
     st' = set_alloc (next_block st1) (S (mem_left st1))
             (set_heap (delete 1%positive (heap st1)) (set_ztcp_head NULL st1)) /\
     heap st' !! 1%positive = None).
Proof.
  assert (Hreg : registry zftp_second ([1%positive] ++ 2%positive :: []))
    by by_computation.
  assert (Hs : heap zftp_second !! 2%positive = Some (Session 4 sockaddr_zero 1 NULL))
    by (vm_compute; reflexivity).
  assert (Hfd : fd (Session 4 sockaddr_zero 1 NULL) = atoi "4")
    by (vm_compute; reflexivity).
  assert (Hbefore : forall b s', In b [1%positive] ->
            heap zftp_second !! b = Some s' -> fd s' <> atoi "4").
  { intros b s' [<-|[]] H. vm_compute in H. injection H as <-. discriminate. }
  assert (Hflag : Z.land (flags (Session 4 sockaddr_zero 1 NULL))
                    (ZTCP_ZFTP example_config) <> 0) by discriminate.
  split; [|split].
  - apply (ztcp_close_zftp example_config "ztcp" "4" [] (opts "cf") zftp_second
             [1%positive] 2%positive [] (Session 4 sockaddr_zero 1 NULL)
             Hreg Hs Hfd Hbefore Hflag eq_refl).
  - apply (ztcp_close_zftp example_config "ztcp" "4" [] (opts "c") zftp_second
             [1%positive] 2%positive [] (Session 4 sockaddr_zero 1 NULL)
             Hreg Hs Hfd Hbefore Hflag eq_refl).
  - apply (ztcp_close_zftp example_config "ztcp" "3" [] (opts "cf") zftp_session
             [] 1%positive [] (Session 3 sockaddr_zero 1 NULL)).
    + by_computation.
    + vm_compute. reflexivity.
    + vm_compute. reflexivity.
    + intros b s' [].
    + discriminate.
    + reflexivity.
Defined.

Lemma tcp_cleanup_reads_freed_record_witness :
  registry one_session [1%positive] /\
  tcp_cleanup one_session = Fault (InvalidPointer 1%positive).
Proof.
  assert (H : registry one_session [1%positive]) by by_computation.
  split; [exact H|].
  apply (tcp_cleanup_reads_freed_record one_session 1%positive [] H).
Defined.

Lemma ztcp_alloc_failure_witness :
  bin_ztcp example_config "ztcp" ["localhost"%string] (opts EmptyString) out_of_memory =
  if SO_OOBINLINE example_config then Fault NullDeref
  else Ok 1 (emit (EvWarn (Some "ztcp"%string)
                     "unable to allocate a TCP session slot" None 0) out_of_memory).
Proof.
  apply (ztcp_alloc_failure example_config "ztcp" "localhost" [] (opts EmptyString)
           out_of_memory example_host); reflexivity.
Defined.

Lemma peer_zero_until_connect_is_tried_witness :
  (forall a s, heap one_session !! a = Some s ->
     (forall sock sa r, ~ In (EvConnect sock (Some a) sa r) (trace one_session)) ->
     peer s = sockaddr_zero) /\
  (forall a s, heap one_session !! a = Some s -> peer s <> sockaddr_zero ->
     exists r, In (EvConnect (fd s) (Some a) (peer s) r) (trace one_session)) /\
  (forall a s addrp zhost d_port,
     heap one_session !! a = Some s ->
     copy_fits example_config zhost addrp ->
     exists r st'',
       tcp_connect example_config (Some a) addrp zhost d_port one_session
         = Ok r st'' /\
       (r = 0 \/ r = -1) /\
       heap st'' !! a =
         Some (Session (fd s)
                 (peer_after_connect example_config addrp zhost d_port (peer s))
                 (flags s) (next s)) /\
       trace st'' = trace one_session ++
         [EvConnect (fd s) (Some a)
            (peer_after_connect example_config addrp zhost d_port (peer s)) r]).
Proof.
  apply (peer_zero_until_connect_is_tried example_config
           [Call_tcp_socket PF_INET SOCK_STREAM 0 0] initial_state one_session).
  - reflexivity.
  - vm_compute. reflexivity.
Defined.

Lemma ztcp_connect_protocol_witness :
  exists st',
    bin_ztcp example_config "ztcp" ["localhost"%string] (opts EmptyString)
      (example_state retry_script) = Ok 0 st' /\
    connects (trace st') =
      connects (trace (example_socket retry_script)) ++
      attempt_events example_config example_host (htons 23)
        (fd (Session 3 sockaddr_zero 0 NULL)) (Some 1%positive)
        (peer (Session 3 sockaddr_zero 0 NULL))
        (connect_protocol (h_addr_list example_host)
           (connect_script (example_socket retry_script)) false) /\
    (if succeeded (connect_protocol (h_addr_list example_host)
                     (connect_script (example_socket retry_script)) false)
     then last (trace st') =
          Some (EvPrintf "%s:%d is now on fd %d\n"
                  [PS "localhost"; PD 23; PD (fd (Session 3 sockaddr_zero 0 NULL))])
     else exists e,
          last (trace st') =
            Some (EvWarn (Some "ztcp"%string) "connection failed: %e" None e) /\
          forall att,
            last (connect_protocol (h_addr_list example_host)
                    (connect_script (example_socket retry_script)) false) = Some att ->
            e = at_errno att) /\
    heap st' =
      <[1%positive :=
          Session (fd (Session 3 sockaddr_zero 0 NULL))
            (peer_after_attempts example_config example_host (htons 23)
               (peer (Session 3 sockaddr_zero 0 NULL))
               (connect_protocol (h_addr_list example_host)
                  (connect_script (example_socket retry_script)) false))
            (flags (Session 3 sockaddr_zero 0 NULL))
            (next (Session 3 sockaddr_zero 0 NULL))]>
        (heap (example_socket retry_script)) /\
    ztcp_head st' = ztcp_head (example_socket retry_script) /\
    ztcp_tail st' = ztcp_tail (example_socket retry_script) /\
    open_fds st' = open_fds (example_socket retry_script) /\
    forall reg, registry (example_socket retry_script) reg -> registry st' reg.
Proof.
  apply (ztcp_connect_protocol example_config "ztcp" "localhost" [] (opts EmptyString)
           (example_state retry_script) example_host 1%positive
           (example_socket retry_script) (Session 3 sockaddr_zero 0 NULL)).
  - reflexivity.
  - reflexivity.
  - reflexivity.
  - vm_compute. reflexivity.
  - vm_compute. reflexivity.
  - vm_compute. discriminate.
  - repeat constructor; vm_compute; discriminate.
Defined.

(** What the protocol amounts to on that schedule: the first candidate
    twice, then the second. *)
Example connect_protocol_retry_script :
  connect_protocol (h_addr_list example_host) retry_script false =
  [Attempt [127; 0; 0; 1] EINTR; Attempt [127; 0; 0; 1] ECONNREFUSED;
   Attempt [10; 0; 0; 1] 0].
Proof. reflexivity. Qed.

(** C5 as the specification words it fails on the code.  A session gets
    its socket and one [tcp_connect] that the kernel refuses: no connect
    has succeeded, the session is in the registry, and its peer address is
    the address that was tried. *)
Lemma failed_connect_leaves_peer_address :
  exists st s,
    do_calls example_config
      [Call_tcp_socket PF_INET SOCK_STREAM 0 0;
       Call_tcp_connect (Some 1%positive) [127; 0; 0; 1] example_host (htons 23)]
      initial_state = Ok tt st /\
    registry st [1%positive] /\
    heap st !! 1%positive = Some s /\
    (forall sock p sa r, In (EvConnect sock p sa r) (trace st) -> r = -1) /\
    peer s = Sockaddr AF_INET (htons 23) [127; 0; 0; 1] (zero_bytes 16) 0 /\
    peer s <> sockaddr_zero.
Proof.
  eexists _, _. split; [vm_compute; reflexivity|].
  split; [by_computation|]. split; [vm_compute; reflexivity|].
  split.
  - intros sock p sa r [E|[E|[]]]; [discriminate|now injection E].
  - split; [reflexivity|discriminate].
Qed.

(** ** Further properties of the registry *)

Lemma allocated_length (h : gmap positive tcp_session) l :
  List.NoDup l -> (forall a, In a l -> is_Some (h !! a)) ->
  (length l <= size h)%nat.
Proof.
  intros Hnd Hall.
  assert (Hnd' : base.NoDup l) by now apply NoDup_ListNoDup.
  rewrite <- (size_list_to_set (C := gset positive) l Hnd').
  rewrite <- size_dom. apply subseteq_size.
  intros a Ha. apply elem_of_list_to_set in Ha.
  apply elem_of_dom. apply list_elem_of_In in Ha. auto.
Qed.

Lemma traverse_loop_ok l : forall fuel p st,
  lseg (heap st) p l NULL -> (length l <= fuel)%nat ->
  traverse_loop fuel p st = Ok l st.
Proof.
  induction l as [|a l IH]; intros fuel p st Hl Hfuel; simpl in Hl.
  - subst p. now destruct fuel.
  - destruct Hl as (-> & s & Hs & Hl).
    destruct fuel as [|fuel]; [simpl in Hfuel; lia|]. simpl.
    rewrite (bind_ok _ _ _ _ _ (get_next_ok _ _ _ Hs)).
    rewrite (bind_ok _ _ _ _ _ (IH fuel _ _ Hl ltac:(simpl in Hfuel; lia))).
    reflexivity.
Qed.

(** X1.  On a registry that holds the sessions [l], the walk with
    [zts_head] and [zts_next] ends, changes nothing, and meets exactly the
    sessions of [l], each once and in the order of the list. *)
Theorem traverse_registry st l :
  registry st l -> traverse st = Ok l st.
Proof.
  intros Hreg. pose proof (lseg_length _ _ _ Hreg) as Hlen.
  unfold traverse, zts_head, bind.
  apply traverse_loop_ok; [exact Hreg|]. unfold walk_fuel. lia.
Qed.

Lemma zts_alloc_empty_ok ztflags st m :
  ztcp_head st = NULL -> mem_left st = S m ->
  zts_alloc ztflags st =
  Ok (Some (next_block st))
     (set_ztcp_head (Some (next_block st))
        (set_ztcp_tail (Some (next_block st))
           (set_heap (<[next_block st := Session (-1) sockaddr_zero ztflags NULL]> (heap st))
              (set_alloc (Pos.succ (next_block st)) m st)))).
Proof.
  intros Hh Hm. unfold zts_alloc.
  unfold bind at 1. unfold zcalloc. rewrite Hm.
  erewrite bind_ok; [|apply set_fd_ok; st_simpl; apply lookup_insert_eq].
  erewrite bind_ok; [|apply set_next_ok; st_simpl; apply lookup_insert_eq].
  erewrite bind_ok; [|apply set_flags_ok; st_simpl; apply lookup_insert_eq].
  unfold bind at 1. unfold zts_head at 1. st_simpl. rewrite Hh.
  unfold bind, modify, ret. st_simpl. rewrite !insert_insert_eq. reflexivity.
Qed.

(** X2.  The first allocation.  On an empty registry, with memory left,
    [zts_alloc] returns a new record with descriptor [-1], the flags given,
    an all-zero peer address and no successor; the registry is that
    session alone and both [ztcp_head] and [ztcp_tail] designate it.  No
    other record changes and nothing is asked of the kernel. *)
Theorem zts_alloc_on_empty_registry ztflags st m :
  ztcp_head st = NULL -> mem_left st = S m ->
  exists st',
    zts_alloc ztflags st = Ok (Some (next_block st)) st' /\
    registry st' [next_block st] /\
    ztcp_tail st' = Some (next_block st) /\
    heap st' = <[next_block st := Session (-1) sockaddr_zero ztflags NULL]> (heap st) /\
    trace st' = trace st /\ open_fds st' = open_fds st.
Proof.
  intros Hh Hm. eexists. split; [now apply (zts_alloc_empty_ok _ _ m)|].
  st_simpl. split; [|auto].
  unfold registry. st_simpl. simpl. split; [reflexivity|].
  eexists. split; [apply lookup_insert_eq|]. reflexivity.
Qed.

Lemma zts_alloc_stale_tail_fault ztflags st h t m :
  ztcp_head st = Some h -> ztcp_tail st = Some t ->
  heap st !! t = None -> next_block st <> t -> mem_left st = S m ->
  zts_alloc ztflags st = Fault (InvalidPointer t).
Proof.
  intros Hh Ht Hnone Hne Hm. unfold zts_alloc.
  unfold bind at 1. unfold zcalloc. rewrite Hm.
  erewrite bind_ok; [|apply set_fd_ok; st_simpl; apply lookup_insert_eq].
  erewrite bind_ok; [|apply set_next_ok; st_simpl; apply lookup_insert_eq].
  erewrite bind_ok; [|apply set_flags_ok; st_simpl; apply lookup_insert_eq].
  unfold bind at 1. unfold zts_head at 1. st_simpl. rewrite Hh.
  rewrite bind_bind. unfold bind at 1. st_simpl. rewrite Ht.
  unfold bind at 1. unfold set_next, bind at 1. unfold load. st_simpl.
  rewrite !lookup_insert_ne by exact Hne. now rewrite Hnone.
Qed.

(** X3.  On a registry that is not empty and whose first session is the
    one [ztcp_tail] designates, an allocation makes the new session the
    successor of the first: the registry is then the first session and the
    new one, whatever sessions followed the first before, and [ztcp_tail]
    has not moved. *)
Theorem zts_alloc_replaces_the_rest ztflags st a l m :
  registry st (a :: l) -> ztcp_tail st = Some a ->
  mem_left st = S m -> heap st !! next_block st = None ->
  exists st', zts_alloc ztflags st = Ok (Some (next_block st)) st' /\
    registry st' [a; next_block st] /\ ztcp_tail st' = Some a /\
    (forall b, In b l -> ~ visits (heap st') (ztcp_head st') b).
Proof.
  intros Hreg Ht Hm Hfresh.
  pose proof (lseg_NoDup _ _ _ Hreg) as Hnd.
  destruct (zts_alloc_drops_sessions ztflags st a l m Hreg Ht Hm Hfresh)
    as (st' & Hrun & Hreg' & Ht').
  exists st'. split; [exact Hrun|]. split; [exact Hreg'|]. split; [exact Ht'|].
  intros b Hb Hv.
  destruct (visits_lseg _ _ _ _ _ Hreg' (or_introl eq_refl) Hv) as [Hin|E];
    [|discriminate].
  inversion Hnd as [|? ? Hnin _]; subst.
  destruct Hin as [<-|[<-|[]]]; [contradiction|].
  destruct (lseg_allocated _ _ _ _ (next_block st) Hreg (or_intror Hb)) as (s & Hs).
  congruence.
Qed.

(** X4.  Once the session [ztcp_tail] designates has been deleted while
    the registry still holds another, the next allocation stores the link
    through a pointer to a freed record: the run stops on that access. *)
Theorem zts_alloc_through_stale_tail ztflags st h t m :
  ztcp_head st = Some h -> ztcp_tail st = Some t ->
  heap st !! t = None -> next_block st <> t -> mem_left st = S m ->
  zts_alloc ztflags st = Fault (InvalidPointer t).
Proof. apply zts_alloc_stale_tail_fault. Qed.

(** *** Deleting *)

Lemma zts_delete_scan_to_last l : forall fuel x sess st,
  lseg (heap st) (Some x) l NULL ->
  (forall a, sess = Some a -> ~ In a l) ->
  (length l <= fuel)%nat ->
  exists z sz, last l = Some z /\ heap st !! z = Some sz /\ next sz = NULL /\
    zts_delete_scan fuel (Some x) sess st = Ok (Some z) st.
Proof.
  induction l as [|b l IH]; intros fuel x sess st Hl Hout Hfuel; simpl in Hl.
  - discriminate.
  - destruct Hl as (E & s & Hs & Hl). injection E as <-.
    destruct fuel as [|fuel]; [simpl in Hfuel; lia|]. simpl.
    rewrite (bind_ok _ _ _ _ _ (get_next_ok _ _ _ Hs)).
    destruct l as [|c l'].
    + simpl in Hl. rewrite Hl. exists x, s.
      split; [reflexivity|]. split; [exact Hs|]. split; [exact Hl|].
      unfold ptr_eqb. rewrite (bool_decide_eq_true_2 (NULL = NULL)) by reflexivity.
      now rewrite andb_false_r.
    + pose proof Hl as Hl0. simpl in Hl. destruct Hl as (En & _). rewrite En.
      unfold ptr_eqb. rewrite bool_decide_eq_false_2.
      2:{ intros E. symmetry in E. apply (Hout c E). right. now left. }
      rewrite bool_decide_eq_false_2 by discriminate. cbn [negb andb].
      unfold zts_next.
      rewrite (bind_ok _ _ _ _ _ (get_next_ok _ _ _ Hs)). rewrite En.
      rewrite En in Hl0.
      destruct (IH fuel c sess st Hl0) as (z & sz & Hlast & Hz & Hnz & Hrun).
      { intros a Ea Hin. apply (Hout a Ea). now right. }
      { simpl in Hfuel. simpl. lia. }
      exists z, sz. split; [exact Hlast|]. now split.
Qed.

Lemma zts_delete_absent_ok st l sess :
  registry st l -> l <> [] ->
  (forall a, sess = Some a -> ~ In a l) ->
  zts_delete sess st = Ok 1 st.
Proof.
  intros Hreg Hne Hout. pose proof (lseg_length _ _ _ Hreg) as Hlen.
  unfold registry in Hreg. destruct l as [|x l]; [congruence|].
  pose proof Hreg as Hreg0. simpl in Hreg. destruct Hreg as (Hh & _).
  unfold zts_delete, zts_head, bind at 1. rewrite Hh.
  unfold ptr_eqb at 1. rewrite bool_decide_eq_false_2.
  2:{ intros E. symmetry in E. apply (Hout x E). now left. }
  unfold bind at 1. rewrite Hh in Hreg0.
  destruct (zts_delete_scan_to_last _ (walk_fuel st) x sess st Hreg0 Hout)
    as (z & sz & _ & Hz & Hnz & Hrun); [unfold walk_fuel; lia|].
  rewrite (bind_ok _ _ _ _ _ Hrun).
  rewrite (bind_ok _ _ _ _ _ (get_next_ok _ _ _ Hz)). rewrite Hnz.
  reflexivity.
Qed.

(** X5.  Deleting what is not there.  On a registry that is not empty,
    [zts_delete] of a pointer that is none of its sessions ([NULL]
    included) walks to the end of the list, returns 1 and changes nothing. *)
Theorem zts_delete_absent st l sess :
  registry st l -> l <> [] ->
  (forall a, sess = Some a -> ~ In a l) ->
  zts_delete sess st = Ok 1 st.
Proof. apply zts_delete_absent_ok. Qed.

Lemma zts_delete_empty_fault st sess :
  ztcp_head st = NULL -> zts_delete sess st = Fault NullDeref.
Proof.
  intros Hh. unfold zts_delete, zts_head, bind at 1. rewrite Hh.
  destruct sess as [a|]; reflexivity.
Qed.

(** X6.  On the empty registry [zts_delete] never returns: for the null
    pointer it reads the link of the target, for any other pointer the
    link of the head, and both pointers are [NULL]. *)
Theorem zts_delete_on_empty_registry st sess :
  ztcp_head st = NULL -> zts_delete sess st = Fault NullDeref.
Proof. apply zts_delete_empty_fault. Qed.

Lemma zts_delete_first_ok st a l :
  registry st (a :: l) ->
  exists st', zts_delete (Some a) st = Ok 0 st' /\
    registry st' l /\
    heap st' = delete a (heap st) /\
    ztcp_tail st' = ztcp_tail st /\
    trace st' = trace st /\ next_block st' = next_block st.
Proof.
  intros Hreg. pose proof (lseg_NoDup _ _ _ Hreg) as Hnd.
  pose proof Hreg as Hreg0. unfold registry in Hreg. simpl in Hreg.
  destruct Hreg as (_ & s & Hs & Hl).
  eexists. split; [eapply zts_delete_head; eassumption|].
  st_simpl. split; [|auto].
  unfold registry. st_simpl.
  eapply lseg_frame; [|exact Hl]. intros b Hb.
  apply lookup_delete_ne. intros ->. inversion Hnd. contradiction.
Qed.

(** X7.  Deleting the first session of the registry returns 0, frees its
    record and makes its successor the head: the registry is the rest of
    the list, in the same order, and no other record changes.
    [ztcp_tail] is left as it was, also when it designated that session. *)
Theorem zts_delete_first st a l :
  registry st (a :: l) ->
  exists st', zts_delete (Some a) st = Ok 0 st' /\
    registry st' l /\
    heap st' = delete a (heap st) /\
    ztcp_tail st' = ztcp_tail st /\
    trace st' = trace st.
Proof.
  intros Hreg.
  destruct (zts_delete_first_ok st a l Hreg) as (st' & H1 & H2 & H3 & H4 & H5 & _).
  exists st'. auto.
Qed.

Lemma zts_delete_last_ok st l1 p a :
  registry st (l1 ++ [p; a]) ->
  exists st' sp,
    zts_delete (Some a) st = Ok 0 st' /\
    heap st !! p = Some sp /\
    heap st' = <[p := Session (fd sp) (peer sp) (flags sp) NULL]> (heap st) /\
    registry st' (l1 ++ [p]) /\
    heap st' !! a = heap st !! a /\ is_Some (heap st' !! a) /\
    mem_left st' = mem_left st /\ ztcp_tail st' = ztcp_tail st /\
    next_block st' = next_block st /\ open_fds st' = open_fds st.
Proof.
  intros Hreg. pose proof (lseg_NoDup _ _ _ Hreg) as Hnd.
  assert (Hinp : In p (l1 ++ [p; a])) by (apply in_or_app; right; now left).
  assert (Hina : In a (l1 ++ [p; a])) by (apply in_or_app; right; right; now left).
  destruct (lseg_allocated _ _ _ _ _ Hreg Hinp) as (sp & Hp).
  destruct (lseg_allocated _ _ _ _ _ Hreg Hina) as (sa & Ha).
  pose proof (zts_delete_inner st l1 p a [] sp sa Hreg Hp Ha) as Hrun.
  assert (Hpa : p <> a).
  { apply NoDup_remove_2 in Hnd. intros ->. apply Hnd.
    apply in_or_app. right. now left. }
  assert (Hpl1 : ~ In p l1).
  { apply NoDup_remove_2 in Hnd. intros Hi. apply Hnd. apply in_or_app. now left. }
  unfold registry in Hreg. apply lseg_app in Hreg as (r & Hl1 & Hrest).
  simpl in Hrest. destruct Hrest as (-> & sp' & Hsp' & (_ & sa' & Hsa' & Hend)).
  rewrite Hp in Hsp'. injection Hsp' as <-.
  rewrite Ha in Hsa'. injection Hsa' as <-.
  rewrite Hend in Hrun. simpl in Hrun.
  eexists _, sp. split; [exact Hrun|]. st_simpl.
  split; [exact Hp|]. split; [reflexivity|].
  split.
  { unfold registry. st_simpl. apply lseg_app. exists (Some p). split.
    - eapply lseg_frame; [|exact Hl1]. intros b Hb.
      apply lookup_insert_ne. intros ->. contradiction.
    - simpl. split; [reflexivity|]. eexists. split; [apply lookup_insert_eq|].
      reflexivity. }
  rewrite lookup_insert_ne by exact Hpa. rewrite Ha. eauto 8.
Qed.

(** X8.  Deleting the last session of a registry of two or more returns 0
    and takes it off the list: its predecessor gets the link [NULL] and the
    registry is the list without it.  The record of the deleted session is
    not freed: it stays allocated as it was, and the allocator gets nothing
    back. *)
Theorem zts_delete_last st l1 p a :
  registry st (l1 ++ [p; a]) ->
  exists st' sp,
    zts_delete (Some a) st = Ok 0 st' /\
    heap st !! p = Some sp /\
    heap st' = <[p := Session (fd sp) (peer sp) (flags sp) NULL]> (heap st) /\
    registry st' (l1 ++ [p]) /\
    heap st' !! a = heap st !! a /\ is_Some (heap st' !! a) /\
    mem_left st' = mem_left st /\ ztcp_tail st' = ztcp_tail st.
Proof.
  intros Hreg.
  destruct (zts_delete_last_ok st l1 p a Hreg)
    as (st' & sp & H1 & H2 & H3 & H4 & H5 & H6 & H7 & H8 & _).
  exists st', sp. auto 10.
Qed.

Lemma traverse_loop_dangling l : forall fuel p st b,
  lseg (heap st) p l (Some b) -> heap st !! b = None ->
  (length l < fuel)%nat ->
  traverse_loop fuel p st = Fault (InvalidPointer b).
Proof.
  induction l as [|a l IH]; intros fuel p st b Hl Hb Hfuel; simpl in Hl.
  - subst p. destruct fuel as [|fuel]; [lia|]. simpl.
    unfold bind, get_next, bind, load. now rewrite Hb.
  - destruct Hl as (-> & s & Hs & Hl).
    destruct fuel as [|fuel]; [lia|]. simpl.
    rewrite (bind_ok _ _ _ _ _ (get_next_ok _ _ _ Hs)).
    unfold bind. rewrite (IH fuel _ _ b Hl Hb); [reflexivity|]. simpl in Hfuel. lia.
Qed.

(** X9.  Deleting a session that has both a predecessor and a successor
    returns 0 and leaves the list broken: the record of the deleted session
    stays allocated, the record of its successor is the one freed, and the
    predecessor is linked to that freed record, so that the next walk from
    the head stops on an access to freed memory. *)
Theorem zts_delete_middle st l1 p a b l2 :
  registry st (l1 ++ p :: a :: b :: l2) ->
  exists st', zts_delete (Some a) st = Ok 0 st' /\
    is_Some (heap st' !! a) /\
    heap st' !! b = None /\
    traverse st' = Fault (InvalidPointer b).
Proof.
  intros Hreg. pose proof (lseg_NoDup _ _ _ Hreg) as Hnd.
  destruct (zts_delete_frees_successor st l1 p a (b :: l2) Hreg)
    as (st' & sa & Hrun & Ha' & Hb').
  specialize (Hb' b eq_refl).
  exists st'. split; [exact Hrun|]. split; [eauto|]. split; [exact Hb'|].
  assert (Hinp : In p (l1 ++ p :: a :: b :: l2)) by (apply in_or_app; right; now left).
  assert (Hina : In a (l1 ++ p :: a :: b :: l2))
    by (apply in_or_app; right; right; now left).
  destruct (lseg_allocated _ _ _ _ _ Hreg Hinp) as (sp & Hp).
  destruct (lseg_allocated _ _ _ _ _ Hreg Hina) as (sa0 & Ha).
  rewrite (zts_delete_inner st l1 p a (b :: l2) sp sa0 Hreg Hp Ha) in Hrun.
  injection Hrun as <-.
  assert (Hpl1 : ~ In p l1).
  { apply NoDup_remove_2 in Hnd. intros Hi. apply Hnd. apply in_or_app. now left. }
  assert (Hb1 : ~ In b (l1 ++ [p])).
  { replace (l1 ++ p :: a :: b :: l2) with ((l1 ++ [p; a]) ++ b :: l2) in Hnd
      by now rewrite <- app_assoc.
    apply NoDup_remove_2 in Hnd. intros Hi. apply Hnd. apply in_or_app. left.
    apply in_app_or in Hi as [Hi|Hi]; apply in_or_app;
      [now left | right; simpl in *; tauto]. }
  unfold registry in Hreg. apply lseg_app in Hreg as (r & Hl1 & Hrest).
  simpl in Hrest.
  destruct Hrest as (-> & sp' & Hsp' & (_ & sa' & Hsa' & (En & _))).
  rewrite Hp in Hsp'. injection Hsp' as <-.
  rewrite Ha in Hsa'. injection Hsa' as <-.
  rewrite En in *. simpl in *.
  set (h1 := <[p := Session (fd sp) (peer sp) (flags sp) (Some b)]> (heap st)) in *.
  assert (Hseg : lseg (delete b h1) (ztcp_head st) (l1 ++ [p]) (Some b)).
  { eapply lseg_frame with (h := h1).
    - intros c Hc. apply lookup_delete_ne. intros ->. contradiction.
    - apply lseg_app. exists (Some p). split.
      + eapply lseg_frame; [|exact Hl1]. intros c Hc. unfold h1.
        apply lookup_insert_ne. intros ->. contradiction.
      + simpl. split; [reflexivity|]. eexists.
        split; [apply lookup_insert_eq|]. reflexivity. }
  unfold traverse, zts_head, bind. st_simpl.
  apply traverse_loop_dangling with (l := l1 ++ [p]); st_simpl.
  - exact Hseg.
  - apply lookup_delete_eq.
  - unfold walk_fuel. st_simpl.
    assert ((length (l1 ++ [p]) <= size (delete b h1))%nat); [|lia].
    apply allocated_length.
    + replace (l1 ++ p :: a :: b :: l2) with ((l1 ++ [p]) ++ a :: b :: l2) in Hnd
        by now rewrite <- app_assoc.
      now apply List.NoDup_app_remove_r in Hnd.
    + intros c Hc. destruct (lseg_allocated _ _ _ _ _ Hseg Hc) as (sc & Hsc). eauto.
Qed.

(** *** Steps that leave the list alone *)

Lemma same_links_refl st : same_links st st.
Proof. unfold same_links. auto. Qed.

Lemma same_links_trans st1 st2 st3 :
  same_links st1 st2 -> same_links st2 st3 -> same_links st1 st3.
Proof.
  intros (A1 & B1 & C1 & D1) (A2 & B2 & C2 & D2).
  split; [congruence|]. split; [congruence|]. split; [congruence|].
  intros a. now rewrite D2, D1.
Qed.

Lemma still_ret {A} (a : A) : still (ret a).
Proof. intros st b st' H. injection H as _ <-. apply same_links_refl. Qed.

Lemma still_stop {A} f : still (@stop A f).
Proof. intros st b st' H. discriminate. Qed.

Lemma still_bind {A B} (m : M A) (k : A -> M B) :
  still m -> (forall a, still (k a)) -> still (bind m k).
Proof.
  intros Hm Hk st b st' H. apply bind_inv in H as (a & st1 & H1 & H2).
  eapply same_links_trans; [eapply Hm|eapply Hk]; eassumption.
Qed.

Lemma still_same_heap {A} (m : M A) :
  (forall st a st', m st = Ok a st' ->
     heap st' = heap st /\ next_block st' = next_block st /\
     ztcp_head st' = ztcp_head st /\ ztcp_tail st' = ztcp_tail st) ->
  still m.
Proof.
  intros Hm st a st' H. destruct (Hm _ _ _ H) as (Hh & Hn & Hhd & Htl).
  repeat split; try assumption. intros b. now rewrite Hh.
Qed.

Ltac same_all :=
  apply still_same_heap; intros st a st' H;
  repeat match type of H with
         | context [match ?x with _ => _ end] => destruct x
         | context [if ?x then _ else _] => destruct x
         end;
  try discriminate; injection H as <- <-; simpl; auto.

Lemma still_load p : still (load p).
Proof. unfold load. same_all. Qed.

Lemma still_emit e : still (modify (emit e)).
Proof. unfold modify. same_all. Qed.

Lemma still_read {A} (f : state -> A) : still (fun st => Ok (f st) st).
Proof. same_all. Qed.

Lemma still_sys_socket d t p : still (sys_socket d t p).
Proof. unfold sys_socket. same_all. Qed.

Lemma still_sys_setsockopt f : still (sys_setsockopt f).
Proof. unfold sys_setsockopt. same_all. Qed.

Lemma still_sys_close f : still (sys_close f).
Proof. unfold sys_close. same_all. Qed.

Lemma still_sys_connect f p sa n : still (sys_connect f p sa n).
Proof. unfold sys_connect. same_all. Qed.

Lemma same_links_insert st a s s' :
  heap st !! a = Some s -> next s' = next s ->
  same_links st (set_heap (<[a := s']> (heap st)) st).
Proof.
  intros Hs Hn. repeat split. st_simpl. intros b.
  destruct (decide (a = b)) as [<-|Hne].
  - rewrite lookup_insert_eq, Hs. simpl. now rewrite Hn.
  - now rewrite lookup_insert_ne.
Qed.

Lemma still_set_fd p v : still (set_fd p v).
Proof.
  intros st u st' H. apply set_fd_inv in H as (a & s & -> & Hs & ->).
  now apply (same_links_insert _ _ s).
Qed.

Lemma still_set_flags p v : still (set_flags p v).
Proof.
  intros st u st' H. apply set_flags_inv in H as (a & s & -> & Hs & ->).
  now apply (same_links_insert _ _ s).
Qed.

Lemma still_set_peer p v : still (set_peer p v).
Proof.
  intros st u st' H. destruct p as [a|].
  - destruct (heap st !! a) as [s|] eqn:Hs.
    + rewrite (set_peer_ok _ _ _ _ Hs) in H. injection H as _ <-.
      now apply (same_links_insert _ _ s).
    + unfold set_peer, bind, load in H. rewrite Hs in H. discriminate.
  - discriminate.
Qed.

Lemma still_memcpy size dst src n : still (memcpy size dst src n).
Proof.
  intros st r st' H. apply memcpy_inv in H as (_ & _ & _ & ->).
  apply same_links_refl.
Qed.

Lemma still_upd_peer p f : still (upd_peer p f).
Proof.
  intros st u st' H. destruct p as [a|].
  - destruct (heap st !! a) as [s|] eqn:Hs.
    + rewrite (upd_peer_ok _ _ _ _ Hs) in H. injection H as _ <-.
      now apply (same_links_insert _ _ s).
    + unfold upd_peer, get_peer, bind, load in H. rewrite Hs in H. discriminate.
  - discriminate.
Qed.

Create HintDb still_db.

#[export] Hint Resolve still_ret still_stop still_load still_emit
  still_sys_socket still_sys_setsockopt still_sys_close still_sys_connect
  still_set_fd still_set_flags still_upd_peer still_set_peer still_memcpy : still_db.

Ltac still_steps :=
  repeat first
    [ solve [auto with still_db]
    | apply still_read
    | apply still_bind; [|intros ?]
    | match goal with
      | |- still (match ?x with _ => _ end) => destruct x
      | |- still (if ?x then _ else _) => destruct x
      end ].

Lemma still_get_fd p : still (get_fd p).
Proof. unfold get_fd. still_steps. Qed.
Lemma still_get_flags p : still (get_flags p).
Proof. unfold get_flags. still_steps. Qed.
Lemma still_get_next p : still (get_next p).
Proof. unfold get_next. still_steps. Qed.
Lemma still_get_peer p : still (get_peer p).
Proof. unfold get_peer. still_steps. Qed.

#[export] Hint Resolve still_get_fd still_get_flags still_get_next
  still_get_peer : still_db.

Lemma still_zts_head : still zts_head.
Proof. unfold zts_head. still_steps. Qed.

Lemma still_zts_next p : still (zts_next p).
Proof. unfold zts_next. still_steps. Qed.

#[export] Hint Resolve still_zts_head still_zts_next : still_db.

Lemma still_zts_byfd_loop fuel : forall t target, still (zts_byfd_loop fuel t target).
Proof. induction fuel as [|fuel IH]; intros t target; simpl; still_steps. Qed.

#[export] Hint Resolve still_zts_byfd_loop : still_db.

Lemma still_zts_byfd target : still (zts_byfd target).
Proof. unfold zts_byfd. still_steps. Qed.

Lemma still_zwarn fmt str num : still (zwarn fmt str num).
Proof. unfold zwarn. still_steps. Qed.

Lemma still_zwarnnam nam fmt str num : still (zwarnnam nam fmt str num).
Proof. unfold zwarnnam. still_steps. Qed.

Lemma still_fprintf_shout fmt args : still (fprintf_shout fmt args).
Proof. unfold fprintf_shout. still_steps. Qed.

#[export] Hint Resolve still_zts_byfd still_zwarn still_zwarnnam
  still_fprintf_shout : still_db.

Lemma still_tcp_close sess : still (tcp_close sess).
Proof. unfold tcp_close, get_errno. still_steps. Qed.

Lemma still_tcp_connect cfg sess addrp zhost d_port :
  still (tcp_connect cfg sess addrp zhost d_port).
Proof. unfold tcp_connect. still_steps. Qed.

#[export] Hint Resolve still_tcp_close still_tcp_connect : still_db.

Lemma still_ztcp_list_loop fuel cfg : forall sess, still (ztcp_list_loop fuel cfg sess).
Proof.
  induction fuel as [|fuel IH]; intros sess; destruct sess; simpl;
    unfold gethostbyaddr; still_steps.
Qed.

Lemma still_ztcp_connect_retry fuel cfg sess addr zthost port :
  still (ztcp_connect_retry fuel cfg sess addr zthost port).
Proof.
  induction fuel as [|fuel IH]; simpl; unfold get_errno, get_errflag; still_steps.
Qed.

#[export] Hint Resolve still_ztcp_list_loop still_ztcp_connect_retry : still_db.

Lemma still_ztcp_connect_for cfg nam sess zthost destport addrs :
  forall err, still (ztcp_connect_for cfg nam sess zthost destport addrs err).
Proof. induction addrs as [|addr rest IH]; intros err; simpl; still_steps. Qed.

#[export] Hint Resolve still_ztcp_connect_for : still_db.

(** *** The registry never grows beyond two sessions *)

Lemma lseg_same_links h h' l p q :
  (forall a, next <$> (h' !! a) = next <$> (h !! a)) ->
  lseg h p l q -> lseg h' p l q.
Proof.
  intros Hsame. revert p. induction l as [|b l IH]; intros p; simpl; [auto|].
  intros (-> & s & Hs & Hl). split; [reflexivity|].
  specialize (Hsame b). rewrite Hs in Hsame. simpl in Hsame.
  destruct (h' !! b) as [s'|]; [|discriminate].
  injection Hsame as Hn. exists s'. split; [reflexivity|]. rewrite Hn. auto.
Qed.

Lemma small_registry_same_links st st' :
  same_links st st' -> small_registry st -> small_registry st'.
Proof.
  intros (Hn & Hhd & Htl & Hsame) (Hb & Ht & Hshape).
  assert (Hreg : forall l, registry st l -> registry st' l).
  { intros l Hl. unfold registry. rewrite Hhd. eapply lseg_same_links; eassumption. }
  assert (Hsome : forall a, is_Some (heap st' !! a) <-> is_Some (heap st !! a)).
  { intros a. specialize (Hsame a).
    destruct (heap st' !! a), (heap st !! a); simpl in Hsame;
      split; intros [x Hx]; try discriminate; eauto. }
  split; [|split].
  - intros a Ha. rewrite Hn. apply Hb. now apply Hsome.
  - intros t Et. rewrite Hn. apply Ht. congruence.
  - destruct Hshape as [H0 | [(a & H1 & Htail) | (a & b & H2 & Htail)]].
    + left. auto.
    + right. left. exists a. split; [auto|].
      destruct Htail as [E | (t & E & Hnone)]; [left; congruence|].
      right. exists t. split; [congruence|].
      destruct (heap st' !! t) eqn:E'; [|reflexivity].
      assert (is_Some (heap st !! t)) as [x Hx] by (apply Hsome; eauto). congruence.
    + right. right. exists a, b. split; [auto|congruence].
Qed.

Lemma hoare_still {A} (m : M A) :
  still m -> hoare small_registry m (fun _ => small_registry).
Proof. intros Hm st a st' HI H. eapply small_registry_same_links; [eapply Hm|]; eassumption. Qed.

Lemma fresh_block st :
  small_registry st -> heap st !! next_block st = None.
Proof.
  intros (Hb & _). destruct (heap st !! next_block st) eqn:E; [|reflexivity].
  assert (next_block st < next_block st)%positive by (apply Hb; eauto). lia.
Qed.

Lemma zts_alloc_small ztflags :
  hoare small_registry (zts_alloc ztflags) (fun _ => small_registry).
Proof.
  intros st r st' HI Hrun. pose proof (fresh_block _ HI) as Hfresh.
  destruct HI as (Hb & Ht & Hshape).
  destruct (mem_left st) as [|m] eqn:Hm.
  { unfold zts_alloc, bind, zcalloc in Hrun. rewrite Hm in Hrun.
    injection Hrun as _ <-. now repeat split. }
  assert (Hbound : forall h' : gmap positive tcp_session,
            (forall a, is_Some (h' !! a) ->
            a = next_block st \/ is_Some (heap st !! a)) ->
            forall a, is_Some (h' !! a) -> (a < Pos.succ (next_block st))%positive).
  { intros h' Hh' a Ha. destruct (Hh' a Ha) as [-> | Hold]; [lia|].
    specialize (Hb a Hold). lia. }
  destruct Hshape as [H0 | [(a & H1 & Htail) | (a & b & H2 & Htail)]].
  - unfold registry in H0. simpl in H0.
    rewrite (zts_alloc_empty_ok _ _ m H0 Hm) in Hrun. injection Hrun as _ <-.
    split; [|split]; st_simpl.
    + apply Hbound. intros c Hc.
      destruct (decide (next_block st = c)) as [<-|Hne]; [now left|].
      rewrite lookup_insert_ne in Hc by exact Hne. now right.
    + intros t E. injection E as <-. lia.
    + right. left. exists (next_block st). split; [|now left].
      unfold registry. st_simpl. simpl. split; [reflexivity|].
      eexists. split; [apply lookup_insert_eq|]. reflexivity.
  - destruct Htail as [Htail | (t & Htail & Hnone)].
    + destruct (zts_alloc_drops_sessions ztflags st a [] m H1 Htail Hm Hfresh)
        as (st'' & Hrun' & Hreg' & Htl').
      rewrite Hrun' in Hrun. injection Hrun as _ <-.
      pose proof H1 as H1'. unfold registry in H1'. simpl in H1'.
      destruct H1' as (Hh & s & Hs & _).
      assert (Hne : next_block st <> a) by (intros E; congruence).
      rewrite (zts_alloc_keeps_tail _ _ a a s m Hh Htail Hs Hm Hne) in Hrun'.
      injection Hrun' as <-.
      split; [|split]; st_simpl.
      * apply Hbound. intros c Hc.
        destruct (decide (a = c)) as [<-|Hac]; [right; eauto|].
        rewrite lookup_insert_ne in Hc by exact Hac.
        destruct (decide (next_block st = c)) as [<-|Hnc]; [now left|].
        rewrite lookup_insert_ne in Hc by exact Hnc. now right.
      * intros t E. specialize (Ht t E). lia.
      * right. right. exists a, (next_block st). split; [exact Hreg'|exact Htail].
    + pose proof H1 as H1'. unfold registry in H1'. simpl in H1'.
      destruct H1' as (Hh & _).
      assert (Hne : next_block st <> t).
      { intros E. specialize (Ht t Htail). lia. }
      rewrite (zts_alloc_stale_tail_fault _ _ a t m Hh Htail Hnone Hne Hm) in Hrun.
      discriminate.
  - destruct (zts_alloc_drops_sessions ztflags st a [b] m H2 Htail Hm Hfresh)
      as (st'' & Hrun' & Hreg' & Htl').
    rewrite Hrun' in Hrun. injection Hrun as _ <-.
    pose proof H2 as H2'. unfold registry in H2'. simpl in H2'.
    destruct H2' as (Hh & s & Hs & _).
    assert (Hne : next_block st <> a) by (intros E; congruence).
    rewrite (zts_alloc_keeps_tail _ _ a a s m Hh Htail Hs Hm Hne) in Hrun'.
    injection Hrun' as <-.
    split; [|split]; st_simpl.
    + apply Hbound. intros c Hc.
      destruct (decide (a = c)) as [<-|Hac]; [right; eauto|].
      rewrite lookup_insert_ne in Hc by exact Hac.
      destruct (decide (next_block st = c)) as [<-|Hnc]; [now left|].
      rewrite lookup_insert_ne in Hc by exact Hnc. now right.
    + intros t E. specialize (Ht t E). lia.
    + right. right. exists a, (next_block st). split; [exact Hreg'|exact Htail].
Qed.

Lemma zts_delete_small sess :
  hoare small_registry (zts_delete sess) (fun _ => small_registry).
Proof.
  intros st r st' (Hb & Ht & Hshape) Hrun.
  destruct Hshape as [H0 | [(a & H1 & Htail) | (a & b & H2 & Htail)]].
  - unfold registry in H0. simpl in H0.
    rewrite (zts_delete_empty_fault _ _ H0) in Hrun. discriminate.
  - destruct (decide (sess = Some a)) as [->|Hne].
    + destruct (zts_delete_first_ok _ _ _ H1)
        as (st'' & Hrun' & Hreg' & Hh' & Htl' & _ & Hn').
      rewrite Hrun' in Hrun. injection Hrun as _ <-.
      split; [|split].
      * intros c Hc. rewrite Hn'. apply Hb. rewrite Hh' in Hc.
        destruct Hc as [x Hx]. apply lookup_delete_Some in Hx as (_ & Hx). eauto.
      * intros t E. rewrite Hn'. apply Ht. congruence.
      * now left.
    + rewrite (zts_delete_absent_ok st [a] sess H1) in Hrun; [|discriminate|].
      * injection Hrun as _ <-. split; [exact Hb|]. split; [exact Ht|].
        right. left. eauto.
      * intros c -> [<-|[]]. congruence.
  - pose proof (lseg_NoDup _ _ _ H2) as Hnd.
    assert (Hab : a <> b).
    { inversion Hnd as [|? ? Hnin _]; subst. intros ->. apply Hnin. now left. }
    destruct (decide (sess = Some a)) as [->|Hna];
      [|destruct (decide (sess = Some b)) as [->|Hnb]].
    + destruct (zts_delete_first_ok _ _ _ H2)
        as (st'' & Hrun' & Hreg' & Hh' & Htl' & _ & Hn').
      rewrite Hrun' in Hrun. injection Hrun as _ <-.
      split; [|split].
      * intros c Hc. rewrite Hn'. apply Hb. rewrite Hh' in Hc.
        destruct Hc as [x Hx]. apply lookup_delete_Some in Hx as (_ & Hx). eauto.
      * intros t E. rewrite Hn'. apply Ht. congruence.
      * right. left. exists b. split; [exact Hreg'|].
        right. exists a. split; [congruence|]. rewrite Hh'. apply lookup_delete_eq.
    + destruct (zts_delete_last_ok st [] a b H2)
        as (st'' & sp & Hrun' & Hp & Hh' & Hreg' & _ & _ & _ & Htl' & Hn' & _).
      rewrite Hrun' in Hrun. injection Hrun as _ <-.
      split; [|split].
      * intros c Hc. rewrite Hn'. apply Hb. rewrite Hh' in Hc.
        destruct (decide (a = c)) as [<-|Hac]; [eauto|].
        now rewrite lookup_insert_ne in Hc.
      * intros t E. rewrite Hn'. apply Ht. congruence.
      * right. left. exists a. split; [exact Hreg'|]. left. congruence.
    + rewrite (zts_delete_absent_ok st [a; b] sess H2) in Hrun; [|discriminate|].
      * injection Hrun as _ <-. split; [exact Hb|]. split; [exact Ht|].
        right. right. eauto.
      * intros c -> [<-|[<-|[]]]; congruence.
Qed.

Lemma tcp_socket_small domain type protocol ztflags :
  hoare small_registry (tcp_socket domain type protocol ztflags)
        (fun _ => small_registry).
Proof.
  unfold tcp_socket. eapply hoare_bind; [apply zts_alloc_small|].
  intros [a|]; [|now apply hoare_ret].
  apply hoare_still. still_steps.
Qed.

Lemma tcp_cleanup_loop_small fuel :
  forall sess, hoare small_registry (tcp_cleanup_loop fuel sess) (fun _ => small_registry).
Proof.
  induction fuel as [|fuel IH]; intros [a|]; simpl;
    try (now apply hoare_ret); try (intros st x st' _ H; discriminate).
  eapply hoare_bind; [apply hoare_still; still_steps|]. intros ?.
  eapply hoare_bind; [apply zts_delete_small|]. intros ?.
  eapply hoare_bind; [apply hoare_still; still_steps|]. intros n.
  apply IH.
Qed.

Lemma tcp_cleanup_small : hoare small_registry tcp_cleanup (fun _ => small_registry).
Proof.
  unfold tcp_cleanup.
  eapply hoare_bind; [apply hoare_still; still_steps|]. intros sess.
  eapply hoare_bind; [apply hoare_still; apply still_read|]. intros fuel.
  apply tcp_cleanup_loop_small.
Qed.

Lemma bin_ztcp_small cfg nam args ops :
  hoare small_registry (bin_ztcp cfg nam args ops) (fun _ => small_registry).
Proof.
  unfold bin_ztcp. destruct (ops "c"%char).
  - destruct args as [|a0 rest].
    + eapply hoare_bind; [apply tcp_cleanup_small|]. intros ?. now apply hoare_ret.
    + eapply hoare_bind; [apply hoare_still; still_steps|]. intros [a|].
      * eapply hoare_bind; [apply hoare_still; still_steps|]. intros fl.
        destruct (negb (Z.land fl (ZTCP_ZFTP cfg) =? 0) && negb (ops "f"%char)).
        -- apply hoare_still. still_steps.
        -- eapply hoare_bind; [apply hoare_still; still_steps|]. intros ?.
           eapply hoare_bind; [apply zts_delete_small|]. intros ?.
           now apply hoare_ret.
      * apply hoare_still. still_steps.
  - destruct args as [|a0 rest]; [apply hoare_still; still_steps|].
    eapply hoare_bind; [apply hoare_still; apply still_read|]. intros zthost.
    eapply hoare_bind; [apply hoare_still; apply still_read|]. intros ef.
    destruct zthost as [zthost|]; [|apply hoare_still; still_steps].
    destruct (negb (ef =? 0)); [apply hoare_still; still_steps|].
    eapply hoare_bind; [apply tcp_socket_small|]. intros sess.
    eapply hoare_bind; [apply hoare_still; still_steps|]. intros ?.
    destruct sess as [sa|]; [|apply hoare_still; still_steps].
    eapply hoare_bind; [apply hoare_still; still_steps|]. intros f.
    destruct (f <? 0).
    + eapply hoare_bind; [apply hoare_still; apply still_read|]. intros e.
      eapply hoare_bind; [apply hoare_still; still_steps|]. intros ?.
      eapply hoare_bind; [apply zts_delete_small|]. intros ?.
      now apply hoare_ret.
    + apply hoare_still. unfold get_errno. still_steps.
Qed.

Lemma do_calls_small cfg cs :
  hoare small_registry (do_calls cfg cs) (fun _ => small_registry).
Proof.
  induction cs as [|c cs IH]; simpl; [now apply hoare_ret|].
  eapply hoare_bind; [|intros ?; exact IH].
  destruct c; simpl.
  - eapply hoare_bind; [apply tcp_socket_small|]. intros ?. now apply hoare_ret.
  - apply hoare_still. still_steps.
  - apply hoare_still. still_steps.
  - eapply hoare_bind; [apply bin_ztcp_small|]. intros ?. now apply hoare_ret.
  - unfold cleanup_.
    eapply hoare_bind with (Q := fun _ => small_registry);
      [|intros ?; now apply hoare_ret].
    eapply hoare_bind; [apply tcp_cleanup_small|]. intros ?. now apply hoare_ret.
Qed.

Lemma run_ops_small ops :
  forall live, hoare small_registry (run_ops ops live) (fun _ => small_registry).
Proof.
  induction ops as [|o ops IH]; intros live; simpl; [now apply hoare_ret|].
  destruct o as [ztflags|sess].
  - eapply hoare_bind; [apply zts_alloc_small|]. intros ?. apply IH.
  - eapply hoare_bind; [apply zts_delete_small|]. intros ?. apply IH.
Qed.

Lemma small_registry_at_load st :
  heap st = ∅ -> ztcp_head st = NULL -> ztcp_tail st = NULL -> small_registry st.
Proof.
  intros Hh Hhd Htl. split; [|split].
  - intros a [x Hx]. rewrite Hh, lookup_empty in Hx. discriminate.
  - intros t E. rewrite Htl in E. discriminate.
  - left. exact Hhd.
Qed.

Lemma small_registry_walk st :
  small_registry st ->
  exists l, registry st l /\ (length l <= 2)%nat /\ traverse st = Ok l st.
Proof.
  intros (_ & _ & Hshape).
  assert (Hwalk : forall l, registry st l -> traverse st = Ok l st).
  { intros l Hl. pose proof (lseg_length _ _ _ Hl) as Hlen.
    unfold traverse, zts_head, bind.
    apply traverse_loop_ok; [exact Hl|]. unfold walk_fuel. lia. }
  destruct Hshape as [H0 | [(a & H1 & _) | (a & b & H2 & _)]].
  - exists []. simpl. auto.
  - exists [a]. simpl. auto.
  - exists [a; b]. simpl. auto.
Qed.

(** X10.  From the state at module load (no record, both list globals
    [NULL]), after any sequence of [zts_alloc] and [zts_delete] calls that
    runs to its end, the registry holds at most two sessions, and the walk
    from the head ends and returns them. *)
Theorem registry_at_most_two_after_ops ops live st live' st' :
  heap st = ∅ -> ztcp_head st = NULL -> ztcp_tail st = NULL ->
  run_ops ops live st = Ok live' st' ->
  exists l, registry st' l /\ (length l <= 2)%nat /\ traverse st' = Ok l st'.
Proof.
  intros Hh Hhd Htl Hrun. apply small_registry_walk.
  eapply run_ops_small; [|exact Hrun]. now apply small_registry_at_load.
Qed.

(** X11.  The same holds for the entry points of the module: from the state
    at module load, after any sequence of calls of [tcp_socket],
    [tcp_connect], [tcp_close], the builtin and the unload hook that runs
    to its end without a fault, the registry holds at most two sessions,
    whatever number of connections were opened.  A run without a fault is
    one in which no call reads or writes through a pointer to no record
    and every copy [tcp_connect] makes stays inside the member it is
    aimed at. *)
Theorem registry_at_most_two_after_calls cfg cs st st' :
  heap st = ∅ -> ztcp_head st = NULL -> ztcp_tail st = NULL ->
  do_calls cfg cs st = Ok tt st' ->
  exists l, registry st' l /\ (length l <= 2)%nat /\ traverse st' = Ok l st'.
Proof.
  intros Hh Hhd Htl Hrun. apply small_registry_walk.
  eapply do_calls_small; [|exact Hrun]. now apply small_registry_at_load.
Qed.

(** ** Further properties of the builtin *)

Lemma first_with_fd_absent h target l p :
  lseg h p l NULL ->
  (forall b s', In b l -> h !! b = Some s' -> fd s' <> target) ->
  first_with_fd h target l = NULL.
Proof.
  revert p. induction l as [|b l IH]; intros p Hl Hno; simpl in *; [reflexivity|].
  destruct Hl as (-> & s & Hs & Hl). rewrite Hs.
  destruct (fd s =? target) eqn:E.
  - apply Z.eqb_eq in E. exfalso. apply (Hno b s); auto.
  - eapply IH; [exact Hl|]. intros c s' Hc. apply Hno. now right.
Qed.

(** X12.  [ztcp -c fd] when the registry is not empty and no session has
    the descriptor: the command returns 1 and all it does is warn that the
    descriptor is not in the table; nothing is closed and nothing deleted. *)
Theorem ztcp_close_unknown_fd cfg nam a0 rest ops st l :
  registry st l -> l <> [] ->
  (forall b s', In b l -> heap st !! b = Some s' -> fd s' <> atoi a0) ->
  ops "c"%char = true ->
  bin_ztcp cfg nam (a0 :: rest) ops st =
  Ok 1 (emit (EvWarn (Some nam) "fd not found in tcp table" None 0) st).
Proof.
  intros Hreg Hne Hno Hc. unfold bin_ztcp. rewrite Hc.
  rewrite (bind_ok _ _ _ _ _ (zts_byfd_ok _ _ (atoi a0) Hreg Hne)).
  rewrite (first_with_fd_absent _ _ _ _ Hreg Hno). reflexivity.
Qed.

(** X13.  [ztcp -c fd] when the registry is empty: the lookup reads the
    descriptor of the head without testing it, and the run stops on the
    null pointer, whatever the descriptor and the other options. *)
Theorem ztcp_close_fd_on_empty_registry cfg nam a0 rest ops st :
  ztcp_head st = NULL -> ops "c"%char = true ->
  bin_ztcp cfg nam (a0 :: rest) ops st = Fault NullDeref.
Proof.
  intros Hh Hc. unfold bin_ztcp. rewrite Hc.
  unfold bind. now rewrite (zts_byfd_empty _ _ Hh).
Qed.


(** X15.  The command that opens a connection, when the host does not
    resolve or the error flag of the shell is already raised: it returns 1
    and all it does is warn about the resolution failure, naming the
    host.  No session is allocated and no socket created. *)
Theorem ztcp_resolution_failure cfg nam host rest ops st :
  ops "c"%char = false ->
  resolver st host = None \/ errflag st <> 0 ->
  bin_ztcp cfg nam (host :: rest) ops st =
  Ok 1 (emit (EvWarn (Some nam) "host resolution failure: %s" (Some host) 0) st).
Proof.
  intros Hc Hfail. unfold bin_ztcp. rewrite Hc.
  unfold bind at 1. unfold zsh_getipnodebyname.
  unfold bind at 1. unfold get_errflag.
  destruct (resolver st host) as [zthost|] eqn:Hres; [|reflexivity].
  destruct Hfail as [E|Hef]; [discriminate|].
  apply Z.eqb_neq in Hef. now rewrite Hef.
Qed.

(** *** When no socket can be had *)

Lemma tcp_socket_fails_empty domain type protocol ztflags st m :
  ztcp_head st = NULL -> mem_left st = S m ->
  lowest_free (open_fds st) (fd_limit st) = None ->
  tcp_socket domain type protocol ztflags st =
  Ok (Some (next_block st))
     (emit (EvSocket (-1))
        (set_errno EMFILE
           (set_ztcp_head (Some (next_block st))
              (set_ztcp_tail (Some (next_block st))
                 (set_heap (<[next_block st := Session (-1) sockaddr_zero ztflags NULL]>
                              (heap st))
                    (set_alloc (Pos.succ (next_block st)) m st)))))).
Proof.
  intros Hh Hm Hlow. unfold tcp_socket.
  rewrite (bind_ok _ _ _ _ _ (zts_alloc_empty_ok _ _ m Hh Hm)).
  unfold bind at 1. unfold sys_socket. st_simpl. rewrite Hlow.
  erewrite bind_ok; [|apply set_fd_ok; st_simpl; apply lookup_insert_eq].
  unfold ret. st_simpl. unfold set_heap. st_simpl.
  now rewrite insert_insert_eq.
Qed.

(** X16.  The command that opens a connection, on an empty registry, when
    the kernel has no descriptor to give.  The session that was allocated
    for the attempt is deleted again and its record freed: the command
    returns 1 with the records, the registry and the open descriptors as
    they were.  The errno in the warning is the one of [socket] only where
    [SO_OOBINLINE] is not defined; where it is, [setsockopt] has been
    called on descriptor [-1] in between and the warning shows its errno. *)
Theorem ztcp_socket_failure cfg nam host rest ops st zthost m :
  ops "c"%char = false ->
  resolver st host = Some zthost ->
  errflag st = 0 ->
  ztcp_head st = NULL -> mem_left st = S m ->
  heap st !! next_block st = None ->
  lowest_free (open_fds st) (fd_limit st) = None ->
  -1 ∉ open_fds st ->
  exists st', bin_ztcp cfg nam (host :: rest) ops st = Ok 1 st' /\
    heap st' = heap st /\ ztcp_head st' = NULL /\
    open_fds st' = open_fds st /\ mem_left st' = mem_left st /\
    trace st' = trace st ++
      EvSocket (-1) ::
      (if SO_OOBINLINE cfg then [EvSetsockopt (-1)] else []) ++
      [EvWarn (Some nam) "socket creation failed: %e" None
         (if SO_OOBINLINE cfg then EBADF else EMFILE)].
Proof.
  intros Hc Hres Hef Hh Hm Hfresh Hlow Hneg.
  unfold bin_ztcp. rewrite Hc.
  unfold bind at 1. unfold zsh_getipnodebyname. rewrite Hres.
  unfold bind at 1. unfold get_errflag at 1. rewrite Hef.
  change (negb (0 =? 0)) with false. cbv iota.
  rewrite (bind_ok _ _ _ _ _ (tcp_socket_fails_empty _ _ _ _ _ m Hh Hm Hlow)).
  destruct (SO_OOBINLINE cfg).
  - rewrite bind_bind.
    erewrite bind_ok; [|apply get_fd_ok; st_simpl; apply lookup_insert_eq].
    unfold bind at 1. unfold sys_setsockopt. st_simpl.
    rewrite bool_decide_eq_false_2 by exact Hneg.
    erewrite bind_ok; [|apply get_fd_ok; st_simpl; apply lookup_insert_eq].
    st_simpl. change (-1 <? 0) with true. cbv iota.
    unfold bind at 1. unfold get_errno. st_simpl.
    unfold bind at 1. unfold zwarnnam, modify.
    unfold bind at 1. unfold zts_delete, zts_head, bind at 1. st_simpl.
    unfold ptr_eqb. rewrite bool_decide_eq_true_2 by reflexivity.
    erewrite bind_ok; [|apply get_next_ok; st_simpl; apply lookup_insert_eq].
    unfold bind, modify, free, ret. st_simpl. rewrite lookup_insert_eq.
    eexists. split; [reflexivity|]. st_simpl.
    split; [now apply delete_insert_id|]. rewrite Hm.
    repeat (split; [reflexivity|]). now rewrite <- !app_assoc.
  - unfold bind at 1. unfold ret at 1.
    erewrite bind_ok; [|apply get_fd_ok; st_simpl; apply lookup_insert_eq].
    st_simpl. change (-1 <? 0) with true. cbv iota.
    unfold bind at 1. unfold get_errno. st_simpl.
    unfold bind at 1. unfold zwarnnam, modify.
    unfold bind at 1. unfold zts_delete, zts_head, bind at 1. st_simpl.
    unfold ptr_eqb. rewrite bool_decide_eq_true_2 by reflexivity.
    erewrite bind_ok; [|apply get_next_ok; st_simpl; apply lookup_insert_eq].
    unfold bind, modify, free, ret. st_simpl. rewrite lookup_insert_eq.
    eexists. split; [reflexivity|]. st_simpl.
    split; [now apply delete_insert_id|]. rewrite Hm.
    repeat (split; [reflexivity|]). now rewrite <- !app_assoc.
Qed.

Lemma tcp_socket_fails_behind_head domain type protocol ztflags st a s m :
  ztcp_head st = Some a -> ztcp_tail st = Some a ->
  heap st !! a = Some s -> mem_left st = S m -> next_block st <> a ->
  lowest_free (open_fds st) (fd_limit st) = None ->
  tcp_socket domain type protocol ztflags st =
  Ok (Some (next_block st))
     (emit (EvSocket (-1))
        (set_errno EMFILE
           (set_heap (<[next_block st := Session (-1) sockaddr_zero ztflags NULL]>
                        (<[a := Session (fd s) (peer s) (flags s) (Some (next_block st))]>
                           (heap st)))
              (set_alloc (Pos.succ (next_block st)) m st)))).
Proof.
  intros Hh Ht Hs Hm Hne Hlow. unfold tcp_socket.
  rewrite (bind_ok _ _ _ _ _ (zts_alloc_keeps_tail _ _ a a s m Hh Ht Hs Hm Hne)).
  unfold bind at 1. unfold sys_socket. st_simpl. rewrite Hlow.
  erewrite bind_ok.
  2:{ apply set_fd_ok. st_simpl. rewrite lookup_insert_ne by congruence.
      apply lookup_insert_eq. }
  unfold ret. st_simpl. unfold set_heap. st_simpl.
  rewrite (insert_insert_ne _ a (next_block st)) by congruence.
  now rewrite insert_insert_eq.
Qed.

(** X17.  The same failure on a registry that is not empty, where
    [ztcp_tail] designates the first session.  The command returns 1 and
    the registry is the first session alone: the session allocated for the
    attempt is taken off the list but its record is not freed, and the
    sessions that followed the first one are no longer on the list
    either. *)
Theorem ztcp_socket_failure_leaks cfg nam host rest ops st zthost a l m :
  ops "c"%char = false ->
  resolver st host = Some zthost ->
  errflag st = 0 ->
  registry st (a :: l) -> ztcp_tail st = Some a -> mem_left st = S m ->
  heap st !! next_block st = None ->
  lowest_free (open_fds st) (fd_limit st) = None ->
  exists st', bin_ztcp cfg nam (host :: rest) ops st = Ok 1 st' /\
    registry st' [a] /\
    heap st' !! next_block st = Some (Session (-1) sockaddr_zero 0 NULL) /\
    mem_left st' = m /\
    open_fds st' = open_fds st.
Proof.
  intros Hc Hres Hef Hreg Ht Hm Hfresh Hlow.
  pose proof Hreg as Hreg0. unfold registry in Hreg0. simpl in Hreg0.
  destruct Hreg0 as (Hh & s & Hs & _).
  assert (Hne : next_block st <> a) by (intros E; congruence).
  unfold bin_ztcp. rewrite Hc.
  unfold bind at 1. unfold zsh_getipnodebyname. rewrite Hres.
  unfold bind at 1. unfold get_errflag at 1. rewrite Hef.
  change (negb (0 =? 0)) with false. cbv iota.
  rewrite (bind_ok _ _ _ _ _
             (tcp_socket_fails_behind_head _ _ _ _ _ a s m Hh Ht Hs Hm Hne Hlow)).
  set (st1 := emit _ _).
  assert (Hnb : heap st1 !! next_block st = Some (Session (-1) sockaddr_zero 0 NULL)).
  { unfold st1. st_simpl. apply lookup_insert_eq. }
  assert (Hreg1 : forall st2, heap st2 = heap st1 -> ztcp_head st2 = ztcp_head st1 ->
            registry st2 [a; next_block st]).
  { intros st2 Hh2 Hhd2. unfold registry. rewrite Hh2, Hhd2. unfold st1. st_simpl.
    simpl. split; [exact Hh|]. eexists.
    split; [rewrite lookup_insert_ne by congruence; apply lookup_insert_eq|].
    st_simpl. split; [reflexivity|]. eexists. split; [apply lookup_insert_eq|].
    reflexivity. }
  set (oob := if SO_OOBINLINE cfg
              then let* f := get_fd (Some (next_block st)) in sys_setsockopt f
              else ret tt).
  assert (Hoob : exists st2, oob st1 = Ok tt st2 /\ heap st2 = heap st1 /\
            ztcp_head st2 = ztcp_head st1 /\ open_fds st2 = open_fds st1 /\
            mem_left st2 = mem_left st1).
  { unfold oob. destruct (SO_OOBINLINE cfg).
    - rewrite (bind_ok _ _ _ _ _ (get_fd_ok _ _ _ Hnb)).
      unfold sys_setsockopt. destruct (bool_decide _); eexists; now finish_conj.
    - exists st1. now finish_conj. }
  destruct Hoob as (st2 & Hoob & Hh2 & Hhd2 & Ho2 & Hm2).
  rewrite (bind_ok _ _ _ _ _ Hoob).
  assert (Hnb2 : heap st2 !! next_block st = Some (Session (-1) sockaddr_zero 0 NULL))
    by now rewrite Hh2.
  rewrite (bind_ok _ _ _ _ _ (get_fd_ok _ _ _ Hnb2)).
  st_simpl. change (-1 <? 0) with true. cbv iota.
  unfold bind at 1. unfold get_errno.
  unfold bind at 1. unfold zwarnnam, modify.
  set (st3 := emit _ st2).
  destruct (zts_delete_last_ok st3 [] a (next_block st))
    as (st' & sp & Hdel & _ & _ & Hreg' & Hkept & _ & Hm' & _ & _ & Ho').
  { apply Hreg1; unfold st3; st_simpl; assumption. }
  rewrite (bind_ok _ _ _ _ _ Hdel).
  exists st'. split; [reflexivity|]. split; [exact Hreg'|].
  split; [rewrite Hkept; unfold st3; st_simpl; exact Hnb2|].
  split; [rewrite Hm'; unfold st3; st_simpl; rewrite Hm2; reflexivity|].
  rewrite Ho'. unfold st3. st_simpl. rewrite Ho2. reflexivity.
Qed.

(** *** The listing *)

Lemma emit_all_nil st : emit_all [] st = st.
Proof. destruct st. unfold emit_all. cbn. now rewrite app_nil_r. Qed.

Lemma emit_all_app es es' st : emit_all es' (emit_all es st) = emit_all (es ++ es') st.
Proof. unfold emit_all. cbn. now rewrite app_assoc. Qed.

Lemma list_line_step cfg a s (k : M unit) st :
  heap st !! a = Some s ->
  (let* f := get_fd (Some a) in
   (if negb (f =? -1) then
      let* p := get_peer (Some a) in
      let* zthost := gethostbyaddr (sin_addr p) AF_INET in
      let* fl := get_flags (Some a) in
      let suffix := if negb (Z.land fl (ZTCP_ZFTP cfg) =? 0)
                    then " ZFTP"%string else EmptyString in
      match zthost with
      | Some h =>
        fprintf_shout "%s:%d is on fd %d%s\n"
          [PS (h_name h); PD (ntohs (sin_port p)); PD f; PS suffix]
      | None =>
        fprintf_shout "%s:%d is on fd %d%s\n"
          [PS "UNKNOWN"%string; PD (sin_port p); PD f; PS suffix]
      end
    else ret tt) ;;; k) st = k (emit_all (list_line cfg st s) st).
Proof.
  intros Hs. rewrite (bind_ok _ _ _ _ _ (get_fd_ok _ _ _ Hs)).
  unfold list_line. destruct (fd s =? -1); cbn [negb].
  - unfold bind, ret. now rewrite emit_all_nil.
  - unfold bind at 1.
    rewrite (bind_ok _ _ _ _ _ (get_peer_ok _ _ _ Hs)).
    unfold bind at 1. unfold gethostbyaddr.
    rewrite (bind_ok _ _ _ _ _ (get_flags_ok _ _ _ Hs)).
    destruct (reverse_resolver st (sin_addr (peer s))); reflexivity.
Qed.

Lemma ztcp_list_loop_ok cfg l : forall fuel p st,
  lseg (heap st) p l NULL -> (length l < fuel)%nat ->
  ztcp_list_loop fuel cfg p st = Ok tt (emit_all (listing cfg st l) st).
Proof.
  induction l as [|a l IH]; intros fuel p st Hl Hfuel; simpl in Hl.
  - subst p. destruct fuel; cbn; now rewrite emit_all_nil.
  - destruct Hl as (-> & s & Hs & Hl).
    destruct fuel as [|fuel]; [simpl in Hfuel; lia|].
    cbn [ztcp_list_loop]. rewrite (list_line_step cfg a s _ st Hs).
    set (st1 := emit_all _ st).
    assert (Hs1 : heap st1 !! a = Some s) by exact Hs.
    unfold zts_next. rewrite (bind_ok _ _ _ _ _ (get_next_ok _ _ _ Hs1)).
    rewrite (IH fuel (next s) st1); [|exact Hl|simpl in Hfuel; lia].
    unfold st1. rewrite emit_all_app. cbn [listing flat_map]. rewrite Hs.
    reflexivity.
Qed.

Lemma ztcp_list_ok cfg nam ops st l :
  ops "c"%char = false -> registry st l ->
  bin_ztcp cfg nam [] ops st = Ok 0 (emit_all (listing cfg st l) st).
Proof.
  intros Hc Hreg. unfold bin_ztcp. rewrite Hc.
  unfold bind at 1. unfold zts_head. unfold bind at 1.
  unfold bind at 1.
  rewrite (ztcp_list_loop_ok cfg l (walk_fuel st) (ztcp_head st) st Hreg).
  - reflexivity.
  - pose proof (lseg_length _ _ _ Hreg). unfold walk_fuel. lia.
Qed.

(** X18.  [ztcp] without arguments on a well-formed registry returns 0 and
    changes nothing but the output: it prints, in registry order, one line
    for each session that has a descriptor and none for a session whose
    descriptor is -1. *)
Theorem ztcp_listing cfg nam ops st l :
  ops "c"%char = false -> registry st l ->
  bin_ztcp cfg nam [] ops st = Ok 0 (emit_all (listing cfg st l) st).
Proof. exact (ztcp_list_ok cfg nam ops st l). Qed.

Lemma htons_htons x : 0 <= x < 65536 -> htons (htons x) = x.
Proof.
  intros Hx. unfold htons. rewrite (Z.mod_small x 65536) by lia.
  assert (H1 : 0 <= x mod 256 < 256) by (apply Z.mod_pos_bound; lia).
  assert (H2 : 0 <= x / 256 < 256).
  { split; [apply Z.div_pos; lia|apply Z.div_lt_upper_bound; lia]. }
  rewrite (Z.mod_small (x mod 256 * 256 + x / 256)) by lia.
  replace ((x mod 256 * 256 + x / 256) mod 256) with (x / 256).
  2:{ rewrite Z.add_comm, Z_mod_plus_full. symmetry. apply Z.mod_small. lia. }
  replace ((x mod 256 * 256 + x / 256) / 256) with (x mod 256).
  2:{ rewrite Z.add_comm, Z_div_plus_full by lia. rewrite (Z.div_small (x / 256)) by lia.
      lia. }
  pose proof (Z_div_mod_eq_full x 256). lia.
Qed.

(** X19.  The port of a listing line.  For a session whose peer port was
    stored by the command that opens a connection, that is as [htons] of
    the port given, the listing prints the port given when the reverse
    lookup of the peer succeeds, and the byte-swapped port beside
    [UNKNOWN] when it fails. *)
Theorem ztcp_listing_port cfg nam ops st l a s destport :
  ops "c"%char = false -> registry st l ->
  In a l -> heap st !! a = Some s -> fd s <> -1 ->
  0 <= destport < 65536 -> sin_port (peer s) = htons destport ->
  exists st' name port suffix,
    bin_ztcp cfg nam [] ops st = Ok 0 st' /\
    In (EvPrintf "%s:%d is on fd %d%s\n" [PS name; PD port; PD (fd s); PS suffix])
       (trace st') /\
    match reverse_resolver st (sin_addr (peer s)) with
    | Some h => name = h_name h /\ port = destport
    | None => name = "UNKNOWN"%string /\ port = htons destport
    end.
Proof.
  intros Hc Hreg Hin Hs Hfd Hport Hp.
  rewrite (ztcp_list_ok cfg nam ops st l Hc Hreg).
  assert (Hline : forall e, In e (list_line cfg st s) ->
            In e (trace (emit_all (listing cfg st l) st))).
  { intros e He. unfold emit_all. cbn. apply in_or_app. right.
    unfold listing. apply in_flat_map. exists a. split; [exact Hin|].
    now rewrite Hs. }
  apply Z.eqb_neq in Hfd.
  unfold list_line in Hline. rewrite Hfd in Hline.
  destruct (reverse_resolver st (sin_addr (peer s))) as [h|].
  - eexists _, (h_name h), destport, _. split; [reflexivity|].
    split; [|split; reflexivity].
    apply Hline. left. unfold ntohs. rewrite Hp, htons_htons by exact Hport.
    reflexivity.
  - eexists _, "UNKNOWN"%string, (htons destport), _. split; [reflexivity|].
    split; [|split; reflexivity].
    apply Hline. left. rewrite Hp. reflexivity.
Qed.

(** *** One call of [tcp_connect] *)

(** X20.  One call of [tcp_connect] for an allocated session, when the
    address length of the host entry fits the member the candidate is
    copied into and the candidate holds that many bytes.  The call returns
    0 or -1, writes the session's peer address whatever [connect] answers,
    and leaves the session's descriptor, flags and link, every other
    record, the registry and the open descriptors as they were.  On a
    descriptor that is not open it returns -1 with [EBADF]. *)
Theorem tcp_connect_frame cfg st l a s addrp zhost d_port :
  registry st l -> heap st !! a = Some s ->
  copy_fits cfg zhost addrp ->
  exists r st', tcp_connect cfg (Some a) addrp zhost d_port st = Ok r st' /\
    (r = 0 \/ r = -1) /\
    registry st' l /\
    heap st' !! a = Some (Session (fd s)
                            (peer_after_connect cfg addrp zhost d_port (peer s))
                            (flags s) (next s)) /\
    (forall b, b <> a -> heap st' !! b = heap st !! b) /\
    ztcp_tail st' = ztcp_tail st /\ open_fds st' = open_fds st /\
    (fd s ∉ open_fds st -> r = -1 /\ errno st' = EBADF).
Proof.
  intros Hreg Hs Hfit.
  destruct (tcp_connect_run cfg st a s addrp zhost d_port Hs Hfit)
    as (r & st' & Hrun & Hr & Hh & Hhd & Htl & Ho & _ & _ & Hbad & _).
  exists r, st'. split; [exact Hrun|]. split; [exact Hr|].
  split.
  { unfold registry. rewrite Hh, Hhd. eapply lseg_update; [exact Hs|reflexivity|].
    exact Hreg. }
  split; [rewrite Hh; apply lookup_insert_eq|].
  split; [intros b Hb; rewrite Hh; now apply lookup_insert_ne|].
  auto.
Qed.


(** *** [tcp_socket] *)

Lemma lowest_free_Some o limit n :
  lowest_free o limit = Some n -> 0 <= n /\ n ∉ o.
Proof.
  unfold lowest_free. intros H. apply find_some in H as (Hin & Hn).
  apply in_map_iff in Hin as (k & <- & _). split; [lia|].
  apply negb_true_iff in Hn. now apply bool_decide_eq_false in Hn.
Qed.

(** X22.  [tcp_socket] on an empty registry, with memory for a record.  It
    returns a new session, alone in the registry and designated by
    [ztcp_tail], whose descriptor is what [socket] returned, whose flags
    are the ones asked for and whose peer address is all zero.  When
    [socket] fails the session is registered all the same, with descriptor
    -1. *)
Theorem tcp_socket_on_empty_registry d t p ztflags st m :
  ztcp_head st = NULL -> mem_left st = S m ->
  exists f st', tcp_socket d t p ztflags st = Ok (Some (next_block st)) st' /\
    registry st' [next_block st] /\ ztcp_tail st' = Some (next_block st) /\
    heap st' = <[next_block st := Session f sockaddr_zero ztflags NULL]> (heap st) /\
    mem_left st' = m /\
    trace st' = trace st ++ [EvSocket f] /\
    ((f = -1 /\ open_fds st' = open_fds st /\ errno st' = EMFILE) \/
     (0 <= f /\ (f ∉ open_fds st) /\ open_fds st' = {[f]} ∪ open_fds st)).
Proof.
  intros Hh Hm. unfold tcp_socket.
  rewrite (bind_ok _ _ _ _ _ (zts_alloc_empty_ok _ _ m Hh Hm)).
  unfold bind at 1. unfold sys_socket. st_simpl.
  destruct (lowest_free (open_fds st) (fd_limit st)) as [n|] eqn:Hlow.
  - erewrite bind_ok; [|apply set_fd_ok; st_simpl; apply lookup_insert_eq].
    exists n. eexists. split; [reflexivity|]. st_simpl.
    split.
    { unfold registry. st_simpl. simpl. split; [reflexivity|]. eexists.
      split; [apply lookup_insert_eq|]. reflexivity. }
    split; [reflexivity|]. split; [now rewrite insert_insert_eq|].
    split; [reflexivity|]. split; [reflexivity|].
    right. apply lowest_free_Some in Hlow as (H0 & Hfresh). auto.
  - erewrite bind_ok; [|apply set_fd_ok; st_simpl; apply lookup_insert_eq].
    exists (-1). eexists. split; [reflexivity|]. st_simpl.
    split.
    { unfold registry. st_simpl. simpl. split; [reflexivity|]. eexists.
      split; [apply lookup_insert_eq|]. reflexivity. }
    split; [reflexivity|]. split; [now rewrite insert_insert_eq|].
    split; [reflexivity|]. split; [reflexivity|].
    left. auto.
Qed.

(** X23.  Without memory for a record [tcp_socket] returns [NULL] and does
    nothing else: no record, no registry change, no call of [socket]. *)
Theorem tcp_socket_out_of_memory d t p ztflags st :
  mem_left st = 0%nat -> tcp_socket d t p ztflags st = Ok NULL st.
Proof.
  intros Hm. unfold tcp_socket, zts_alloc, bind, zcalloc. now rewrite Hm.
Qed.

(** *** The replacements for the RFC 2553 interfaces *)

Lemma bytes_word_bytes v rest :
  0 <= v < 4294967296 -> Shims.bytes_word (Shims.word_bytes v ++ rest) = v.
Proof.
  intros Hv. unfold Shims.bytes_word, Shims.word_bytes. cbn [app nth].
  assert (E2 : v / 65536 = v / 256 / 256) by (rewrite Z.div_div by lia; reflexivity).
  assert (E3 : v / 16777216 = v / 256 / 256 / 256).
  { rewrite !Z.div_div by lia. reflexivity. }
  rewrite E2, E3.
  pose proof (Z_div_mod_eq_full v 256).
  pose proof (Z_div_mod_eq_full (v / 256) 256).
  pose proof (Z_div_mod_eq_full (v / 256 / 256) 256).
  assert (H3 : 0 <= v / 256 / 256 / 256 < 256).
  { rewrite <- E3. split; [apply Z.div_pos; lia|apply Z.div_lt_upper_bound; lia]. }
  rewrite (Z.mod_small (v / 256 / 256 / 256)) by exact H3. lia.
Qed.

(** What every call for [AF_INET] does to [nbuf]: its first four bytes
    become the bytes of what [inet_addr] made of the name. *)
Lemma zsh_getipnodebyname_nbuf cfg L name flags errorp st :
  (4 <= length (Shims.nbuf st))%nat ->
  forall p e st',
  Shims.zsh_getipnodebyname cfg L name AF_INET flags errorp st = (p, e, st') ->
  Shims.nbuf st' =
    Shims.word_bytes (Shims.inet_addr L name mod 4294967296) ++ drop 4 (Shims.nbuf st) /\
  (Shims.ahe_name (Shims.ahe st) = Shims.SPbuf ->
   Shims.ahe_addr_list (Shims.ahe st) = Shims.SAddrlist 0 ->
   Shims.ahe_name (Shims.ahe st') = Shims.SPbuf /\
   Shims.ahe_addr_list (Shims.ahe st') = Shims.SAddrlist 0).
Proof.
  intros Hlen p e st'.
  unfold Shims.zsh_getipnodebyname, Shims.zsh_inet_pton, Shims.zsh_inet_aton.
  change (negb (AF_INET =? AF_INET)) with false. cbv iota.
  destruct (Shims.inet_addr L name mod 4294967296 =? Shims.INADDR_NONE).
  - change ((if 0 =? 0 then 0 else 1) =? 1) with false. cbv iota.
    unfold Shims.zsh_gethostbyname2.
    change (negb (AF_INET =? AF_INET)) with false. cbv iota.
    destruct (Shims.gethostbyname L name); intros H; injection H as _ _ <-;
      cbn; auto.
  - change ((if 1 =? 0 then 0 else 1) =? 1) with true. cbv iota.
    unfold Shims.zsh_inet_ntop.
    change (negb (AF_INET =? AF_INET)) with false. cbv iota.
    destruct (SUPPORT_IPV6 cfg); cbn; intros H; injection H as _ _ <-; cbn; auto.
Qed.

Lemma zsh_getipnodebyname_numeric_ok cfg L name flags errorp st :
  Shims.inet_addr L name mod 4294967296 <> Shims.INADDR_NONE ->
  (4 <= length (Shims.nbuf st))%nat ->
  exists st',
    Shims.zsh_getipnodebyname cfg L name AF_INET flags errorp st
      = (Shims.HeStatic, errorp, st') /\
    Shims.read_hostent st' Shims.HeStatic =
      Some (Hostent (Shims.inet_ntoa L (Shims.inet_addr L name mod 4294967296))
                    AF_INET 4 [Shims.nbuf st']) /\
    Shims.nbuf st' =
      Shims.word_bytes (Shims.inet_addr L name mod 4294967296)
        ++ drop 4 (Shims.nbuf st) /\
    Shims.lookups st' = Shims.lookups st /\
    Shims.sh_errno st' = Shims.sh_errno st /\
    Shims.sh_h_errno st' = Shims.sh_h_errno st /\
    Shims.ahe st' =
      Shims.Ahe Shims.SPbuf (Shims.SAddrlist 1) AF_INET 4 (Shims.SAddrlist 0).
Proof.
  intros Hv Hlen.
  unfold Shims.zsh_getipnodebyname, Shims.zsh_inet_pton, Shims.zsh_inet_aton.
  change (negb (AF_INET =? AF_INET)) with false. cbv iota.
  apply Z.eqb_neq in Hv. rewrite Hv.
  change ((if 1 =? 0 then 0 else 1) =? 1) with true. cbv iota.
  unfold Shims.zsh_inet_ntop.
  change (negb (AF_INET =? AF_INET)) with false. cbv iota.
  assert (Hlenok : ((if SUPPORT_IPV6 cfg then Shims.INET6_ADDRSTRLEN
                     else Shims.INET_ADDRSTRLEN) <? Shims.INET_ADDRSTRLEN) = false)
    by now destruct (SUPPORT_IPV6 cfg).
  rewrite Hlenok. cbn [Shims.nbuf Shims.set_nbuf].
  rewrite bytes_word_bytes by (apply Z.mod_pos_bound; lia).
  eexists. split; [reflexivity|]. cbn. auto 12.
Qed.

(** X24.  A name [inet_addr] can parse is resolved without a lookup.  The
    result is the static entry: its name is the address printed back by
    [inet_ntoa], its type [AF_INET], its length 4, and its one address the
    four bytes [inet_addr] returned, at the start of [nbuf].  Neither
    [errno], [h_errno] nor the caller's error variable is written. *)
Theorem zsh_getipnodebyname_numeric cfg L name flags errorp st :
  Shims.inet_addr L name mod 4294967296 <> Shims.INADDR_NONE ->
  (4 <= length (Shims.nbuf st))%nat ->
  exists st',
    Shims.zsh_getipnodebyname cfg L name AF_INET flags errorp st
      = (Shims.HeStatic, errorp, st') /\
    Shims.read_hostent st' Shims.HeStatic =
      Some (Hostent (Shims.inet_ntoa L (Shims.inet_addr L name mod 4294967296))
                    AF_INET 4 [Shims.nbuf st']) /\
    Shims.nbuf st' =
      Shims.word_bytes (Shims.inet_addr L name mod 4294967296)
        ++ drop 4 (Shims.nbuf st) /\
    Shims.lookups st' = Shims.lookups st /\
    Shims.sh_errno st' = Shims.sh_errno st /\
    Shims.sh_h_errno st' = Shims.sh_h_errno st.
Proof.
  intros Hv Hlen.
  destruct (zsh_getipnodebyname_numeric_ok cfg L name flags errorp st Hv Hlen)
    as (st' & H1 & H2 & H3 & H4 & H5 & H6 & _).
  exists st'. auto 10.
Qed.

(** X25.  For any family but [AF_INET] the replacement resolves nothing,
    even where the module is built with IPv6 support: it returns [NULL]
    with [NO_RECOVERY] in the caller's error variable and in [h_errno] and
    [EAFNOSUPPORT] in [errno], without a lookup and without touching the
    static entry. *)
Theorem zsh_getipnodebyname_other_family cfg L name af flags errorp st :
  af <> AF_INET ->
  Shims.zsh_getipnodebyname cfg L name af flags errorp st =
    (Shims.HeNull, Shims.NO_RECOVERY,
     Shims.set_sh_h_errno Shims.NO_RECOVERY
       (Shims.set_sh_errno Shims.EAFNOSUPPORT st)).
Proof.
  intros Haf. apply Z.eqb_neq in Haf.
  unfold Shims.zsh_getipnodebyname, Shims.zsh_inet_pton, Shims.zsh_gethostbyname2.
  rewrite Haf. reflexivity.
Qed.

(** X26.  A name [inet_addr] cannot parse goes to [gethostbyname], once.
    The result is the entry of the library, or [NULL] with the library's
    [h_errno] in the caller's error variable.  The failed parse has
    already stored [INADDR_NONE] in [nbuf]: the address of the static
    entry now reads 255.255.255.255 whatever it was. *)
Theorem zsh_getipnodebyname_by_name cfg L name flags errorp st :
  Shims.inet_addr L name mod 4294967296 = Shims.INADDR_NONE ->
  (4 <= length (Shims.nbuf st))%nat ->
  exists st',
    Shims.zsh_getipnodebyname cfg L name AF_INET flags errorp st =
      (match Shims.gethostbyname L name with
       | inl h => (Shims.HeLibc h, errorp)
       | inr e => (Shims.HeNull, e)
       end, st') /\
    Shims.lookups st' = Shims.lookups st ++ [name] /\
    Shims.nbuf st' = [255; 255; 255; 255] ++ drop 4 (Shims.nbuf st) /\
    Shims.ahe st' = Shims.ahe st /\ Shims.pbuf st' = Shims.pbuf st /\
    Shims.sh_errno st' = Shims.sh_errno st.
Proof.
  intros Hv Hlen.
  unfold Shims.zsh_getipnodebyname, Shims.zsh_inet_pton, Shims.zsh_inet_aton.
  change (negb (AF_INET =? AF_INET)) with false. cbv iota.
  rewrite Hv.
  change (Shims.INADDR_NONE =? Shims.INADDR_NONE) with true. cbv iota.
  change ((if 0 =? 0 then 0 else 1) =? 1) with false. cbv iota.
  unfold Shims.zsh_gethostbyname2.
  change (negb (AF_INET =? AF_INET)) with false. cbv iota.
  destruct (Shims.gethostbyname L name); eexists; (split; [reflexivity|]); cbn; auto 10.
Qed.

(** X27.  Each result overwrites the previous one, as the comment in the
    source warns, and a call that returns another entry does so too.
    After a numeric name gave the static entry, any further call for
    [AF_INET] leaves that entry with the address [inet_addr] made of the
    second name: the address of the second name if it is numeric, else
    255.255.255.255. *)
Theorem zsh_getipnodebyname_overwrites cfg L name1 name2 flags1 flags2 e0 st
    p1 e1 st1 p2 e2 st2 :
  Shims.inet_addr L name1 mod 4294967296 <> Shims.INADDR_NONE ->
  (4 <= length (Shims.nbuf st))%nat ->
  Shims.zsh_getipnodebyname cfg L name1 AF_INET flags1 e0 st = (p1, e1, st1) ->
  Shims.zsh_getipnodebyname cfg L name2 AF_INET flags2 e1 st1 = (p2, e2, st2) ->
  p1 = Shims.HeStatic /\
  exists h b, Shims.read_hostent st2 p1 = Some h /\ h_addr_list h = [b] /\
    take 4 b = Shims.word_bytes (Shims.inet_addr L name2 mod 4294967296).
Proof.
  intros Hv Hlen H1 H2.
  destruct (zsh_getipnodebyname_numeric_ok cfg L name1 flags1 e0 st Hv Hlen)
    as (st1' & Hrun & _ & Hnb & _ & _ & _ & Hahe).
  rewrite Hrun in H1. injection H1 as <- <- <-.
  split; [reflexivity|].
  assert (Hlen1 : (4 <= length (Shims.nbuf st1'))%nat).
  { rewrite Hnb, length_app. change (length (Shims.word_bytes _)) with 4%nat. lia. }
  destruct (zsh_getipnodebyname_nbuf cfg L name2 flags2 e0 st1' Hlen1 _ _ _ H2)
    as (Hnb2 & Hptr).
  destruct Hptr as (Hn2 & Hl2); [now rewrite Hahe|now rewrite Hahe|].
  eexists _, (Shims.nbuf st2). unfold Shims.read_hostent. rewrite Hn2, Hl2.
  split; [reflexivity|]. split; [reflexivity|].
  rewrite Hnb2. reflexivity.
Qed.

(** *** The callers of [tcp_cleanup] *)

Lemma tcp_cleanup_first st a l :
  registry st (a :: l) -> tcp_cleanup st = Fault (InvalidPointer a).
Proof.
  intros Hreg. pose proof Hreg as Hreg0.
  unfold registry in Hreg. simpl in Hreg.
  destruct Hreg as (Hhead & s & Hs & _).
  unfold tcp_cleanup, zts_head, bind at 1. rewrite Hhead.
  unfold bind at 1. unfold walk_fuel. simpl.
  destruct (tcp_close_effect _ _ _ Hs) as (r & st1 & Hclose & Hh1 & Hhd1 & _).
  rewrite (bind_ok _ _ _ _ _ Hclose).
  assert (Hreg1 : registry st1 (a :: l)) by (unfold registry; now rewrite Hh1, Hhd1).
  assert (Hs1 : heap st1 !! a = Some s) by now rewrite Hh1.
  rewrite (bind_ok _ _ _ _ _ (zts_delete_head _ _ _ _ Hreg1 Hs1)).
  unfold bind, get_next, bind, load. simpl.
  now rewrite lookup_delete_eq.
Qed.

(** X28.  The two callers of [tcp_cleanup], the unload hook and [ztcp -c]
    without a descriptor, do the same.  On an empty registry they return 0
    and change nothing.  With any session registered both of them, through
    [tcp_cleanup], read the link of the first session out of its record
    after [zts_delete] has freed that record. *)
Theorem tcp_cleanup_callers cfg nam ops st l :
  registry st l -> ops "c"%char = true ->
  cleanup_ st = match l with
                | [] => Ok 0 st
                | a :: _ => Fault (InvalidPointer a)
                end /\
  bin_ztcp cfg nam [] ops st = cleanup_ st.
Proof.
  intros Hreg Hc. split.
  - unfold cleanup_. destruct l as [|a l].
    + unfold bind. now rewrite (tcp_cleanup_empty st Hreg).
    + unfold bind. now rewrite (tcp_cleanup_first st a l Hreg).
  - unfold bin_ztcp, cleanup_. now rewrite Hc.
Qed.

(** ** The further theorems at concrete inputs *)

(** [atoi] keeps the low 32 bits of what [strtol] read, and [strtol]
    stops at the ends of the range of [long]. *)
Example atoi_keeps_low_bits :
  atoi "4294967299" = 3 /\ atoi " -17x" = -17 /\
  atoi "99999999999999999999" = -1.
Proof. repeat split; vm_compute; reflexivity. Qed.

(** A host entry with an address length of 16 for an IPv4 candidate:
    [tcp_connect] is asked to copy 16 bytes into the four of
    [in.sin_addr]. *)
Example tcp_connect_overlong_address :
  tcp_connect example_config (Some 1%positive) (repeat 1 16)
    (Hostent "host" AF_INET 16 [repeat 1 16]) (htons 23) one_session
  = Fault OutOfBounds.
Proof. vm_compute. reflexivity. Qed.

Lemma traverse_registry_witness :
  traverse three_sessions = Ok [1; 2; 3]%positive three_sessions.
Proof.
  apply (traverse_registry three_sessions [1; 2; 3]%positive). by_computation.
Defined.

Lemma zts_alloc_on_empty_registry_witness :
  exists st',
    zts_alloc 0 initial_state = Ok (Some (next_block initial_state)) st' /\
    registry st' [next_block initial_state] /\
    ztcp_tail st' = Some (next_block initial_state) /\
    heap st' = <[next_block initial_state := Session (-1) sockaddr_zero 0 NULL]>
                 (heap initial_state) /\
    trace st' = trace initial_state /\ open_fds st' = open_fds initial_state.
Proof.
  apply (zts_alloc_on_empty_registry 0 initial_state 7); reflexivity.
Defined.

Lemma zts_alloc_replaces_the_rest_witness :
  exists st', zts_alloc 0 two_sessions = Ok (Some (next_block two_sessions)) st' /\
    registry st' [1%positive; next_block two_sessions] /\
    ztcp_tail st' = Some 1%positive /\
    (forall b, In b [2%positive] -> ~ visits (heap st') (ztcp_head st') b).
Proof.
  apply (zts_alloc_replaces_the_rest 0 two_sessions 1%positive [2%positive] 5).
  - by_computation.
  - vm_compute. reflexivity.
  - vm_compute. reflexivity.
  - vm_compute. reflexivity.
Defined.

Lemma zts_alloc_through_stale_tail_witness :
  zts_alloc 0 stale_tail = Fault (InvalidPointer 1%positive).
Proof.
  apply (zts_alloc_through_stale_tail 0 stale_tail 2%positive 1%positive 6).
  - vm_compute. reflexivity.
  - vm_compute. reflexivity.
  - vm_compute. reflexivity.
  - vm_compute. discriminate.
  - vm_compute. reflexivity.
Defined.

Lemma zts_delete_absent_witness :
  zts_delete (Some 2%positive) one_session = Ok 1 one_session.
Proof.
  apply (zts_delete_absent one_session [1%positive] (Some 2%positive)).
  - by_computation.
  - discriminate.
  - intros a E [H|[]]. rewrite <- H in E. discriminate.
Defined.

Lemma zts_delete_on_empty_registry_witness :
  zts_delete (Some 1%positive) initial_state = Fault NullDeref.
Proof.
  apply (zts_delete_on_empty_registry initial_state (Some 1%positive)). reflexivity.
Defined.

Lemma zts_delete_first_witness :
  exists st', zts_delete (Some 1%positive) two_sessions = Ok 0 st' /\
    registry st' [2%positive] /\
    heap st' = delete 1%positive (heap two_sessions) /\
    ztcp_tail st' = ztcp_tail two_sessions /\
    trace st' = trace two_sessions.
Proof.
  apply (zts_delete_first two_sessions 1%positive [2%positive]). by_computation.
Defined.

Lemma zts_delete_last_witness :
  exists st' sp,
    zts_delete (Some 2%positive) two_sessions = Ok 0 st' /\
    heap two_sessions !! 1%positive = Some sp /\
    heap st' = <[1%positive := Session (fd sp) (peer sp) (flags sp) NULL]>
                 (heap two_sessions) /\
    registry st' ([] ++ [1%positive]) /\
    heap st' !! 2%positive = heap two_sessions !! 2%positive /\
    is_Some (heap st' !! 2%positive) /\
    mem_left st' = mem_left two_sessions /\ ztcp_tail st' = ztcp_tail two_sessions.
Proof.
  apply (zts_delete_last two_sessions [] 1%positive 2%positive). by_computation.
Defined.

Lemma zts_delete_middle_witness :
  exists st', zts_delete (Some 2%positive) three_sessions = Ok 0 st' /\
    is_Some (heap st' !! 2%positive) /\
    heap st' !! 3%positive = None /\
    traverse st' = Fault (InvalidPointer 3%positive).
Proof.
  apply (zts_delete_middle three_sessions [] 1%positive 2%positive 3%positive []).
  by_computation.
Defined.

Lemma registry_at_most_two_after_ops_witness :
  exists l, registry first_deleted l /\ (length l <= 2)%nat /\
    traverse first_deleted = Ok l first_deleted.
Proof.
  apply (registry_at_most_two_after_ops
           [Allocate 0; Allocate 0; Delete (Some 1%positive)] []
           initial_state [2%positive] first_deleted).
  - reflexivity.
  - reflexivity.
  - reflexivity.
  - vm_compute. reflexivity.
Defined.

Lemma registry_at_most_two_after_calls_witness :
  exists l, registry two_sessions l /\ (length l <= 2)%nat /\
    traverse two_sessions = Ok l two_sessions.
Proof.
  apply (registry_at_most_two_after_calls example_config
           [Call_tcp_socket PF_INET SOCK_STREAM 0 0;
            Call_tcp_socket PF_INET SOCK_STREAM 0 0] initial_state two_sessions).
  - reflexivity.
  - reflexivity.
  - reflexivity.
  - vm_compute. reflexivity.
Defined.

Lemma ztcp_close_unknown_fd_witness :
  bin_ztcp example_config "ztcp" ["7"%string] (opts "c") one_session =
  Ok 1 (emit (EvWarn (Some "ztcp"%string) "fd not found in tcp table" None 0)
          one_session).
Proof.
  apply (ztcp_close_unknown_fd example_config "ztcp" "7" [] (opts "c") one_session
           [1%positive]).
  - by_computation.
  - discriminate.
  - intros b s' [<-|[]] H. vm_compute in H. injection H as <-. discriminate.
  - reflexivity.
Defined.

Lemma ztcp_close_fd_on_empty_registry_witness :
  bin_ztcp example_config "ztcp" ["3"%string] (opts "c") initial_state =
  Fault NullDeref.
Proof.
  apply (ztcp_close_fd_on_empty_registry example_config "ztcp" "3" [] (opts "c")
           initial_state); reflexivity.
Defined.


Lemma ztcp_resolution_failure_witness :
  bin_ztcp example_config "ztcp" ["nowhere"%string] (opts EmptyString) initial_state =
  Ok 1 (emit (EvWarn (Some "ztcp"%string) "host resolution failure: %s"
                (Some "nowhere"%string) 0) initial_state).
Proof.
  apply (ztcp_resolution_failure example_config "ztcp" "nowhere" []
           (opts EmptyString) initial_state).
  - reflexivity.
  - left. reflexivity.
Defined.

Lemma ztcp_socket_failure_witness :
  exists st',
    bin_ztcp example_config "ztcp" ["localhost"%string] (opts EmptyString)
      (few_descriptors 3) = Ok 1 st' /\
    heap st' = heap (few_descriptors 3) /\ ztcp_head st' = NULL /\
    open_fds st' = open_fds (few_descriptors 3) /\
    mem_left st' = mem_left (few_descriptors 3) /\
    trace st' = trace (few_descriptors 3) ++
      EvSocket (-1) ::
      (if SO_OOBINLINE example_config then [EvSetsockopt (-1)] else []) ++
      [EvWarn (Some "ztcp"%string) "socket creation failed: %e" None
         (if SO_OOBINLINE example_config then EBADF else EMFILE)].
Proof.
  apply (ztcp_socket_failure example_config "ztcp" "localhost" [] (opts EmptyString)
           (few_descriptors 3) example_host 7).
  - reflexivity.
  - reflexivity.
  - reflexivity.
  - reflexivity.
  - reflexivity.
  - reflexivity.
  - vm_compute. reflexivity.
  - apply (proj1 (bool_decide_eq_false _)). vm_compute. reflexivity.
Defined.

Lemma ztcp_socket_failure_leaks_witness :
  exists st',
    bin_ztcp example_config "ztcp" ["localhost"%string] (opts EmptyString)
      last_descriptor_taken = Ok 1 st' /\
    registry st' [1%positive] /\
    heap st' !! next_block last_descriptor_taken
      = Some (Session (-1) sockaddr_zero 0 NULL) /\
    mem_left st' = 6%nat /\
    open_fds st' = open_fds last_descriptor_taken.
Proof.
  apply (ztcp_socket_failure_leaks example_config "ztcp" "localhost" []
           (opts EmptyString) last_descriptor_taken example_host 1%positive [] 6).
  - reflexivity.
  - reflexivity.
  - reflexivity.
  - by_computation.
  - vm_compute. reflexivity.
  - vm_compute. reflexivity.
  - vm_compute. reflexivity.
  - vm_compute. reflexivity.
Defined.

Lemma ztcp_listing_witness :
  bin_ztcp example_config "ztcp" [] (opts EmptyString) one_session =
  Ok 0 (emit_all (listing example_config one_session [1%positive]) one_session).
Proof.
  apply (ztcp_listing example_config "ztcp" (opts EmptyString) one_session [1%positive]).
  - reflexivity.
  - by_computation.
Defined.

Lemma ztcp_listing_port_witness :
  exists st' name port suffix,
    bin_ztcp example_config "ztcp" [] (opts EmptyString) connected = Ok 0 st' /\
    In (EvPrintf "%s:%d is on fd %d%s\n" [PS name; PD port; PD 3; PS suffix])
       (trace st') /\
    name = "UNKNOWN"%string /\ port = htons 80.
Proof.
  apply (ztcp_listing_port example_config "ztcp" (opts EmptyString) connected
           [1%positive] 1%positive
           (Session 3 (Sockaddr AF_INET (htons 80) [127; 0; 0; 1] (zero_bytes 16) 0)
              0 NULL) 80).
  - reflexivity.
  - by_computation.
  - now left.
  - vm_compute. reflexivity.
  - discriminate.
  - lia.
  - reflexivity.
Defined.

Lemma tcp_connect_frame_witness :
  exists r st',
    tcp_connect example_config (Some 1%positive) [127; 0; 0; 1] example_host
      (htons 23) one_session = Ok r st' /\
    (r = 0 \/ r = -1) /\
    registry st' [1%positive] /\
    heap st' !! 1%positive =
      Some (Session 3
              (peer_after_connect example_config [127; 0; 0; 1] example_host
                 (htons 23) sockaddr_zero) 0 NULL) /\
    (forall b, b <> 1%positive -> heap st' !! b = heap one_session !! b) /\
    ztcp_tail st' = ztcp_tail one_session /\ open_fds st' = open_fds one_session /\
    (3 ∉ open_fds one_session -> r = -1 /\ errno st' = EBADF).
Proof.
  apply (tcp_connect_frame example_config one_session [1%positive] 1%positive
           (Session 3 sockaddr_zero 0 NULL) [127; 0; 0; 1] example_host (htons 23)).
  - by_computation.
  - vm_compute. reflexivity.
  - repeat constructor; vm_compute; discriminate.
Defined.


Lemma tcp_socket_on_empty_registry_witness :
  exists f st',
    tcp_socket PF_INET SOCK_STREAM 0 0 initial_state = Ok (Some 1%positive) st' /\
    registry st' [1%positive] /\ ztcp_tail st' = Some 1%positive /\
    heap st' = <[1%positive := Session f sockaddr_zero 0 NULL]> (heap initial_state) /\
    mem_left st' = 7%nat /\
    trace st' = trace initial_state ++ [EvSocket f] /\
    ((f = -1 /\ open_fds st' = open_fds initial_state /\ errno st' = EMFILE) \/
     (0 <= f /\ (f ∉ open_fds initial_state) /\
      open_fds st' = {[f]} ∪ open_fds initial_state)).
Proof.
  apply (tcp_socket_on_empty_registry PF_INET SOCK_STREAM 0 0 initial_state 7);
    reflexivity.
Defined.

Lemma tcp_socket_out_of_memory_witness :
  tcp_socket PF_INET SOCK_STREAM 0 0 out_of_memory = Ok NULL out_of_memory.
Proof.
  apply (tcp_socket_out_of_memory PF_INET SOCK_STREAM 0 0 out_of_memory). reflexivity.
Defined.

Lemma tcp_cleanup_callers_witness :
  cleanup_ one_session = Fault (InvalidPointer 1%positive) /\
  bin_ztcp example_config "ztcp" [] (opts "c") one_session = cleanup_ one_session.
Proof.
  apply (tcp_cleanup_callers example_config "ztcp" (opts "c") one_session [1%positive]).
  - by_computation.
  - reflexivity.
Defined.

Lemma zsh_getipnodebyname_numeric_witness :
  exists st',
    Shims.zsh_getipnodebyname example_config Shims.example_libc "10.0.0.1" AF_INET 0 0
      Shims.shim_initial = (Shims.HeStatic, 0, st') /\
    Shims.read_hostent st' Shims.HeStatic =
      Some (Hostent "10.0.0.1" AF_INET 4 [Shims.nbuf st']) /\
    Shims.nbuf st' = [10; 0; 0; 1] ++ drop 4 (Shims.nbuf Shims.shim_initial) /\
    Shims.lookups st' = Shims.lookups Shims.shim_initial /\
    Shims.sh_errno st' = Shims.sh_errno Shims.shim_initial /\
    Shims.sh_h_errno st' = Shims.sh_h_errno Shims.shim_initial.
Proof.
  apply (zsh_getipnodebyname_numeric example_config Shims.example_libc "10.0.0.1"
           0 0 Shims.shim_initial).
  - vm_compute. discriminate.
  - vm_compute. lia.
Defined.

Lemma zsh_getipnodebyname_other_family_witness :
  Shims.zsh_getipnodebyname (Config true true true 1) Shims.example_libc "::1"
    AF_INET6 0 0 Shims.shim_initial =
  (Shims.HeNull, Shims.NO_RECOVERY,
   Shims.set_sh_h_errno Shims.NO_RECOVERY
     (Shims.set_sh_errno Shims.EAFNOSUPPORT Shims.shim_initial)).
Proof.
  apply (zsh_getipnodebyname_other_family (Config true true true 1)
           Shims.example_libc "::1" AF_INET6 0 0 Shims.shim_initial).
  discriminate.
Defined.

Lemma zsh_getipnodebyname_by_name_witness :
  exists st',
    Shims.zsh_getipnodebyname example_config Shims.example_libc "localhost" AF_INET 0 0
      Shims.shim_initial = (Shims.HeLibc example_host, 0, st') /\
    Shims.lookups st' = Shims.lookups Shims.shim_initial ++ ["localhost"%string] /\
    Shims.nbuf st' = [255; 255; 255; 255] ++ drop 4 (Shims.nbuf Shims.shim_initial) /\
    Shims.ahe st' = Shims.ahe Shims.shim_initial /\
    Shims.pbuf st' = Shims.pbuf Shims.shim_initial /\
    Shims.sh_errno st' = Shims.sh_errno Shims.shim_initial.
Proof.
  apply (zsh_getipnodebyname_by_name example_config Shims.example_libc "localhost"
           0 0 Shims.shim_initial).
  - vm_compute. reflexivity.
  - vm_compute. lia.
Defined.

Lemma zsh_getipnodebyname_overwrites_witness :
  exists h b,
    Shims.read_hostent
      (snd (Shims.zsh_getipnodebyname example_config Shims.example_libc "localhost"
              AF_INET 0 0
              (snd (Shims.zsh_getipnodebyname example_config Shims.example_libc
                      "10.0.0.1" AF_INET 0 0 Shims.shim_initial))))
      Shims.HeStatic = Some h /\
    h_addr_list h = [b] /\ take 4 b = [255; 255; 255; 255].
Proof.
  refine (proj2 (zsh_getipnodebyname_overwrites example_config Shims.example_libc
            "10.0.0.1" "localhost" 0 0 0 Shims.shim_initial
            Shims.HeStatic 0 _ (Shims.HeLibc example_host) 0 _ _ _ _ _)).
  - vm_compute. discriminate.
  - vm_compute. lia.
  - vm_compute. reflexivity.
  - vm_compute. reflexivity.
Defined.
